(** * DocSpot back end: appointment lifecycle and authorization rules

    A shallow embedding of the Express/Mongoose back end
    (routes/auth.js, routes/admin.js, routes/customer.js,
    routes/doctor.js, middleware/auth.js and the four Mongoose schemas).

    - A Mongoose collection is a finite map from [ObjectId] to documents.
    - A route handler is a computation in a state-and-exception monad over
      the three collections; its [try { ... } catch] turns any exception
      into the reply [500 'Server Error'] and keeps the writes made so far.
    - [doc.save()] runs the validators of the schema on the document and
      throws, without writing, when one of them fails.
    - ObjectIds are drawn from a counter; a query without a [sort] lists
      the documents in the order of insertion, the order of their ids.
    - bcrypt and jsonwebtoken are external collaborators, taken as
      parameters of the development.
    - Route parameters and ids in request bodies are taken as well-formed
      ObjectIds; body fields of type String are [option string]
      ([None] for a field that is absent from the JSON body). *)

From Stdlib Require Import String Ascii.
From stdpp Require Import gmap strings list fin_maps sorting.

Local Open Scope string_scope.

(** ** Strings *)

(** [String.prototype.endsWith]: the last [length suffix] characters of [s]
    are compared with [suffix]; a suffix longer than [s] never matches. *)
Definition endsWith (s suffix : string) : bool :=
  let n := String.length s in
  let m := String.length suffix in
  if (m <=? n)%nat then String.eqb (substring (n - m) m s) suffix else false.

(** JavaScript truthiness of an optional string field: [undefined] and the
    empty string are falsy. *)
Definition truthy (o : option string) : bool :=
  match o with
  | Some s => negb (String.eqb s "")
  | None => false
  end.

(** The double-quote character, as a one-character string. *)
Definition dquote : string := String (ascii_of_nat 34) EmptyString.

(** A template literal prints a missing value as [undefined]. *)
Definition interpolate (o : option string) : string :=
  match o with
  | Some s => s
  | None => "undefined"
  end.

(** ** Data model (models/User.js, DoctorProfile.js, Appointment.js) *)

Definition ObjectId := nat.
Definition Date := nat.

Inductive Role := customer | doctor | admin.
Inductive Status := pending | scheduled | completed | cancelled.
Inductive PaymentStatus := pay_pending | paid | failed.

Global Instance Role_eq_dec : EqDecision Role.
Proof. solve_decision. Defined.
Global Instance Status_eq_dec : EqDecision Status.
Proof. solve_decision. Defined.
Global Instance PaymentStatus_eq_dec : EqDecision PaymentStatus.
Proof. solve_decision. Defined.

Definition Status_to_string (s : Status) : string :=
  match s with
  | pending => "pending"
  | scheduled => "scheduled"
  | completed => "completed"
  | cancelled => "cancelled"
  end.

(** The [enum] validator of [AppointmentSchema.status]. *)
Definition Status_of_string (s : string) : option Status :=
  if String.eqb s "pending" then Some pending
  else if String.eqb s "scheduled" then Some scheduled
  else if String.eqb s "completed" then Some completed
  else if String.eqb s "cancelled" then Some cancelled
  else None.

Record User := mkUser {
  username : string;
  email : string;
  password : string;
  role : Role;
  u_isApproved : bool;
  u_date : Date
}.

Record DoctorProfile := mkDoctorProfile {
  user : ObjectId;
  specialty : string;
  clinicName : option string;
  address : option string;
  phone : option string;
  p_isApproved : bool;
  p_date : Date
}.

Record Appointment := mkAppointment {
  a_customer : ObjectId;
  a_doctor : ObjectId;
  date : string;
  time : string;
  documents : list string;
  notes : option string;
  isEmergency : bool;
  status : Status;
  paymentStatus : PaymentStatus;
  createdAt : Date
}.

(** The database: three collections and the ObjectId generator. *)
Record Store := mkStore {
  users : gmap ObjectId User;
  profiles : gmap ObjectId DoctorProfile;
  appointments : gmap ObjectId Appointment;
  next_oid : ObjectId
}.

Definition empty_store : Store := mkStore ∅ ∅ ∅ 0.

(** ** Replies *)

(** The payload of the signed credential, [req.user] after [auth]. *)
Record ReqUser := mkReqUser {
  id : ObjectId;
  r_role : Role;
  r_username : string;
  r_isApproved : bool
}.

(** The shapes of the JSON bodies the handlers send. *)
Inductive Body :=
  | Msg (msg : string)
  | Text (txt : string)
  | AuthBody (token msg : string) (role : Role) (user : option ReqUser)
  | ApprovedBody (msg : string) (user : ObjectId * User)
      (doctorProfile : ObjectId * DoctorProfile)
  | ProfileBody (msg : string) (profile : ObjectId * DoctorProfile)
  | AppointmentBody (msg : string) (appointment : ObjectId * Appointment).

Record Response := mkResponse {
  code : nat;
  body : Body
}.

Definition OK : nat := 200.
Definition Created : nat := 201.
Definition BadRequest : nat := 400.
Definition Unauthorized : nat := 401.
Definition Forbidden : nat := 403.
Definition NotFound : nat := 404.
Definition InternalServerError : nat := 500.

(** [res.json(b)], [res.status(c).json(b)] and [res.status(500).send(...)]. *)
Definition json (b : Body) : Response := mkResponse OK b.
Definition status_json (c : nat) (b : Body) : Response := mkResponse c b.
Definition server_error : Response :=
  mkResponse InternalServerError (Text "Server Error").

(** ** The handler monad: database state and JavaScript exceptions *)

Inductive Exn := TypeError | ValidationError | DuplicateKey | IllegalArguments.

Inductive Outcome (A : Type) :=
  | Value (a : A)
  | Thrown (e : Exn).
Arguments Value {A} a.
Arguments Thrown {A} e.

Definition M (A : Type) : Type := Store → Store * Outcome A.

Definition ret {A} (a : A) : M A := λ st, (st, Value a).
Definition throw {A} (e : Exn) : M A := λ st, (st, Thrown e).
Definition bind {A B} (m : M A) (k : A → M B) : M B :=
  λ st, match m st with
        | (st', Value a) => k a st'
        | (st', Thrown e) => (st', Thrown e)
        end.
Definition gets {A} (f : Store → A) : M A := λ st, (st, Value (f st)).
Definition modify (f : Store → Store) : M unit := λ st, (f st, Value tt).

Notation "x <- m ;; k" := (bind m (λ x, k))
  (at level 100, m at next level, right associativity,
   format "'[v' x  <-  m  ;; '/' k ']'").
Notation "m ;;; k" := (bind m (λ _, k))
  (at level 100, right associativity).

(** [try { body } catch (err) { res.status(500).send('Server Error') }]:
    what was written before the exception stays written. *)
Definition try_catch (m : M Response) : Store → Store * Response :=
  λ st, match m st with
        | (st', Value r) => (st', r)
        | (st', Thrown _) => (st', server_error)
        end.

(** ** Mongoose models *)

(** The [required: true] validator of a String path on a document:
    Mongoose's [checkRequired] refuses the empty string. *)
Definition nonempty (s : string) : bool := negb (String.eqb s "").
Arguments nonempty : simpl never.

(** A model names its collection inside the database, the pairs of
    documents its [unique] indexes keep apart, and the validators of its
    schema, which [doc.validate()] runs on every path of a document before
    a save.  The [enum] paths are typed by their enumerations and the
    ObjectId, Boolean and Date paths by their types, so the validators
    that are left are the [required] ones of the String paths. *)
Class Model (A : Type) := {
  collection : Store → gmap ObjectId A;
  set_collection : gmap ObjectId A → Store → Store;
  clash : A → A → bool;
  valid : A → bool
}.

Global Instance UserModel : Model User := {|
  collection := users;
  set_collection c st :=
    mkStore c (profiles st) (appointments st) (next_oid st);
  clash u v :=
    String.eqb (username u) (username v) || String.eqb (email u) (email v);
  valid u := nonempty (username u) && nonempty (email u) && nonempty (password u)
|}.

Global Instance DoctorProfileModel : Model DoctorProfile := {|
  collection := profiles;
  set_collection c st :=
    mkStore (users st) c (appointments st) (next_oid st);
  clash p q := Nat.eqb (user p) (user q);
  valid p := nonempty (specialty p)
|}.

Global Instance AppointmentModel : Model Appointment := {|
  collection := appointments;
  set_collection c st :=
    mkStore (users st) (profiles st) c (next_oid st);
  clash _ _ := false;
  valid a := nonempty (date a) && nonempty (time a)
|}.

Definition bump_oid (st : Store) : Store :=
  mkStore (users st) (profiles st) (appointments st) (S (next_oid st)).

(** The order of the ObjectIds.  They are drawn from a counter, so it is
    the order in which the documents were inserted, and that is the order
    in which a collection hands its documents to a query without a
    [sort]. *)
Definition by_id {A} (x y : ObjectId * A) : Prop := (x.1 ≤ y.1)%nat.

Global Instance by_id_dec {A} (x y : ObjectId * A) : Decision (by_id x y).
Proof. unfold by_id. apply _. Defined.

(** The documents of a collection, in the order of insertion. *)
Definition in_order {A} (c : gmap ObjectId A) : list (ObjectId * A) :=
  merge_sort by_id (map_to_list c).

(** The first document of a collection that satisfies a filter. *)
Definition find_first {A} (P : ObjectId * A → bool)
    (c : gmap ObjectId A) : option (ObjectId * A) :=
  List.find P (in_order c).

Section model_operations.
Context {A : Type} `{Model A}.

(** [Model.findById(id)]. *)
Definition findById (i : ObjectId) : M (option A) :=
  gets (λ st, collection st !! i).

(** [Model.findOne(filter)]. *)
Definition findOne (P : ObjectId * A → bool) : M (option (ObjectId * A)) :=
  gets (λ st, find_first P (collection st)).

(** [doc.save()] on a new document, after validation: the write is
    refused when the [_id] is taken or a [unique] index would be violated.
    Mongoose draws the [_id] when the document is constructed; a document
    that is never stored is never observed, so the model draws it here. *)
Definition insert_new (d : A) : M ObjectId :=
  λ st,
    let i := next_oid st in
    match collection st !! i with
    | Some _ => (st, Thrown DuplicateKey)
    | None =>
        match find_first (λ kv, clash d kv.2) (collection st) with
        | Some _ => (st, Thrown DuplicateKey)
        | None =>
            (bump_oid (set_collection (<[i := d]> (collection st)) st),
             Value i)
        end
    end.

(** [doc.save()] on a document that was read from the collection.  The
    validators of the schema run first, on the whole document, and a
    document that fails one is not written: the save throws.  None of the
    handlers assigns to a field that carries a [unique] index. *)
Definition save (i : ObjectId) (d : A) : M unit :=
  if valid d
  then modify (λ st, set_collection (<[i := d]> (collection st)) st)
  else throw ValidationError.

(** [Model.deleteOne(filter)]. *)
Definition deleteOne (P : ObjectId * A → bool) : M unit :=
  modify (λ st,
    match find_first P (collection st) with
    | Some (i, _) => set_collection (delete i (collection st)) st
    | None => st
    end).

(** [Model.deleteMany(filter)]. *)
Definition deleteMany (P : ObjectId * A → bool) : M unit :=
  modify (λ st,
    set_collection (filter (λ kv, P kv = false) (collection st)) st).

(** [doc.deleteOne()]. *)
Definition delete_doc (i : ObjectId) : M unit :=
  modify (λ st, set_collection (delete i (collection st)) st).

End model_operations.

(** The [required: true] validator of a String path. *)
Definition required (o : option string) : M string :=
  match o with
  | Some s => if String.eqb s "" then throw ValidationError else ret s
  | None => throw ValidationError
  end.

(** A filter clause [{ field: value }] on a String path; a clause whose
    value is [undefined] matches no stored document, since every String
    path that is queried is required. *)
Definition field_is (o : option string) (x : string) : bool :=
  match o with
  | Some s => String.eqb s x
  | None => false
  end.

(** Assignments to single paths of a document. *)
Definition User_set_isApproved (b : bool) (u : User) : User :=
  mkUser (username u) (email u) (password u) (role u) b (u_date u).

Definition Profile_set_isApproved (b : bool) (p : DoctorProfile)
    : DoctorProfile :=
  mkDoctorProfile (user p) (specialty p) (clinicName p) (address p)
    (phone p) b (p_date p).

Definition Profile_set_details (sp : string) (cn ad ph : option string)
    (p : DoctorProfile) : DoctorProfile :=
  mkDoctorProfile (user p) sp cn ad ph (p_isApproved p) (p_date p).

Definition Appointment_set_status (s : Status) (a : Appointment)
    : Appointment :=
  mkAppointment (a_customer a) (a_doctor a) (date a) (time a) (documents a)
    (notes a) (isEmergency a) s (paymentStatus a) (createdAt a).

Definition Appointment_set_paymentStatus (s : PaymentStatus)
    (a : Appointment) : Appointment :=
  mkAppointment (a_customer a) (a_doctor a) (date a) (time a) (documents a)
    (notes a) (isEmergency a) (status a) s (createdAt a).

Definition Appointment_set_date (d : string) (a : Appointment)
    : Appointment :=
  mkAppointment (a_customer a) (a_doctor a) d (time a) (documents a)
    (notes a) (isEmergency a) (status a) (paymentStatus a) (createdAt a).

Definition Appointment_set_time (t : string) (a : Appointment)
    : Appointment :=
  mkAppointment (a_customer a) (a_doctor a) (date a) t (documents a)
    (notes a) (isEmergency a) (status a) (paymentStatus a) (createdAt a).

(** ** Request bodies *)

Record RegisterBody := mkRegisterBody {
  rb_username : option string;
  rb_email : option string;
  rb_password : option string
}.

Record LoginBody := mkLoginBody {
  lb_email : option string;
  lb_password : option string
}.

Record BookBody := mkBookBody {
  bb_doctorId : ObjectId;
  bb_date : option string;
  bb_time : option string;
  bb_documents : option (list string);
  bb_notes : option string;
  bb_isEmergency : option bool
}.

Record PayBody := mkPayBody {
  pb_paymentMethod : option string
}.

Record StatusBody := mkStatusBody {
  sb_status : option string;
  sb_date : option string;
  sb_time : option string
}.

Record ProfileBodyReq := mkProfileBodyReq {
  pr_specialty : option string;
  pr_clinicName : option string;
  pr_address : option string;
  pr_phone : option string
}.

(** The organizational marker of routes/auth.js. *)
Definition doctor_marker : string := "@chetan.doctor".

(** The simulated payment gateway of routes/customer.js. *)
Definition paymentSuccessful : bool := true.

(** ** Route handlers *)

(** bcryptjs and jsonwebtoken (with the configured secret and the one-hour
    expiry) are external collaborators. *)
Class Collaborators := {
  bcrypt_hash : string → string → string;
  bcrypt_compare : string → string → bool;
  jwt_sign : ReqUser → string;
  jwt_verify : string → option ReqUser
}.

Section Backend.
Context `{Collaborators}.

(** *** routes/auth.js *)

(** [POST api/auth/register]; [salt] is the result of [bcrypt.genSalt(10)]
    and [now] the value of [Date.now]. *)
Definition register_handler (salt : string) (now : Date) (b : RegisterBody)
    : M Response :=
  existing <- findOne (A := User)
      (λ kv, field_is (rb_email b) (email kv.2)
             || field_is (rb_username b) (username kv.2)) ;;
  match existing with
  | Some _ => ret (status_json 400 (Msg "User already exists"))
  | None =>
      role <- match rb_email b with
              | Some e =>
                  ret (if endsWith e doctor_marker then doctor else customer)
              | None => throw TypeError
              end ;;
      let isApproved :=
        if decide (role = customer ∨ role = admin) then true else false in
      hash <- match rb_password b with
              | Some p => ret (bcrypt_hash p salt)
              | None => throw IllegalArguments
              end ;;
      (* await user.save() *)
      username' <- required (rb_username b) ;;
      email' <- required (rb_email b) ;;
      password' <- required (Some hash) ;;
      uid <- insert_new (mkUser username' email' password' role isApproved now) ;;
      (if decide (role = doctor) then
         _ <- insert_new
                (mkDoctorProfile uid "Not specified" None None None false now) ;;
         ret tt
       else ret tt) ;;;
      let payload := mkReqUser uid role username' isApproved in
      ret (json (AuthBody (jwt_sign payload) "Registration successful!"
                   role None))
  end.

(** [POST api/auth/login]. *)
Definition login_handler (b : LoginBody) : M Response :=
  found <- findOne (A := User) (λ kv, field_is (lb_email b) (email kv.2)) ;;
  match found with
  | None => ret (status_json 400 (Msg "Invalid Credentials"))
  | Some (uid, u) =>
      isMatch <- match lb_password b with
                 | Some p => ret (bcrypt_compare p (password u))
                 | None => throw IllegalArguments
                 end ;;
      if negb isMatch then ret (status_json 400 (Msg "Invalid Credentials"))
      else
        let payload :=
          mkReqUser uid (role u) (username u) (u_isApproved u) in
        ret (json (AuthBody (jwt_sign payload) "Login successful!" (role u)
                     (Some payload)))
  end.

(** *** routes/admin.js *)

(** [PUT api/admin/doctors/:user_id/approve]. *)
Definition approve_handler (user_id : ObjectId) : M Response :=
  found <- findById (A := User) user_id ;;
  match found with
  | Some u =>
      if decide (role u ≠ doctor) then
        ret (status_json 404 (Msg "Doctor not found or not a doctor role"))
      else
        doctorProfile <- findOne (A := DoctorProfile)
                           (λ kv, Nat.eqb (user kv.2) user_id) ;;
        match doctorProfile with
        | None => ret (status_json 404 (Msg "Doctor profile not found"))
        | Some (pid, p) =>
            let u' := User_set_isApproved true u in
            let p' := Profile_set_isApproved true p in
            save user_id u' ;;;
            save pid p' ;;;
            ret (json (ApprovedBody "Doctor approved successfully"
                         (user_id, u') (pid, p')))
        end
  | None =>
      ret (status_json 404 (Msg "Doctor not found or not a doctor role"))
  end.

(** [DELETE api/admin/users/:user_id]. *)
Definition delete_user_handler (caller : ReqUser) (user_id : ObjectId)
    : M Response :=
  userToDelete <- findById (A := User) user_id ;;
  match userToDelete with
  | None => ret (status_json 404 (Msg "User not found"))
  | Some u =>
      if decide (role u = admin) then
        ret (status_json 403 (Msg "Cannot delete an admin user."))
      else if decide (user_id = id caller) then
        ret (status_json 403 (Msg "You cannot delete your own account."))
      else
        (if decide (role u = doctor) then
           deleteOne (A := DoctorProfile)
             (λ kv, Nat.eqb (user kv.2) user_id) ;;;
           deleteMany (A := Appointment)
             (λ kv, Nat.eqb (a_doctor kv.2) user_id)
         else if decide (role u = customer) then
           deleteMany (A := Appointment)
             (λ kv, Nat.eqb (a_customer kv.2) user_id)
         else ret tt) ;;;
        delete_doc (A := User) user_id ;;;
        ret (json (Msg "User and associated data removed"))
  end.

(** *** routes/customer.js *)

(** [POST api/customer/appointments]. *)
Definition book_handler (caller : ReqUser) (now : Date) (b : BookBody)
    : M Response :=
  doctorProfile <- findOne (A := DoctorProfile)
                     (λ kv, Nat.eqb (user kv.2) (bb_doctorId b)) ;;
  let refused :=
    match doctorProfile with
    | None => true
    | Some (_, p) => negb (p_isApproved p)
    end in
  if refused then
    ret (status_json 400 (Msg "Doctor not found or not yet approved."))
  else
    (* await newAppointment.save() *)
    date' <- required (bb_date b) ;;
    time' <- required (bb_time b) ;;
    let newAppointment :=
      mkAppointment (id caller) (bb_doctorId b) date' time'
        (default [] (bb_documents b)) (bb_notes b)
        (default false (bb_isEmergency b)) pending pay_pending now in
    aid <- insert_new newAppointment ;;
    ret (status_json 201
           (AppointmentBody
              ("Appointment requested successfully! Proceed to " ++ dquote
               ++ "My Appointments" ++ dquote ++ " to pay.")
              (aid, newAppointment))).

(** [PUT api/customer/appointments/:id/cancel]. *)
Definition cancel_handler (caller : ReqUser) (appointment_id : ObjectId)
    : M Response :=
  found <- findById (A := Appointment) appointment_id ;;
  match found with
  | None => ret (status_json 404 (Msg "Appointment not found"))
  | Some a =>
      if decide (a_customer a ≠ id caller) then
        ret (status_json 401 (Msg "Not authorized to cancel this appointment"))
      else if decide (status a = completed) then
        ret (status_json 400 (Msg "Cannot cancel a completed appointment."))
      else if decide (status a = cancelled) then
        ret (status_json 400 (Msg "Appointment is already cancelled."))
      else
        let a' := Appointment_set_status cancelled a in
        save appointment_id a' ;;;
        ret (json (AppointmentBody "Appointment cancelled successfully"
                     (appointment_id, a')))
  end.

(** [POST api/customer/appointments/:id/pay]. *)
Definition pay_handler (caller : ReqUser) (appointment_id : ObjectId)
    (b : PayBody) : M Response :=
  found <- findById (A := Appointment) appointment_id ;;
  match found with
  | None => ret (status_json 404 (Msg "Appointment not found"))
  | Some a =>
      if decide (a_customer a ≠ id caller) then
        ret (status_json 401 (Msg "Not authorized to pay for this appointment"))
      else if decide (status a ≠ pending ∧ status a ≠ scheduled) then
        ret (status_json 400
               (Msg ("Cannot pay for an appointment with status: "
                     ++ Status_to_string (status a))))
      else if decide (paymentStatus a = paid) then
        ret (status_json 400
               (Msg "Payment has already been made for this appointment."))
      else if paymentSuccessful then
        let a1 := Appointment_set_paymentStatus paid a in
        let a2 :=
          if decide (status a1 = pending)
          then Appointment_set_status scheduled a1 else a1 in
        save appointment_id a2 ;;;
        ret (json (AppointmentBody
                     ("Payment successful via "
                      ++ interpolate (pb_paymentMethod b)
                      ++ "! Appointment is now "
                      ++ Status_to_string (status a2) ++ ".")
                     (appointment_id, a2)))
      else
        let a1 := Appointment_set_paymentStatus failed a in
        save appointment_id a1 ;;;
        ret (status_json 400 (Msg "Payment failed. Please try again."))
  end.

(** *** routes/doctor.js *)

(** [POST api/doctor/profile]. *)
Definition profile_handler (caller : ReqUser) (now : Date)
    (b : ProfileBodyReq) : M Response :=
  found <- findOne (A := DoctorProfile)
             (λ kv, Nat.eqb (user kv.2) (id caller)) ;;
  match found with
  | Some (pid, p) =>
      (* await profile.save() *)
      specialty' <- required (pr_specialty b) ;;
      let p' :=
        Profile_set_details specialty' (pr_clinicName b) (pr_address b)
          (pr_phone b) p in
      save pid p' ;;;
      ret (json (ProfileBody "Doctor profile updated" (pid, p')))
  | None =>
      specialty' <- required (pr_specialty b) ;;
      let profile :=
        mkDoctorProfile (id caller) specialty' (pr_clinicName b)
          (pr_address b) (pr_phone b) false now in
      pid <- insert_new profile ;;
      ret (status_json 201 (ProfileBody "Doctor profile created" (pid, profile)))
  end.

(** [PUT api/doctor/appointments/:id/status].  The assigned status stays
    a string on the in-memory document until [appointment.save()] runs the
    [enum] validator of the schema on it. *)
Definition status_handler (caller : ReqUser) (appointment_id : ObjectId)
    (b : StatusBody) : M Response :=
  found <- findById (A := Appointment) appointment_id ;;
  match found with
  | None => ret (status_json 404 (Msg "Appointment not found"))
  | Some a =>
      if decide (a_doctor a ≠ id caller) then
        ret (status_json 401 (Msg "Not authorized to update this appointment"))
      else
        let status_text :=
          if truthy (sb_status b) then interpolate (sb_status b)
          else Status_to_string (status a) in
        let a1 :=
          if truthy (sb_date b)
          then Appointment_set_date (interpolate (sb_date b)) a else a in
        let a2 :=
          if truthy (sb_time b)
          then Appointment_set_time (interpolate (sb_time b)) a1 else a1 in
        (* await appointment.save() *)
        match Status_of_string status_text with
        | None => throw ValidationError
        | Some s =>
            let a3 := Appointment_set_status s a2 in
            save appointment_id a3 ;;;
            ret (json (AppointmentBody "Appointment updated successfully"
                         (appointment_id, a3)))
        end
  end.

(** *** middleware/auth.js and the role gates *)

Definition auth (token : option string)
    (next : ReqUser → Store → Store * Response) : Store → Store * Response :=
  λ st,
    if negb (truthy token) then
      (st, status_json 401 (Msg "No token, authorization denied"))
    else
      match jwt_verify (interpolate token) with
      | Some u => next u st
      | None => (st, status_json 401 (Msg "Token is not valid"))
      end.

Definition isAdmin (u : ReqUser) (next : Store → Store * Response)
    : Store → Store * Response :=
  λ st,
    if decide (r_role u = admin) then next st
    else (st, status_json 403 (Msg "Access denied, not an admin")).

Definition isDoctor (u : ReqUser) (next : Store → Store * Response)
    : Store → Store * Response :=
  λ st,
    if decide (r_role u = doctor) then next st
    else (st, status_json 403 (Msg "Access denied, not a doctor")).

Definition isCustomer (u : ReqUser) (next : Store → Store * Response)
    : Store → Store * Response :=
  λ st,
    if decide (r_role u = customer ∨ r_role u = admin) then next st
    else (st, status_json 403 (Msg "Access denied, not a customer")).

(** *** The routes: middleware chain, then the handler under its
    [try]/[catch] *)

Definition POST_register (salt : string) (now : Date) (b : RegisterBody)
    : Store → Store * Response :=
  try_catch (register_handler salt now b).

Definition POST_login (b : LoginBody) : Store → Store * Response :=
  try_catch (login_handler b).

Definition PUT_approve (token : option string) (user_id : ObjectId)
    : Store → Store * Response :=
  auth token (λ u, isAdmin u (try_catch (approve_handler user_id))).

Definition DELETE_user (token : option string) (user_id : ObjectId)
    : Store → Store * Response :=
  auth token (λ u, isAdmin u (try_catch (delete_user_handler u user_id))).

Definition POST_profile (token : option string) (now : Date)
    (b : ProfileBodyReq) : Store → Store * Response :=
  auth token (λ u, isDoctor u (try_catch (profile_handler u now b))).

Definition PUT_status (token : option string) (appointment_id : ObjectId)
    (b : StatusBody) : Store → Store * Response :=
  auth token
    (λ u, isDoctor u (try_catch (status_handler u appointment_id b))).

Definition POST_book (token : option string) (now : Date) (b : BookBody)
    : Store → Store * Response :=
  auth token (λ u, isCustomer u (try_catch (book_handler u now b))).

Definition PUT_cancel (token : option string) (appointment_id : ObjectId)
    : Store → Store * Response :=
  auth token
    (λ u, isCustomer u (try_catch (cancel_handler u appointment_id))).

Definition POST_pay (token : option string) (appointment_id : ObjectId)
    (b : PayBody) : Store → Store * Response :=
  auth token
    (λ u, isCustomer u (try_catch (pay_handler u appointment_id b))).

(** *** Sequences of requests *)

Inductive Request :=
  | Register (salt : string) (now : Date) (b : RegisterBody)
  | Login (b : LoginBody)
  | Approve (token : option string) (user_id : ObjectId)
  | DeleteUser (token : option string) (user_id : ObjectId)
  | UpsertProfile (token : option string) (now : Date) (b : ProfileBodyReq)
  | UpdateStatus (token : option string) (appointment_id : ObjectId)
      (b : StatusBody)
  | Book (token : option string) (now : Date) (b : BookBody)
  | Cancel (token : option string) (appointment_id : ObjectId)
  | Pay (token : option string) (appointment_id : ObjectId) (b : PayBody).

Definition serve (r : Request) : Store → Store * Response :=
  match r with
  | Register salt now b => POST_register salt now b
  | Login b => POST_login b
  | Approve token user_id => PUT_approve token user_id
  | DeleteUser token user_id => DELETE_user token user_id
  | UpsertProfile token now b => POST_profile token now b
  | UpdateStatus token i b => PUT_status token i b
  | Book token now b => POST_book token now b
  | Cancel token i => PUT_cancel token i
  | Pay token i b => POST_pay token i b
  end.

(** The database after a sequence of requests, served one after another. *)
Fixpoint run (rs : list Request) (st : Store) : Store :=
  match rs with
  | [] => st
  | r :: rs' => run rs' (serve r st).1
  end.

End Backend.

(** ** Well-formed databases and authenticated callers *)

(** The ObjectId generator has not yet reached an id that is stored or
    referred to: ObjectIds are never reused. *)
Definition oids_below (st : Store) : Prop :=
  map_Forall (λ i _, i < next_oid st) (users st)
  ∧ map_Forall (λ i p, i < next_oid st ∧ user p < next_oid st) (profiles st)
  ∧ map_Forall (λ i _, i < next_oid st) (appointments st).

(** The [unique] index on [DoctorProfileSchema.user]. *)
Definition profile_user_unique (st : Store) : Prop :=
  ∀ i j p q,
    profiles st !! i = Some p → profiles st !! j = Some q →
    user p = user q → i = j.

(** The request carries a token that [jwt.verify] decodes to [u]. *)
Definition bearer `{Collaborators} (token : option string) (u : ReqUser)
    : Prop :=
  truthy token = true ∧ jwt_verify (interpolate token) = Some u.

(** No stored appointment has [paymentStatus: 'failed']. *)
Definition never_failed (st : Store) : Prop :=
  map_Forall (λ _ a, paymentStatus a ≠ failed) (appointments st).

(** A computation keeps an invariant of the database, also when it ends
    in an exception. *)
Definition preserves (I : Store → Prop) {A} (m : M A) : Prop :=
  ∀ st, I st → I (m st).1.

(** ** A concrete database and concrete collaborators, to run the model *)

Module Sample.

Definition root_user : ReqUser := mkReqUser 0 admin "root" true.
Definition who_user : ReqUser := mkReqUser 1 doctor "who" false.
Definition amy_user : ReqUser := mkReqUser 2 customer "amy" true.
Definition strange_user : ReqUser := mkReqUser 3 doctor "strange" true.

Definition collaborators : Collaborators := {|
  bcrypt_hash p salt := salt ++ "$" ++ p;
  bcrypt_compare p h := endsWith h ("$" ++ p);
  jwt_sign u := r_username u ++ ".jwt";
  jwt_verify t :=
    if String.eqb t "root.jwt" then Some root_user
    else if String.eqb t "who.jwt" then Some who_user
    else if String.eqb t "amy.jwt" then Some amy_user
    else if String.eqb t "strange.jwt" then Some strange_user
    else None
|}.

Definition root : User :=
  mkUser "root" "root@docspot.org" "s0$toor" admin true 1.
Definition who : User :=
  mkUser "who" "who@chetan.doctor" "s1$tardis" doctor false 2.
Definition amy : User :=
  mkUser "amy" "amy@example.com" "s2$pond" customer true 3.
Definition strange : User :=
  mkUser "strange" "strange@chetan.doctor" "s3$agamotto" doctor true 4.

Definition who_profile : DoctorProfile :=
  mkDoctorProfile 1 "Not specified" None None None false 2.
Definition strange_profile : DoctorProfile :=
  mkDoctorProfile 3 "Surgery" (Some "Sanctum") None None true 4.

Definition visit : Appointment :=
  mkAppointment 2 3 "2025-06-24" "10:00" [] (Some "headache") false
    pending pay_pending 5.
Definition paid_visit : Appointment :=
  mkAppointment 2 3 "2025-06-25" "11:00" [] None false
    scheduled paid 6.
Definition done_visit : Appointment :=
  mkAppointment 2 3 "2025-06-01" "09:00" [] None true
    completed paid 7.

Definition db : Store := {|
  users := <[0 := root]> (<[1 := who]> (<[2 := amy]> (<[3 := strange]> ∅)));
  profiles := <[4 := who_profile]> (<[5 := strange_profile]> ∅);
  appointments :=
    <[6 := visit]> (<[7 := paid_visit]> (<[8 := done_visit]> ∅));
  next_oid := 9
|}.

(** Requests. *)
Definition bob_body : RegisterBody :=
  mkRegisterBody (Some "bob") (Some "bob@chetan.doctor") (Some "pw").
Definition amy_body : RegisterBody :=
  mkRegisterBody (Some "amy") (Some "amy@example.com") (Some "pond").
Definition nobody_login : LoginBody :=
  mkLoginBody (Some "nobody@example.com") (Some "pond").
Definition wrong_login : LoginBody :=
  mkLoginBody (Some "amy@example.com") (Some "river").
Definition booking : BookBody :=
  mkBookBody 3 (Some "2025-07-01") (Some "14:30") None (Some "checkup") None.
Definition booking_without_date : BookBody :=
  mkBookBody 3 None (Some "14:30") None (Some "checkup") None.
Definition upi : PayBody := mkPayBody (Some "upi").
Definition reschedule : StatusBody :=
  mkStatusBody None (Some "2025-06-30") (Some "16:00").

(** An end-to-end scenario: a doctor registers, the admin
    approves, a customer registers, books and pays. *)
Definition who_body : RegisterBody :=
  mkRegisterBody (Some "who") (Some "d@chetan.doctor") (Some "tardis").
Definition first_booking : BookBody :=
  mkBookBody 0 (Some "2025-06-24") (Some "10:00") None None None.
Definition scenario : list Request :=
  [Register "s0" 1 who_body; Approve (Some "root.jwt") 0;
   (Register "s2" 2 amy_body); Book (Some "amy.jwt") 3 first_booking;
   Pay (Some "amy.jwt") 3 upi].

End Sample.

(** ** The read routes *)

(** What [populate] puts in place of a reference: the [_id] and the
    selected paths of the user ([isApproved] only where it is selected),
    or [null] when no user has that id. *)
Record PopulatedUser := mkPopulatedUser {
  pu_id : ObjectId;
  pu_username : string;
  pu_email : string;
  pu_isApproved : option bool
}.

Definition populate (with_isApproved : bool) (st : Store) (uid : ObjectId)
    : option PopulatedUser :=
  match users st !! uid with
  | Some u =>
      Some (mkPopulatedUser uid (username u) (email u)
              (if with_isApproved then Some (u_isApproved u) else None))
  | None => None
  end.

(** A user without the password path: [select('-password')]. *)
Record PublicUser := mkPublicUser {
  pub_id : ObjectId;
  pub_username : string;
  pub_email : string;
  pub_role : Role;
  pub_isApproved : bool;
  pub_date : Date
}.

Definition without_password (kv : ObjectId * User) : PublicUser :=
  mkPublicUser kv.1 (username kv.2) (email kv.2) (role kv.2)
    (u_isApproved kv.2) (u_date kv.2).

(** The JSON bodies of the read routes. *)
Inductive ReadBody :=
  | UserBody (user : option PublicUser)
  | UsersBody (users : list PublicUser)
  | DoctorsBody
      (doctors : list (ObjectId * DoctorProfile * option PopulatedUser))
  | OneProfileBody
      (profile : ObjectId * DoctorProfile * option PopulatedUser)
  | AppointmentsBody
      (appointments : list (ObjectId * Appointment * option PopulatedUser)).

(** A read route answers [200] with one of the bodies above, or with a
    reply of the kind the write routes send. *)
Inductive Reply :=
  | Sent (r : Response)
  | Found (b : ReadBody).

(** [Model.find(filter)]: every document that satisfies the filter, in
    the order of insertion. *)
Definition find_all {A} (P : ObjectId * A → bool) (c : gmap ObjectId A)
    : list (ObjectId * A) :=
  List.filter P (in_order c).

(** The order of [sort({ date: 1, time: 1 })]: strings compare character
    by character, the date first and the time between equal dates. *)
Definition by_date_time (x y : ObjectId * Appointment) : Prop :=
  String.ltb (date x.2) (date y.2) = true
  ∨ (date x.2 = date y.2 ∧ String.leb (time x.2) (time y.2) = true).

(** The order of [sort({ createdAt: -1 })]: the most recent first. *)
Definition by_recent (x y : ObjectId * Appointment) : Prop :=
  (createdAt y.2 ≤ createdAt x.2)%nat.

Global Instance by_date_time_dec x y : Decision (by_date_time x y).
Proof. unfold by_date_time. apply _. Defined.

Global Instance by_recent_dec x y : Decision (by_recent x y).
Proof. unfold by_recent. apply _. Defined.

Section ReadRoutes.
Context `{Collaborators}.

(** The middleware of middleware/auth.js and the three role gates, in
    front of a handler that answers with a [Reply]. *)
Definition auth_read (token : option string)
    (next : ReqUser → Store → Store * Reply) : Store → Store * Reply :=
  λ st,
    if negb (truthy token) then
      (st, Sent (status_json 401 (Msg "No token, authorization denied")))
    else
      match jwt_verify (interpolate token) with
      | Some u => next u st
      | None => (st, Sent (status_json 401 (Msg "Token is not valid")))
      end.

Definition isAdmin_read (u : ReqUser) (next : Store → Store * Reply)
    : Store → Store * Reply :=
  λ st,
    if decide (r_role u = admin) then next st
    else (st, Sent (status_json 403 (Msg "Access denied, not an admin"))).

Definition isDoctor_read (u : ReqUser) (next : Store → Store * Reply)
    : Store → Store * Reply :=
  λ st,
    if decide (r_role u = doctor) then next st
    else (st, Sent (status_json 403 (Msg "Access denied, not a doctor"))).

Definition isCustomer_read (u : ReqUser) (next : Store → Store * Reply)
    : Store → Store * Reply :=
  λ st,
    if decide (r_role u = customer ∨ r_role u = admin) then next st
    else (st, Sent (status_json 403 (Msg "Access denied, not a customer"))).

(** [try]/[catch] around a read handler. *)
Definition try_catch_read (m : M Reply) : Store → Store * Reply :=
  λ st, match m st with
        | (st', Value r) => (st', r)
        | (st', Thrown _) => (st', Sent server_error)
        end.

(** [GET api/auth/user]: the caller's own record, or [null] when the
    token's user is not stored. *)
Definition user_handler (caller : ReqUser) : M Reply :=
  found <- findById (A := User) (id caller) ;;
  ret (Found (UserBody
                (without_password <$> (pair (id caller) <$> found)))).

(** [GET api/admin/users]. *)
Definition users_handler : M Reply :=
  all <- gets (λ st, find_all (λ _, true) (users st)) ;;
  ret (Found (UsersBody (without_password <$> all))).

(** [GET api/customer/doctors]. *)
Definition doctors_handler : M Reply :=
  approved <- gets (λ st, find_all (λ kv, p_isApproved kv.2) (profiles st)) ;;
  populated <- gets (λ st,
                 (λ kv, (kv, populate false st (user kv.2))) <$> approved) ;;
  ret (Found (DoctorsBody populated)).

(** [GET api/customer/appointments/me]. *)
Definition my_appointments_handler (caller : ReqUser) : M Reply :=
  mine <- gets (λ st,
            find_all (λ kv, Nat.eqb (a_customer kv.2) (id caller))
              (appointments st)) ;;
  populated <- gets (λ st,
                 (λ kv, (kv, populate false st (a_doctor kv.2)))
                   <$> merge_sort by_recent mine) ;;
  ret (Found (AppointmentsBody populated)).

(** [GET api/doctor/profile/me]. *)
Definition my_profile_handler (caller : ReqUser) : M Reply :=
  found <- findOne (A := DoctorProfile)
             (λ kv, Nat.eqb (user kv.2) (id caller)) ;;
  match found with
  | None => ret (Sent (status_json 404 (Msg "Doctor profile not found")))
  | Some kv =>
      populated <- gets (λ st, populate true st (user kv.2)) ;;
      ret (Found (OneProfileBody (kv, populated)))
  end.

(** [GET api/doctor/appointments]. *)
Definition doctor_appointments_handler (caller : ReqUser) : M Reply :=
  mine <- gets (λ st,
            find_all (λ kv, Nat.eqb (a_doctor kv.2) (id caller))
              (appointments st)) ;;
  populated <- gets (λ st,
                 (λ kv, (kv, populate false st (a_customer kv.2)))
                   <$> merge_sort by_date_time mine) ;;
  ret (Found (AppointmentsBody populated)).

Definition GET_user (token : option string) : Store → Store * Reply :=
  auth_read token (λ u, try_catch_read (user_handler u)).

Definition GET_users (token : option string) : Store → Store * Reply :=
  auth_read token (λ u, isAdmin_read u (try_catch_read users_handler)).

Definition GET_doctors (token : option string) : Store → Store * Reply :=
  auth_read token (λ u, isCustomer_read u (try_catch_read doctors_handler)).

Definition GET_my_appointments (token : option string)
    : Store → Store * Reply :=
  auth_read token
    (λ u, isCustomer_read u (try_catch_read (my_appointments_handler u))).

Definition GET_my_profile (token : option string) : Store → Store * Reply :=
  auth_read token
    (λ u, isDoctor_read u (try_catch_read (my_profile_handler u))).

Definition GET_doctor_appointments (token : option string)
    : Store → Store * Reply :=
  auth_read token
    (λ u, isDoctor_read u (try_catch_read (doctor_appointments_handler u))).

End ReadRoutes.

(** ** Further vocabulary for the routes *)

(** The token a request to a protected route carries. *)
Definition request_token (r : Request) : option (option string) :=
  match r with
  | Register _ _ _ | Login _ => None
  | Approve token _ | DeleteUser token _ | UpsertProfile token _ _
  | UpdateStatus token _ _ | Book token _ _ | Cancel token _
  | Pay token _ _ => Some token
  end.

(** The [unique] indexes on [UserSchema.username] and [UserSchema.email]. *)
Definition users_unique (st : Store) : Prop :=
  ∀ i j u v,
    users st !! i = Some u → users st !! j = Some v →
    email u = email v ∨ username u = username v → i = j.

(** Every stored document of a model passes the validators of its
    schema. *)
Definition all_valid (A : Type) `{Model A} (st : Store) : Prop :=
  map_Forall (λ _ x, valid x = true) (collection st).

Definition schema_valid (st : Store) : Prop :=
  all_valid User st ∧ all_valid DoctorProfile st ∧ all_valid Appointment st.

(** What stays of a document while it is stored. *)
Definition same_user (u u' : User) : Prop :=
  username u' = username u ∧ email u' = email u
  ∧ password u' = password u ∧ role u' = role u ∧ u_date u' = u_date u
  ∧ (u_isApproved u = true → u_isApproved u' = true).

Definition same_profile (p p' : DoctorProfile) : Prop :=
  user p' = user p ∧ p_date p' = p_date p
  ∧ (p_isApproved p = true → p_isApproved p' = true).

Definition same_appointment (a a' : Appointment) : Prop :=
  a_customer a' = a_customer a ∧ a_doctor a' = a_doctor a
  ∧ documents a' = documents a ∧ notes a' = notes a
  ∧ isEmergency a' = isEmergency a ∧ createdAt a' = createdAt a
  ∧ (paymentStatus a = paid → paymentStatus a' = paid).

(** The documents of a collection, seen from an earlier database [st0]:
    a document stored under an id that [st0] has is related by [R] to the
    one [st0] has there, a document under a new id satisfies [N]; the
    ObjectId generator has not gone back. *)
Definition evolves {A} `{Model A} (R : A → A → Prop) (N : A → Prop)
    (st0 st : Store) : Prop :=
  (next_oid st0 ≤ next_oid st)%nat
  ∧ ∀ i x', collection st !! i = Some x' →
      match collection st0 !! i with
      | Some x => R x x'
      | None => N x'
      end.

(** What the models have in common: a write to a collection is read back
    and leaves the ObjectId generator alone, and the generator does not
    touch the collections. *)
Class LawfulModel (A : Type) `{Model A} : Prop := {
  get_set : ∀ c st, collection (set_collection c st) = c;
  next_set : ∀ (c : gmap ObjectId A) st,
    next_oid (set_collection c st) = next_oid st;
  get_bump : ∀ st, collection (A := A) (bump_oid st) = collection st
}.

Global Instance UserModel_lawful : LawfulModel User.
Proof. by split. Qed.

Global Instance DoctorProfileModel_lawful : LawfulModel DoctorProfile.
Proof. by split. Qed.

Global Instance AppointmentModel_lawful : LawfulModel Appointment.
Proof. by split. Qed.

Definition same_approval (p p' : DoctorProfile) : Prop :=
  p_isApproved p' = p_isApproved p.

(** ** More requests for the sample database *)

Module Scenes.

Definition cardiology : ProfileBodyReq :=
  mkProfileBodyReq (Some "Cardiology") (Some "Gallifrey Clinic") None
    (Some "555-0100").

Definition bobby_body : RegisterBody :=
  mkRegisterBody (Some "bobby") (Some "bob@chetan.doctor") (Some "x").

(** A customer pays, the doctor reschedules, the admin approves a doctor
    and the customer cancels another appointment. *)
Definition day : list Request :=
  [Pay (Some "amy.jwt") 6 Sample.upi;
   UpdateStatus (Some "strange.jwt") 6 Sample.reschedule;
   Approve (Some "root.jwt") 1;
   Cancel (Some "amy.jwt") 7].

Definition visit_after : Appointment :=
  mkAppointment 2 3 "2025-06-30" "16:00" [] (Some "headache") false
    scheduled paid 5.

Definition who_after : User :=
  mkUser "who" "who@chetan.doctor" "s1$tardis" doctor true 2.

Definition who_profile_after : DoctorProfile :=
  mkDoctorProfile 1 "Not specified" None None None true 2.

(** The sample database after the admin has deleted the customer amy. *)
Definition without_amy : Store :=
  (@DELETE_user Sample.collaborators (Some "root.jwt") 2 Sample.db).1.

(** The sample database with two documents that were not written through
    the routes: the profile of who has lost its specialty, and there is
    an appointment without a date. *)
Definition blank_profile : DoctorProfile :=
  mkDoctorProfile 1 "" None None None false 2.

Definition undated_visit : Appointment :=
  mkAppointment 2 3 "" "10:00" [] None false pending pay_pending 8.

Definition imported : Store :=
  mkStore (users Sample.db) (<[4 := blank_profile]> (profiles Sample.db))
    (<[9 := undated_visit]> (appointments Sample.db)) 10.

(** A doctor registers, the admin deletes the account, and the same
    person registers again. *)
Definition bob_comes_back : list Request :=
  [(Register "s9" 10 Sample.bob_body); DeleteUser (Some "root.jwt") 9;
   (Register "s10" 12 Sample.bob_body)].

End Scenes.

(** * Properties *)

(** ** Strings *)

Lemma substring_all (s : string) : substring 0 (String.length s) s = s.
Proof. induction s as [|c s IH]; simpl; [done | by rewrite IH]. Qed.

Lemma substring_skip (p t : string) :
  substring (String.length p) (String.length t) (p ++ t) = t.
Proof. induction p as [|c p IH]; simpl; [apply substring_all | exact IH]. Qed.

Lemma substring_split (s : string) (k : nat) :
  (k ≤ String.length s)%nat →
  s = substring 0 k s ++ substring k (String.length s - k) s.
Proof.
  revert k. induction s as [|c s IH]; intros k Hk; simpl in *.
  - destruct k; [done | lia].
  - destruct k as [|k]; simpl.
    + by rewrite substring_all.
    + change (String c s = String c (substring 0 k s
                ++ substring k (String.length s - k) s)).
      f_equal. apply IH. lia.
Qed.

Lemma string_length_app (p t : string) :
  String.length (p ++ t) = String.length p + String.length t.
Proof. induction p as [|c p IH]; simpl; [done | by rewrite IH]. Qed.

(** [endsWith] holds exactly of the strings that are some prefix followed
    by the suffix. *)
Lemma endsWith_spec (s suffix : string) :
  endsWith s suffix = true ↔ ∃ p, s = p ++ suffix.
Proof.
  unfold endsWith. split.
  - remember (String.length suffix) as m eqn:Hm.
    remember (String.length s) as n eqn:Hn.
    destruct (Nat.leb_spec m n) as [Hle|Hlt]; [|done].
    intros Heq%String.eqb_eq.
    exists (substring 0 (n - m) s).
    rewrite <- Heq. subst n.
    pose proof (substring_split s (String.length s - m)) as Hsplit.
    replace (String.length s - (String.length s - m)) with m in Hsplit
      by lia.
    apply Hsplit. lia.
  - intros [p ->]. rewrite string_length_app.
    destruct (Nat.leb_spec (String.length suffix)
                (String.length p + String.length suffix)) as [_|Hlt]; [|lia].
    replace (String.length p + String.length suffix - String.length suffix)
      with (String.length p) by lia.
    rewrite substring_skip. apply String.eqb_refl.
Qed.

Lemma Status_of_to_string (s : Status) :
  Status_of_string (Status_to_string s) = Some s.
Proof. by destruct s. Qed.

Lemma nonempty_true (s : string) : nonempty s = true ↔ s ≠ "".
Proof.
  unfold nonempty. rewrite negb_true_iff. apply String.eqb_neq.
Qed.

Lemma truthy_Some (o : option string) :
  truthy o = true ↔ ∃ s, o = Some s ∧ s ≠ "".
Proof.
  destruct o as [s|]; simpl.
  - destruct (String.eqb_spec s ""); simpl; split; try done.
    + intros [s' [[= <-] Hne]]. done.
    + eauto.
  - split; [done | intros [s [? _]]; done].
Qed.

(** ** Queries on a collection *)

Global Instance by_id_total {A} : Total (by_id (A := A)).
Proof. intros x y. unfold by_id. lia. Qed.

(** [in_order] lists the documents of the collection, each once, by
    ascending id. *)
Lemma elem_of_in_order {A} (c : gmap ObjectId A) i x :
  (i, x) ∈ in_order c ↔ c !! i = Some x.
Proof.
  unfold in_order. rewrite merge_sort_Permutation.
  apply elem_of_map_to_list.
Qed.

Lemma NoDup_fst_in_order {A} (c : gmap ObjectId A) : NoDup (in_order c).*1.
Proof.
  unfold in_order. rewrite merge_sort_Permutation.
  apply NoDup_fst_map_to_list.
Qed.

Lemma Sorted_in_order {A} (c : gmap ObjectId A) : Sorted by_id (in_order c).
Proof. unfold in_order. apply Sorted_merge_sort. apply _. Qed.

Section find_first.
Context {A : Type} (P : ObjectId * A → bool) (c : gmap ObjectId A).

Lemma find_first_Some i x :
  find_first P c = Some (i, x) → c !! i = Some x ∧ P (i, x) = true.
Proof.
  unfold find_first. intros [Hin HP]%find_some. split; [|done].
  by apply elem_of_in_order, list_elem_of_In.
Qed.

Lemma find_first_None :
  find_first P c = None ↔ ∀ i x, c !! i = Some x → P (i, x) = false.
Proof.
  unfold find_first. split.
  - intros Hnone i x Hix.
    apply (find_none _ _ Hnone (i, x)).
    by apply list_elem_of_In, elem_of_in_order.
  - intros Hall. destruct (find P (in_order c)) as [[i x]|] eqn:Hf; [|done].
    apply find_some in Hf as [Hin HP].
    apply list_elem_of_In, elem_of_in_order in Hin.
    rewrite (Hall _ _ Hin) in HP. done.
Qed.

Lemma find_first_is_Some i x :
  c !! i = Some x → P (i, x) = true → is_Some (find_first P c).
Proof.
  intros Hix HP. destruct (find_first P c) eqn:Hf; [by eexists|].
  rewrite find_first_None in Hf. rewrite (Hf _ _ Hix) in HP. done.
Qed.

End find_first.

(** A save writes the document when it passes the validators, and throws
    without writing when it does not. *)
Lemma save_cases {A} `{Model A} (i : ObjectId) (d : A) (st : Store) :
  (valid d = true
   ∧ save i d st
     = (set_collection (<[i := d]> (collection st)) st, Value tt))
  ∨ (valid d = false ∧ save i d st = (st, Thrown ValidationError)).
Proof. unfold save. destruct (valid d); [by left | by right]. Qed.

(** Under the unique index, the query by [user] returns the profile of
    that user. *)
Lemma find_profile_of_user (st : Store) (i : ObjectId) (p : DoctorProfile) :
  profile_user_unique st → profiles st !! i = Some p →
  find_first (λ kv, Nat.eqb (user kv.2) (user p)) (profiles st) = Some (i, p).
Proof.
  intros Huniq Hp.
  destruct (find_first_is_Some (λ kv, Nat.eqb (user kv.2) (user p))
              (profiles st) i p Hp (Nat.eqb_refl _)) as [[j q] Hf].
  rewrite Hf. apply find_first_Some in Hf as [Hq Heq]. simpl in Heq.
  apply Nat.eqb_eq in Heq.
  assert (j = i) as -> by (eapply Huniq; eauto).
  congruence.
Qed.

Lemma find_no_profile_of_user (st : Store) (uid : ObjectId) :
  find_first (λ kv, Nat.eqb (user kv.2) uid) (profiles st) = None
  ↔ ∀ i p, profiles st !! i = Some p → user p ≠ uid.
Proof.
  rewrite find_first_None. simpl.
  split; intros Hall i p Hp; specialize (Hall i p Hp).
  - by apply Nat.eqb_neq.
  - by apply Nat.eqb_neq.
Qed.

(** ** The middleware chain *)

Section middleware.
Context `{Collaborators}.

Lemma auth_bearer token u next st :
  bearer token u → auth token next st = next u st.
Proof. intros [Ht Hv]. unfold auth. by rewrite Ht, Hv. Qed.

Lemma isAdmin_pass u next st :
  r_role u = admin → isAdmin u next st = next st.
Proof. intros Hr. unfold isAdmin. by rewrite decide_True. Qed.

Lemma isDoctor_pass u next st :
  r_role u = doctor → isDoctor u next st = next st.
Proof. intros Hr. unfold isDoctor. by rewrite decide_True. Qed.

Lemma isCustomer_pass u next st :
  r_role u = customer ∨ r_role u = admin → isCustomer u next st = next st.
Proof. intros Hr. unfold isCustomer. by rewrite decide_True. Qed.

End middleware.

(** ** Customer routes *)

Section customer_routes.
Context `{Collaborators}.

(** C2: a pay operation by the owning customer on an existing appointment
    is refused with BadRequest, leaving the database as it is, when the
    status is neither pending nor scheduled or the payment status is
    already paid; otherwise, on an appointment that passes the validators
    of its schema (as every appointment does that the routes have stored,
    [run_schema_valid]), it succeeds, stores paymentStatus paid and turns
    a pending status into scheduled (a scheduled one stays).  On a stored
    appointment whose date or time is empty the save throws: the reply is
    a server error and nothing is written. *)
Theorem pay_transition (st : Store) token caller i a b :
  bearer token caller → r_role caller = customer ∨ r_role caller = admin →
  appointments st !! i = Some a → a_customer a = id caller →
  let (st', r) := POST_pay token i b st in
  ((status a ≠ pending ∧ status a ≠ scheduled) ∨ paymentStatus a = paid →
     code r = BadRequest ∧ st' = st)
  ∧ (status a = pending ∨ status a = scheduled → paymentStatus a ≠ paid →
     valid a = true →
     code r = OK
     ∧ st' = mkStore (users st) (profiles st)
               (<[i := mkAppointment (a_customer a) (a_doctor a) (date a)
                         (time a) (documents a) (notes a) (isEmergency a)
                         (match status a with
                          | pending => scheduled
                          | s => s
                          end)
                         paid (createdAt a)]> (appointments st))
               (next_oid st))
  ∧ (status a = pending ∨ status a = scheduled → paymentStatus a ≠ paid →
     valid a = false →
     code r = InternalServerError ∧ st' = st).
Proof.
  intros Hb Hr Ha Hown. unfold POST_pay.
  rewrite (auth_bearer _ _ _ _ Hb), isCustomer_pass by done.
  unfold try_catch, pay_handler, bind, findById, gets, save. simpl.
  rewrite Ha.
  rewrite decide_False by (intros Hne; by apply Hne).
  destruct a as [c d dt tm docs nt em s ps cr]; simpl in *.
  destruct s, ps; simpl; repeat (case_decide; simpl);
    destruct (nonempty dt), (nonempty tm); simpl;
    split_and!; intros; try done; try (exfalso; intuition congruence).
Qed.

(** A cancel on a completed or cancelled appointment is refused and
    writes nothing. *)
Lemma cancel_refused (st : Store) token caller i a :
  bearer token caller → r_role caller = customer ∨ r_role caller = admin →
  appointments st !! i = Some a → a_customer a = id caller →
  status a = completed ∨ status a = cancelled →
  ∃ msg, PUT_cancel token i st = (st, status_json BadRequest (Msg msg)).
Proof.
  intros Hb Hr Ha Hown Hs. unfold PUT_cancel.
  rewrite (auth_bearer _ _ _ _ Hb), isCustomer_pass by done.
  unfold try_catch, cancel_handler, bind, findById, gets. simpl. rewrite Ha.
  rewrite decide_False by (intros Hne; by apply Hne).
  destruct Hs as [-> | ->]; simpl; eauto.
Qed.

(** A cancel on a pending or scheduled appointment that passes the
    validators stores the status cancelled and touches nothing else. *)
Lemma cancel_accepted (st : Store) token caller i a :
  bearer token caller → r_role caller = customer ∨ r_role caller = admin →
  appointments st !! i = Some a → a_customer a = id caller →
  status a = pending ∨ status a = scheduled → valid a = true →
  ∃ msg,
    PUT_cancel token i st
    = (mkStore (users st) (profiles st)
         (<[i := Appointment_set_status cancelled a]> (appointments st))
         (next_oid st),
       json (AppointmentBody msg (i, Appointment_set_status cancelled a))).
Proof.
  intros Hb Hr Ha Hown Hs Hv. unfold PUT_cancel.
  rewrite (auth_bearer _ _ _ _ Hb), isCustomer_pass by done.
  unfold try_catch, cancel_handler, bind, findById, gets, save. simpl.
  rewrite Ha.
  rewrite decide_False by (intros Hne; by apply Hne).
  simpl in Hv. destruct Hs as [-> | ->]; simpl; rewrite Hv; simpl; eauto.
Qed.

(** On a stored appointment whose date or time is empty the save of the
    cancellation throws, and nothing is written. *)
Lemma cancel_invalid (st : Store) token caller i a :
  bearer token caller → r_role caller = customer ∨ r_role caller = admin →
  appointments st !! i = Some a → a_customer a = id caller →
  status a = pending ∨ status a = scheduled → valid a = false →
  PUT_cancel token i st = (st, server_error).
Proof.
  intros Hb Hr Ha Hown Hs Hv. unfold PUT_cancel.
  rewrite (auth_bearer _ _ _ _ Hb), isCustomer_pass by done.
  unfold try_catch, cancel_handler, bind, findById, gets, save. simpl.
  rewrite Ha.
  rewrite decide_False by (intros Hne; by apply Hne).
  simpl in Hv. destruct Hs as [-> | ->]; simpl; by rewrite Hv.
Qed.

(** C5: a cancel by the owning customer is refused with BadRequest,
    leaving the database as it is, when the appointment is completed or
    already cancelled; on a pending or scheduled appointment that passes
    the validators of its schema (as every appointment does that the
    routes have stored, [run_schema_valid]) it stores the status cancelled
    whatever the payment status; cancelling the same appointment once
    more is then refused with BadRequest, as it is after a refused
    cancel.  On a pending or scheduled appointment whose stored date or
    time is empty the save throws: the reply is a server error and
    nothing is written. *)
Theorem cancel_transition (st : Store) token caller i a :
  bearer token caller → r_role caller = customer ∨ r_role caller = admin →
  appointments st !! i = Some a → a_customer a = id caller →
  let (st', r) := PUT_cancel token i st in
  (status a = completed ∨ status a = cancelled →
     code r = BadRequest ∧ st' = st)
  ∧ (status a = pending ∨ status a = scheduled → valid a = true →
     code r = OK
     ∧ st' = mkStore (users st) (profiles st)
               (<[i := mkAppointment (a_customer a) (a_doctor a) (date a)
                         (time a) (documents a) (notes a) (isEmergency a)
                         cancelled (paymentStatus a) (createdAt a)]>
                  (appointments st))
               (next_oid st))
  ∧ (status a = pending ∨ status a = scheduled → valid a = false →
     code r = InternalServerError ∧ st' = st)
  ∧ (valid a = true ∨ status a = completed ∨ status a = cancelled →
     let (st'', r') := PUT_cancel token i st' in
     code r' = BadRequest ∧ st'' = st').
Proof.
  intros Hb Hr Ha Hown.
  assert (status a = completed ∨ status a = cancelled
          ∨ status a = pending ∨ status a = scheduled) as [Hs|[Hs|Hs]]
    by (destruct (status a); auto).
  1,2: destruct (cancel_refused st token caller i a) as [msg Hc]; auto;
    rewrite Hc; split_and!;
    [done | intros [?|?]; congruence | intros [?|?]; congruence
    | intros _; by rewrite Hc].
  destruct (valid a) eqn:Hv.
  - destruct (cancel_accepted st token caller i a) as [msg ->]; auto.
    split_and!; [intros [?|?]; destruct Hs; congruence | done | done |].
    intros _.
    match goal with
    | |- context [PUT_cancel _ _ ?st1] =>
        destruct (cancel_refused st1 token caller i
                    (Appointment_set_status cancelled a)) as [msg' ->];
          auto
    end.
    simpl. apply lookup_insert_eq.
  - rewrite (cancel_invalid st token caller i a) by auto.
    split_and!; [intros [?|?]; destruct Hs; congruence | done | done |].
    intros [?|[?|?]]; destruct Hs; congruence.
Qed.

(** C4, as the code has it: a booking is refused with BadRequest, and
    nothing is stored, when the target doctor has no profile or an
    unapproved one; when the doctor's profile is approved and the request
    carries a date and a time, an appointment is stored with status
    pending and paymentStatus pending, the caller as customer and the
    target as doctor; when the date or the time is missing, the schema's
    required validators reject the document, the reply is a server error
    and nothing is stored. *)
Theorem book_creates_pending (st : Store) token caller now b :
  bearer token caller → r_role caller = customer ∨ r_role caller = admin →
  oids_below st → profile_user_unique st →
  let (st', r) := POST_book token now b st in
  ((∀ j p, profiles st !! j = Some p → user p = bb_doctorId b →
           p_isApproved p = false) →
     code r = BadRequest ∧ st' = st)
  ∧ (∀ j p, profiles st !! j = Some p → user p = bb_doctorId b →
            p_isApproved p = true →
       (∀ dt tm, bb_date b = Some dt → dt ≠ "" →
                 bb_time b = Some tm → tm ≠ "" →
          code r = Created
          ∧ appointments st !! next_oid st = None
          ∧ st' = mkStore (users st) (profiles st)
                    (<[next_oid st :=
                         mkAppointment (id caller) (bb_doctorId b) dt tm
                           (default [] (bb_documents b)) (bb_notes b)
                           (default false (bb_isEmergency b))
                           pending pay_pending now]> (appointments st))
                    (S (next_oid st)))
       ∧ (truthy (bb_date b) = false ∨ truthy (bb_time b) = false →
          code r = InternalServerError ∧ st' = st)).
Proof.
  intros Hb Hr (_ & _ & Hbelow) Huniq. unfold POST_book.
  rewrite (auth_bearer _ _ _ _ Hb), isCustomer_pass by done.
  unfold try_catch, book_handler, bind, findOne, gets. simpl.
  destruct (find_first _ (profiles st)) as [[j p]|] eqn:Hfind.
  - apply find_first_Some in Hfind as Hjp. destruct Hjp as [Hj Hu].
    simpl in Hu. apply Nat.eqb_eq in Hu.
    destruct (p_isApproved p) eqn:Happ; simpl.
    + assert (appointments st !! next_oid st = None) as Hfresh.
      { destruct (appointments st !! next_oid st) eqn:Hl; [|done].
        apply Hbelow in Hl. lia. }
      assert (find_first (λ _ : ObjectId * Appointment, false)
                (appointments st) = None) as Hnoclash
        by by apply find_first_None.
      unfold insert_new, required.
      destruct (bb_date b) as [dt|] eqn:Hd;
        [destruct (String.eqb_spec dt "") as [->|Hdt]|];
        (destruct (bb_time b) as [tm|] eqn:Ht;
         [destruct (String.eqb_spec tm "") as [->|Htm]|]);
        simpl; rewrite ?Hfresh, ?Hnoclash; simpl.
      all: split; [intros Hall; specialize (Hall j p Hj Hu); congruence|].
      all: intros j' p' Hj' Hu' Happ'; split;
        [intros dt' tm' [= <-] Hdt' [= <-] Htm'; try done
        |intros [Hf|Hf]; try done;
         apply negb_false_iff, String.eqb_eq in Hf; done].
    + split; [done|].
      intros j' p' Hj' Hu' Happ'.
      assert (j' = j) as -> by (eapply Huniq; eauto; congruence).
      congruence.
  - split; [done|].
    intros j' p' Hj' Hu' Happ'.
    rewrite find_no_profile_of_user in Hfind. by destruct (Hfind j' p' Hj').
Qed.

End customer_routes.

(** ** Doctor routes *)

Section doctor_routes.
Context `{Collaborators}.

(** C8: a status update by a doctor who is not the doctor of the
    appointment is refused with Unauthorized and writes nothing, so every
    field of the appointment is as before. *)
Theorem status_update_by_other_doctor (st : Store) token caller i a b :
  bearer token caller → r_role caller = doctor →
  appointments st !! i = Some a → id caller ≠ a_doctor a →
  let (st', r) := PUT_status token i b st in
  code r = Unauthorized ∧ st' = st ∧ appointments st' !! i = Some a.
Proof.
  intros Hb Hr Ha Hne. unfold PUT_status.
  rewrite (auth_bearer _ _ _ _ Hb), isDoctor_pass by done.
  unfold try_catch, status_handler, bind, findById, gets. simpl. rewrite Ha.
  rewrite decide_True by congruence. done.
Qed.

(** C10: a status update by the doctor of the appointment overwrites each
    of status, date and time only when the request carries a truthy value
    for it, and then with that value; the other fields of the appointment,
    the other appointments and the other collections are as before.  A
    status outside the schema's enum makes the save fail, and then nothing
    is written at all. *)
Theorem status_update_frame (st : Store) token caller i a b :
  bearer token caller → r_role caller = doctor →
  appointments st !! i = Some a → id caller = a_doctor a →
  let (st', r) := PUT_status token i b st in
  ∃ a',
    appointments st' !! i = Some a'
    ∧ st' = mkStore (users st) (profiles st)
              (<[i := a']> (appointments st)) (next_oid st)
    ∧ (truthy (sb_status b) = false → status a' = status a)
    ∧ (truthy (sb_date b) = false → date a' = date a)
    ∧ (truthy (sb_time b) = false → time a' = time a)
    ∧ (code r = OK →
         (∀ s, sb_status b = Some s → s ≠ "" →
               Status_of_string s = Some (status a'))
         ∧ (∀ d, sb_date b = Some d → d ≠ "" → date a' = d)
         ∧ (∀ t, sb_time b = Some t → t ≠ "" → time a' = t))
    ∧ (code r ≠ OK → a' = a)
    ∧ a_customer a' = a_customer a ∧ a_doctor a' = a_doctor a
    ∧ documents a' = documents a ∧ notes a' = notes a
    ∧ isEmergency a' = isEmergency a
    ∧ paymentStatus a' = paymentStatus a ∧ createdAt a' = createdAt a.
Proof.
  intros Hb Hr Ha Hown. unfold PUT_status.
  rewrite (auth_bearer _ _ _ _ Hb), isDoctor_pass by done.
  unfold try_catch, status_handler, bind, findById, gets, save. simpl.
  rewrite Ha.
  rewrite decide_False by (intros Hne; by apply Hne).
  destruct (truthy (sb_status b)) eqn:Hts;
    [destruct (Status_of_string (interpolate (sb_status b))) as [s'|] eqn:Hsos
    |rewrite Status_of_to_string];
    destruct (truthy (sb_date b)) eqn:Htd;
    destruct (truthy (sb_time b)) eqn:Htt; simpl.
  all: try match goal with
           | |- context [if ?v then _ else _] => destruct v eqn:Hv; simpl
           end.
  all: eexists; split; [first [apply lookup_insert_eq | exact Ha]|].
  all: split; [first [reflexivity | rewrite insert_id by done; by destruct st]|].
  all: split_and!; try done.
  all: intros _; split_and!; intros x Hx Hne;
    pose proof (proj2 (truthy_Some _) (ex_intro _ x (conj Hx Hne)));
    rewrite Hx in *; simpl in *; congruence.
Qed.
End doctor_routes.

(** ** Admin routes *)

Section admin_routes.
Context `{Collaborators}.

(** C3: an approval by an admin sets isApproved on the user record and on
    the profile record when the target exists, is a doctor and has a
    profile, and both documents pass the validators of their schemas (as
    every document does that the routes have stored, [run_schema_valid]);
    when the user is missing, is not a doctor, or has no profile, the
    reply is NotFound and nothing is written.  The two writes are two
    saves: on a stored user with an empty required field the first save
    throws and nothing is written; on a stored profile with an empty
    specialty the second save throws after the user has been written, and
    the reply is a server error. *)
Theorem approve_doctor (st : Store) token caller uid :
  bearer token caller → r_role caller = admin → profile_user_unique st →
  let (st', r) := PUT_approve token uid st in
  (∀ u j p,
     users st !! uid = Some u → role u = doctor →
     profiles st !! j = Some p → user p = uid →
     (valid u = true → valid p = true →
        code r = OK
        ∧ st' = mkStore
                  (<[uid := mkUser (username u) (email u) (password u)
                              (role u) true (u_date u)]> (users st))
                  (<[j := mkDoctorProfile (user p) (specialty p)
                            (clinicName p) (address p) (phone p) true
                            (p_date p)]> (profiles st))
                  (appointments st) (next_oid st))
     ∧ (valid u = false → code r = InternalServerError ∧ st' = st)
     ∧ (valid u = true → valid p = false →
        code r = InternalServerError
        ∧ st' = mkStore
                  (<[uid := mkUser (username u) (email u) (password u)
                              (role u) true (u_date u)]> (users st))
                  (profiles st) (appointments st) (next_oid st)))
  ∧ (users st !! uid = None
     ∨ (∃ u, users st !! uid = Some u ∧ role u ≠ doctor)
     ∨ (∀ j p, profiles st !! j = Some p → user p ≠ uid) →
     code r = NotFound ∧ st' = st).
Proof.
  intros Hb Hr Huniq. unfold PUT_approve.
  rewrite (auth_bearer _ _ _ _ Hb), isAdmin_pass by done.
  unfold try_catch, approve_handler, bind, findById, findOne, gets. simpl.
  destruct (users st !! uid) as [u|] eqn:Hu; simpl.
  - case_decide as Hrole; simpl.
    + split; [intros u' j p [= <-]; congruence | done].
    + destruct (find_first _ (profiles st)) as [[j p]|] eqn:Hfind; simpl.
      * apply find_first_Some in Hfind as [Hj Hp]. simpl in Hp.
        apply Nat.eqb_eq in Hp. unfold save. simpl.
        destruct (valid u) eqn:Hvu; simpl in Hvu; rewrite Hvu; simpl;
          [destruct (valid p) eqn:Hvp; simpl in Hvp; rewrite Hvp; simpl|].
        all: split;
          [|intros [?|[(u' & [= <-] & Hne)|Hnone]]; [done..|];
            by destruct (Hnone j p Hj)].
        all: intros u' j' p' [= <-] _ Hj' Hp';
          assert (j' = j) as -> by (eapply Huniq; eauto; congruence);
          assert (p' = p) as -> by congruence;
          simpl; rewrite ?Hvu, ?Hvp; split_and!; intros; done.
      * split; [|done].
        intros u' j p _ _ Hj Hp.
        rewrite find_no_profile_of_user in Hfind. by destruct (Hfind j p Hj).
  - split; [done | done].
Qed.

(** Under the unique index, deleting the profile found for a user leaves
    exactly the profiles of the other users. *)
Lemma delete_profile_of_user (st : Store) (j : ObjectId) (p : DoctorProfile) :
  profile_user_unique st → profiles st !! j = Some p →
  delete j (profiles st)
  = filter (λ kv, user kv.2 ≠ user p) (profiles st).
Proof.
  intros Huniq Hj. apply map_eq. intros k. apply option_eq. intros q.
  rewrite map_lookup_filter_Some, lookup_delete_Some. simpl. split.
  - intros [Hne Hk]. split; [done|]. intros Heq. apply Hne.
    eapply Huniq; eauto.
  - intros [Hk Hne]. split; [|done]. intros ->. congruence.
Qed.

Lemma filter_eqb_false {A} (f : A → nat) (n : nat) (m : gmap ObjectId A) :
  filter (λ kv, Nat.eqb (f kv.2) n = false) m = filter (λ kv, f kv.2 ≠ n) m.
Proof. apply map_filter_ext. intros k x _. simpl. apply Nat.eqb_neq. Qed.

(** C6: a deletion by an admin of an existing user is refused with
    Forbidden, and removes nothing, when the target is an admin or the
    caller; otherwise the user record is removed, and with a doctor the
    doctor's profile and every appointment with that doctor, with a
    customer every appointment of that customer. *)
Theorem delete_user_cascade (st : Store) token caller uid u :
  bearer token caller → r_role caller = admin → profile_user_unique st →
  users st !! uid = Some u →
  let (st', r) := DELETE_user token uid st in
  (role u = admin ∨ uid = id caller → code r = Forbidden ∧ st' = st)
  ∧ (role u = doctor → uid ≠ id caller →
     code r = OK
     ∧ st' = mkStore (delete uid (users st))
               (filter (λ kv, user kv.2 ≠ uid) (profiles st))
               (filter (λ kv, a_doctor kv.2 ≠ uid) (appointments st))
               (next_oid st))
  ∧ (role u = customer → uid ≠ id caller →
     code r = OK
     ∧ st' = mkStore (delete uid (users st)) (profiles st)
               (filter (λ kv, a_customer kv.2 ≠ uid) (appointments st))
               (next_oid st)).
Proof.
  intros Hb Hr Huniq Hu. unfold DELETE_user.
  rewrite (auth_bearer _ _ _ _ Hb), isAdmin_pass by done.
  unfold try_catch, delete_user_handler, bind, findById, gets. simpl.
  rewrite Hu.
  destruct (role u) eqn:Hrole; simpl; repeat (case_decide; simpl);
    try done; split_and!; try done;
    try (intros [?|?]; done); intros _ _.
  - by rewrite filter_eqb_false.
  - split; [done|].
    destruct (find_first _ (profiles st)) as [[j p]|] eqn:Hfind; simpl.
    + apply find_first_Some in Hfind as [Hj Hp]. simpl in Hp.
      apply Nat.eqb_eq in Hp. subst uid.
      by rewrite filter_eqb_false, (delete_profile_of_user st j p).
    + rewrite find_no_profile_of_user in Hfind.
      rewrite filter_eqb_false. f_equal. symmetry.
      apply map_filter_id. intros j p Hj. by apply (Hfind j p).
Qed.

End admin_routes.

(** ** Authentication routes *)

Lemma insert_new_fresh {A} `{Model A} (d : A) (st : Store) :
  collection st !! next_oid st = None →
  (∀ i x, collection st !! i = Some x → clash d x = false) →
  insert_new d st
  = (bump_oid (set_collection (<[next_oid st := d]> (collection st)) st),
     Value (next_oid st)).
Proof.
  intros Hfresh Hclash. unfold insert_new. rewrite Hfresh.
  assert (find_first (λ kv, clash d kv.2) (collection st) = None) as ->; [|done].
  apply find_first_None. intros i x Hix. simpl. eauto.
Qed.

Section auth_routes.
Context `{Collaborators}.

Lemma register_accepted (st : Store) salt now un em pw :
  oids_below st → (∀ p s, bcrypt_hash p s ≠ "") →
  un ≠ "" → em ≠ "" →
  (∀ i u, users st !! i = Some u → email u ≠ em ∧ username u ≠ un) →
  let uid := next_oid st in
  let is_doctor := endsWith em doctor_marker in
  let role' := if is_doctor then doctor else customer in
  let approved := if is_doctor then false else true in
  POST_register salt now (mkRegisterBody (Some un) (Some em) (Some pw)) st
  = (mkStore
       (<[uid := mkUser un em (bcrypt_hash pw salt) role' approved now]>
          (users st))
       (if is_doctor
        then <[S uid := mkDoctorProfile uid "Not specified" None None None
                          false now]> (profiles st)
        else profiles st)
       (appointments st)
       (if is_doctor then S (S uid) else S uid),
     json (AuthBody (jwt_sign (mkReqUser uid role' un approved))
             "Registration successful!" role' None)).
Proof.
  intros (Husers & Hprofiles & _) Hhash Hun Hem Hfree. simpl.
  unfold POST_register, try_catch, register_handler, bind, findOne, gets.
  simpl.
  assert (find_first
            (λ kv : ObjectId * User,
               String.eqb em (email kv.2) || String.eqb un (username kv.2))
            (users st) = None) as ->.
  { apply find_first_None. intros i u Hu. simpl.
    destruct (Hfree i u Hu) as [He Hn].
    apply orb_false_intro; apply String.eqb_neq; congruence. }
  rewrite (proj2 (String.eqb_neq un "") Hun).
  rewrite (proj2 (String.eqb_neq em "") Hem).
  rewrite (proj2 (String.eqb_neq (bcrypt_hash pw salt) "") (Hhash pw salt)).
  unfold ret at 1 2 3.
  rewrite insert_new_fresh; simpl.
  2: { destruct (users st !! next_oid st) eqn:Hl; [|done].
       apply Husers in Hl. lia. }
  2: { intros i u Hu. destruct (Hfree i u Hu) as [He Hn].
       apply orb_false_intro; apply String.eqb_neq; congruence. }
  destruct (endsWith em doctor_marker); simpl; [|done].
  rewrite insert_new_fresh; simpl; [done| |].
  - destruct (profiles st !! S (next_oid st)) eqn:Hl; [|done].
    apply Hprofiles in Hl. lia.
  - intros i p Hp. apply Hprofiles in Hp. apply Nat.eqb_neq. lia.
Qed.

Lemma register_refused (st : Store) salt now b :
  ¬ (truthy (rb_username b) = true ∧ truthy (rb_email b) = true
     ∧ is_Some (rb_password b)
     ∧ ∀ i u, users st !! i = Some u →
              rb_email b ≠ Some (email u)
              ∧ rb_username b ≠ Some (username u)) →
  ∃ r, POST_register salt now b st = (st, r)
       ∧ (code r = BadRequest ∨ code r = InternalServerError).
Proof.
  intros Hnot.
  unfold POST_register, try_catch, register_handler, bind, findOne, gets.
  simpl.
  destruct (find_first _ (users st)) as [[i u]|] eqn:Hfind; simpl;
    [eexists; split; [done | by left]|].
  destruct b as [[un|] [em|] [pw|]]; simpl in *;
    try (eexists; split; [done | by right]).
  destruct (String.eqb_spec un "") as [->|Hun]; simpl;
    [eexists; split; [done | by right]|].
  destruct (String.eqb_spec em "") as [->|Hem]; simpl;
    [eexists; split; [done | by right]|].
  exfalso. apply Hnot.
  split_and!; [done..|].
  intros i u Hu. rewrite find_first_None in Hfind.
  specialize (Hfind i u Hu). simpl in Hfind.
  apply orb_false_elim in Hfind as [He Hn].
  apply String.eqb_neq in He, Hn. split; congruence.
Qed.

Lemma register_conditions_dec (st : Store) b :
  let ok :=
    truthy (rb_username b) = true ∧ truthy (rb_email b) = true
    ∧ is_Some (rb_password b)
    ∧ ∀ i u, users st !! i = Some u →
             rb_email b ≠ Some (email u)
             ∧ rb_username b ≠ Some (username u) in
  ok ∨ ¬ ok.
Proof.
  simpl.
  destruct (truthy (rb_username b)); [|right; intros (? & _); done].
  destruct (truthy (rb_email b)); [|right; intros (_ & ? & _); done].
  destruct (rb_password b) as [pw|];
    [|right; intros (_ & _ & [? ?] & _); done].
  destruct (find_first
              (λ kv : ObjectId * User,
                 field_is (rb_email b) (email kv.2)
                 || field_is (rb_username b) (username kv.2))
              (users st)) as [[i u]|] eqn:Hfind.
  - right. intros (_ & _ & _ & Hfree).
    apply find_first_Some in Hfind as [Hu Htaken]. simpl in Htaken.
    destruct (Hfree i u Hu) as [He Hn].
    apply orb_true_iff in Htaken as [Ht|Ht].
    + destruct (rb_email b) as [em|]; simpl in Ht; [|done].
      apply String.eqb_eq in Ht. congruence.
    + destruct (rb_username b) as [un|]; simpl in Ht; [|done].
      apply String.eqb_eq in Ht. congruence.
  - left. split_and!; [done | done | by eexists |].
    intros i u Hu. rewrite find_first_None in Hfind.
    specialize (Hfind i u Hu). simpl in Hfind.
    apply orb_false_elim in Hfind as [He Hn]. split.
    + intros Heq. rewrite Heq in He. simpl in He.
      by rewrite String.eqb_refl in He.
    + intros Heq. rewrite Heq in Hn. simpl in Hn.
      by rewrite String.eqb_refl in Hn.
Qed.

(** C1: a registration creates a user exactly when the request carries a
    username, an email and a password and neither the email nor the
    username is taken.  The created user has role doctor if and only if
    the email ends with the marker [@chetan.doctor], and role customer
    otherwise.  With role doctor the user is created unapproved, together
    with exactly one profile for that user, unapproved and with specialty
    [Not specified]; with role customer the user is created approved and
    the profiles are as before. *)
Theorem register_assigns_role (st : Store) salt now b :
  oids_below st → (∀ p s, bcrypt_hash p s ≠ "") →
  let (st', r) := POST_register salt now b st in
  let uid := next_oid st in
  (code r = OK ↔
     truthy (rb_username b) = true ∧ truthy (rb_email b) = true
     ∧ is_Some (rb_password b)
     ∧ ∀ i u, users st !! i = Some u →
              rb_email b ≠ Some (email u)
              ∧ rb_username b ≠ Some (username u))
  ∧ (code r ≠ OK → st' = st)
  ∧ (code r = OK →
     ∃ u,
       users st !! uid = None
       ∧ users st' = <[uid := u]> (users st)
       ∧ rb_username b = Some (username u)
       ∧ rb_email b = Some (email u)
       ∧ (role u = doctor ↔ ∃ prefix, email u = prefix ++ doctor_marker)
       ∧ (role u = customer ↔ ¬ ∃ prefix, email u = prefix ++ doctor_marker)
       ∧ (role u = doctor →
          u_isApproved u = false
          ∧ profiles st !! S uid = None
          ∧ (∀ j p, profiles st !! j = Some p → user p ≠ uid)
          ∧ profiles st'
            = <[S uid := mkDoctorProfile uid "Not specified" None None None
                           false now]> (profiles st))
       ∧ (role u = customer →
          u_isApproved u = true ∧ profiles st' = profiles st)).
Proof.
  intros Hbelow Hhash.
  destruct (register_conditions_dec st b) as [Hok|Hnot].
  - destruct Hok as (Hun & Hem & Hpw & Hfree).
    destruct b as [un em pw]. simpl in *.
    apply truthy_Some in Hun as (un' & -> & Hun).
    apply truthy_Some in Hem as (em' & -> & Hem).
    destruct Hpw as [pw' ->].
    rewrite register_accepted; try done.
    2: { intros i u Hu. destruct (Hfree i u Hu). split; congruence. }
    destruct Hbelow as (Husers & Hprofiles & _).
    split_and!; [split; [intros _|done] | done |].
    { split_and!; [by apply negb_true_iff, String.eqb_neq..|by eexists|done]. }
    intros _. eexists. split_and!; try done; simpl.
    + destruct (users st !! next_oid st) eqn:Hl; [|done].
      apply Husers in Hl. lia.
    + rewrite <- endsWith_spec. by destruct (endsWith em' doctor_marker).
    + rewrite <- endsWith_spec. by destruct (endsWith em' doctor_marker).
    + destruct (endsWith em' doctor_marker); [|done]. intros _.
      split_and!; try done.
      * destruct (profiles st !! S (next_oid st)) eqn:Hl; [|done].
        apply Hprofiles in Hl. lia.
      * intros j p Hp. apply Hprofiles in Hp. lia.
    + by destruct (endsWith em' doctor_marker).
  - destruct (register_refused st salt now b Hnot) as (r & -> & Hr).
    split_and!; [|done|].
    + split; [|done]. destruct Hr as [Hr|Hr]; rewrite Hr; done.
    + destruct Hr as [Hr|Hr]; rewrite Hr; done.
Qed.

(** C7, as the code has it: a login with an email bound to no user and a
    login with the email of an existing user and a password whose
    comparison fails are both refused with status 400 (BadRequest, not
    Unauthorized), with the same reply [Invalid Credentials], and neither
    writes anything; the two replies are equal, so they do not tell a
    missing user from a wrong password. *)
Theorem login_failures_indistinguishable (st : Store) b1 em pw :
  (∀ i u, users st !! i = Some u → lb_email b1 ≠ Some (email u)) →
  (∃ i u, users st !! i = Some u ∧ email u = em) →
  (∀ i u, users st !! i = Some u → email u = em →
          bcrypt_compare pw (password u) = false) →
  POST_login b1 st
  = (st, status_json BadRequest (Msg "Invalid Credentials"))
  ∧ POST_login (mkLoginBody (Some em) (Some pw)) st
    = (st, status_json BadRequest (Msg "Invalid Credentials"))
  ∧ POST_login b1 st = POST_login (mkLoginBody (Some em) (Some pw)) st.
Proof.
  intros Hmissing (i & u & Hu & He) Hfail.
  assert (POST_login b1 st
          = (st, status_json BadRequest (Msg "Invalid Credentials"))) as H1.
  { unfold POST_login, try_catch, login_handler, bind, findOne, gets. simpl.
    assert (find_first (λ kv : ObjectId * User,
                          field_is (lb_email b1) (email kv.2))
              (users st) = None) as ->; [|done].
    apply find_first_None. intros j v Hv. simpl.
    specialize (Hmissing j v Hv).
    destruct (lb_email b1) as [e|]; simpl; [|done].
    apply String.eqb_neq. congruence. }
  assert (POST_login (mkLoginBody (Some em) (Some pw)) st
          = (st, status_json BadRequest (Msg "Invalid Credentials"))) as H2.
  { unfold POST_login, try_catch, login_handler, bind, findOne, gets. simpl.
    destruct (find_first _ (users st)) as [[j v]|] eqn:Hfind; simpl; [|done].
    apply find_first_Some in Hfind as [Hv Hem]. simpl in Hem.
    apply String.eqb_eq in Hem.
    by rewrite (Hfail j v Hv (eq_sym Hem)). }
  by rewrite H1, H2.
Qed.

End auth_routes.

(** ** Invariants of the routes *)

Section preservation.
Context (I : Store → Prop).

Lemma preserves_ret {A} (a : A) : preserves I (ret a).
Proof. by intros st Hst. Qed.

Lemma preserves_throw {A} (e : Exn) : preserves I (throw (A := A) e).
Proof. by intros st Hst. Qed.

Lemma preserves_gets {A} (f : Store → A) : preserves I (gets f).
Proof. by intros st Hst. Qed.

Lemma preserves_bind {A B} (m : M A) (k : A → M B) :
  preserves I m → (∀ a, preserves I (k a)) → preserves I (bind m k).
Proof.
  intros Hm Hk st Hst. unfold bind. specialize (Hm st Hst).
  destruct (m st) as [st' [a|e]]; simpl in *; [by apply Hk | done].
Qed.

Lemma preserves_required (o : option string) : preserves I (required o).
Proof.
  destruct o as [s|]; simpl; [|apply preserves_throw].
  destruct (String.eqb s ""); [apply preserves_throw | apply preserves_ret].
Qed.

Lemma preserves_findById {A} `{Model A} (i : ObjectId) :
  preserves I (findById (A := A) i).
Proof. apply preserves_gets. Qed.

Lemma preserves_findOne {A} `{Model A} (P : ObjectId * A → bool) :
  preserves I (findOne P).
Proof. apply preserves_gets. Qed.

(** Writes to a collection the invariant does not read. *)
Section frame.
Context {A : Type} `{Model A}.
Hypothesis frame_set :
  ∀ (c : gmap ObjectId A) st, I st → I (set_collection c st).
Hypothesis frame_bump : ∀ st, I st → I (bump_oid st).

Lemma preserves_insert_new_frame (d : A) : preserves I (insert_new d).
Proof.
  intros st Hst. unfold insert_new.
  destruct (collection st !! next_oid st); [done|].
  destruct (find_first _ (collection st)); [done|].
  simpl. by apply frame_bump, frame_set.
Qed.

Lemma preserves_save_frame (i : ObjectId) (d : A) : preserves I (save i d).
Proof.
  intros st Hst. destruct (save_cases i d st) as [[_ ->]|[_ ->]]; [|done].
  simpl. by apply frame_set.
Qed.

Lemma preserves_deleteOne_frame (P : ObjectId * A → bool) :
  preserves I (deleteOne P).
Proof.
  intros st Hst. simpl.
  destruct (find_first P (collection st)) as [[i x]|]; [|done].
  by apply frame_set.
Qed.

Lemma preserves_deleteMany_frame (P : ObjectId * A → bool) :
  preserves I (deleteMany P).
Proof. intros st Hst. simpl. by apply frame_set. Qed.

Lemma preserves_delete_doc_frame (i : ObjectId) :
  preserves I (delete_doc (A := A) i).
Proof. intros st Hst. simpl. by apply frame_set. Qed.

End frame.

End preservation.

(** *** No payment is ever recorded as failed *)

Lemma preserves_insert_new_appointment (a : Appointment) :
  paymentStatus a ≠ failed → preserves never_failed (insert_new a).
Proof.
  intros Ha st Hst. unfold insert_new. simpl.
  destruct (appointments st !! next_oid st); [done|].
  destruct (find_first _ (appointments st)); [done|].
  unfold never_failed in *. simpl. by apply map_Forall_insert_2.
Qed.

Lemma preserves_save_appointment (i : ObjectId) (a : Appointment) :
  paymentStatus a ≠ failed → preserves never_failed (save i a).
Proof.
  intros Ha st Hst.
  destruct (save_cases i a st) as [[_ ->]|[_ ->]]; [|done].
  unfold never_failed in *. simpl. by apply map_Forall_insert_2.
Qed.

Lemma preserves_deleteMany_appointment (P : ObjectId * Appointment → bool) :
  preserves never_failed (deleteMany P).
Proof.
  intros st Hst. unfold never_failed in *. simpl.
  intros i a [Ha _]%map_lookup_filter_Some. by apply (Hst i a).
Qed.

(** A document read from the appointments has no failed payment. *)
Lemma preserves_bind_appointment {B} (i : ObjectId)
    (k : option Appointment → M B) :
  (∀ a, paymentStatus a ≠ failed → preserves never_failed (k (Some a))) →
  preserves never_failed (k None) →
  preserves never_failed (bind (findById (A := Appointment) i) k).
Proof.
  intros Hsome Hnone st Hst. unfold bind, findById, gets. simpl.
  destruct (appointments st !! i) as [a|] eqn:Ha.
  - by apply (Hsome a (Hst i a Ha)).
  - by apply Hnone.
Qed.

(** One step through a handler: the monad's rules, the frame rules for
    the collections the invariant does not read, then the rules for the
    appointments, and case analysis on the handler's branches. *)
Ltac preserve_step :=
  first
    [ apply preserves_ret
    | apply preserves_throw
    | apply preserves_required
    | apply preserves_findOne
    | apply preserves_findById
    | apply preserves_insert_new_frame; by intros
    | apply preserves_save_frame; by intros
    | apply preserves_deleteOne_frame; by intros
    | apply preserves_deleteMany_frame; by intros
    | apply preserves_delete_doc_frame; by intros
    | apply preserves_deleteMany_appointment
    | apply preserves_insert_new_appointment; simpl; congruence
    | apply preserves_save_appointment; simpl; congruence
    | apply preserves_bind_appointment; [intros ? ?|]
    | apply preserves_bind; [|intros ?]
    | match goal with
      | |- preserves _ (match ?x with _ => _ end) => destruct x
      | |- preserves _ (if ?x then _ else _) => destruct x
      | |- preserves _ (let _ := _ in _) => cbv zeta
      end ].

Ltac preserve := repeat preserve_step.

Section handlers_preserve.
Context `{Collaborators}.

Lemma register_preserves salt now b :
  preserves never_failed (register_handler salt now b).
Proof. unfold register_handler. preserve. Qed.

Lemma login_preserves b : preserves never_failed (login_handler b).
Proof. unfold login_handler. preserve. Qed.

Lemma approve_preserves uid : preserves never_failed (approve_handler uid).
Proof. unfold approve_handler. preserve. Qed.

Lemma delete_user_preserves caller uid :
  preserves never_failed (delete_user_handler caller uid).
Proof. unfold delete_user_handler. preserve. Qed.

Lemma profile_preserves caller now b :
  preserves never_failed (profile_handler caller now b).
Proof. unfold profile_handler. preserve. Qed.

Lemma book_preserves caller now b :
  preserves never_failed (book_handler caller now b).
Proof. unfold book_handler. preserve. Qed.

Lemma cancel_preserves caller i :
  preserves never_failed (cancel_handler caller i).
Proof. unfold cancel_handler. preserve. Qed.

Lemma status_preserves caller i b :
  preserves never_failed (status_handler caller i b).
Proof.
  unfold status_handler. preserve.
  apply preserves_save_appointment.
  by destruct (truthy (sb_time b)), (truthy (sb_date b)).
Qed.

(** The failure branch of [pay_handler] is the only place that writes
    [failed]; it is dead code, because [paymentSuccessful] is [true]. *)
Lemma pay_preserves caller i b :
  preserves never_failed (pay_handler caller i b).
Proof.
  unfold pay_handler, paymentSuccessful. preserve.
  apply preserves_save_appointment. by case_decide.
Qed.

Lemma try_catch_store (m : M Response) (st : Store) :
  (try_catch m st).1 = (m st).1.
Proof. unfold try_catch. by destruct (m st) as [st' [r|e]]. Qed.

(** A route keeps what its handler keeps: the middleware writes nothing. *)
Lemma route_preserves (I : Store → Prop) token
    (gate : ReqUser → (Store → Store * Response) → Store → Store * Response)
    (handler : ReqUser → M Response) st :
  (∀ u next st', gate u next st' = next st'
                 ∨ ∃ r, gate u next st' = (st', r)) →
  (∀ u, preserves I (handler u)) → I st →
  I (auth token (λ u, gate u (try_catch (handler u))) st).1.
Proof.
  intros Hgate Hhandler Hst. unfold auth.
  destruct (negb (truthy token)); [done|].
  destruct (jwt_verify (interpolate token)) as [u|]; [|done].
  destruct (Hgate u (try_catch (handler u)) st) as [->|[r ->]]; [|done].
  rewrite try_catch_store. by apply Hhandler.
Qed.

Lemma isAdmin_gate u next st :
  isAdmin u next st = next st ∨ ∃ r, isAdmin u next st = (st, r).
Proof. unfold isAdmin. case_decide; eauto. Qed.

Lemma isDoctor_gate u next st :
  isDoctor u next st = next st ∨ ∃ r, isDoctor u next st = (st, r).
Proof. unfold isDoctor. case_decide; eauto. Qed.

Lemma isCustomer_gate u next st :
  isCustomer u next st = next st ∨ ∃ r, isCustomer u next st = (st, r).
Proof. unfold isCustomer. case_decide; eauto. Qed.

(** Every route keeps the database free of failed payments. *)
Lemma serve_never_failed (r : Request) (st : Store) :
  never_failed st → never_failed (serve r st).1.
Proof.
  intros Hst. destruct r; simpl.
  - unfold POST_register. rewrite try_catch_store.
    by apply register_preserves.
  - unfold POST_login. rewrite try_catch_store. by apply login_preserves.
  - apply (route_preserves _ _ isAdmin (λ _, approve_handler user_id));
      auto using isAdmin_gate, approve_preserves.
  - apply (route_preserves _ _ isAdmin
             (λ u, delete_user_handler u user_id));
      auto using isAdmin_gate, delete_user_preserves.
  - apply (route_preserves _ _ isDoctor (λ u, profile_handler u now b));
      auto using isDoctor_gate, profile_preserves.
  - apply (route_preserves _ _ isDoctor
             (λ u, status_handler u appointment_id b));
      auto using isDoctor_gate, status_preserves.
  - apply (route_preserves _ _ isCustomer (λ u, book_handler u now b));
      auto using isCustomer_gate, book_preserves.
  - apply (route_preserves _ _ isCustomer
             (λ u, cancel_handler u appointment_id));
      auto using isCustomer_gate, cancel_preserves.
  - apply (route_preserves _ _ isCustomer
             (λ u, pay_handler u appointment_id b));
      auto using isCustomer_gate, pay_preserves.
Qed.

Lemma run_never_failed (rs : list Request) (st : Store) :
  never_failed st → never_failed (run rs st).
Proof.
  revert st. induction rs as [|r rs IH]; intros st Hst; simpl; [done|].
  apply IH. by apply serve_never_failed.
Qed.

(** C9: starting from a database without appointments, after any sequence
    of requests to the routes, no stored appointment has paymentStatus
    failed. *)
Theorem payment_never_failed (rs : list Request) (st : Store) :
  appointments st = ∅ →
  ∀ i a, appointments (run rs st) !! i = Some a → paymentStatus a ≠ failed.
Proof.
  intros Hempty i a Ha.
  assert (never_failed (run rs st)) as Hinv.
  { apply run_never_failed. unfold never_failed.
    rewrite Hempty. apply map_Forall_empty. }
  by apply (Hinv i a).
Qed.

End handlers_preserve.

(** *** The unique index on the profiles is kept by every route *)

Lemma unique_update (st st' : Store) (i : ObjectId) (p p' : DoctorProfile) :
  profile_user_unique st → profiles st !! i = Some p → user p' = user p →
  profiles st' = <[i := p']> (profiles st) → profile_user_unique st'.
Proof.
  intros Huniq Hp Huser Hst' j k q r. rewrite Hst'.
  rewrite !lookup_insert. repeat case_decide; subst; intros Hq Hr Heq;
    simplify_eq; try done.
  - symmetry. eapply Huniq; eauto. congruence.
  - eapply Huniq; eauto. congruence.
  - eapply Huniq; eauto.
Qed.

Lemma unique_insert (st st' : Store) (i : ObjectId) (d : DoctorProfile) :
  profile_user_unique st →
  (∀ j q, profiles st !! j = Some q → user q ≠ user d) →
  profiles st' = <[i := d]> (profiles st) → profile_user_unique st'.
Proof.
  intros Huniq Hfree Hst' j k q r. rewrite Hst'.
  rewrite !lookup_insert. repeat case_decide; subst; intros Hq Hr Heq;
    simplify_eq; try done.
  - by destruct (Hfree k r Hr).
  - by destruct (Hfree j q Hq).
  - eapply Huniq; eauto.
Qed.

Lemma unique_subseteq (st st' : Store) :
  profile_user_unique st → profiles st' ⊆ profiles st →
  profile_user_unique st'.
Proof.
  intros Huniq Hsub j k q r Hq Hr.
  apply (Huniq j k q r); eapply lookup_weaken; eauto.
Qed.

Lemma preserves_insert_new_profile (d : DoctorProfile) :
  preserves profile_user_unique (insert_new d).
Proof.
  intros st Hst. unfold insert_new. simpl.
  destruct (profiles st !! next_oid st); [done|].
  destruct (find_first _ (profiles st)) eqn:Hfind; [done|]. simpl.
  apply (unique_insert st _ (next_oid st) d); [done| |done].
  intros j q Hq. rewrite find_first_None in Hfind.
  specialize (Hfind j q Hq). simpl in Hfind.
  apply Nat.eqb_neq in Hfind. congruence.
Qed.

Lemma preserves_deleteOne_profile (P : ObjectId * DoctorProfile → bool) :
  preserves profile_user_unique (deleteOne P).
Proof.
  intros st Hst. simpl.
  destruct (find_first P (profiles st)) as [[i p]|]; [|done].
  apply (unique_subseteq st); [done|]. simpl. apply delete_subseteq.
Qed.

Section handlers_keep_unique.
Context `{Collaborators}.

Lemma register_keeps_unique salt now b :
  preserves profile_user_unique (register_handler salt now b).
Proof.
  unfold register_handler. preserve.
  apply preserves_insert_new_profile.
Qed.

Lemma login_keeps_unique b : preserves profile_user_unique (login_handler b).
Proof. unfold login_handler. preserve. Qed.

Lemma approve_keeps_unique uid :
  preserves profile_user_unique (approve_handler uid).
Proof.
  intros st Hst.
  unfold approve_handler, bind, findById, findOne, gets, save. simpl.
  destruct (users st !! uid) as [u|]; [|done].
  case_decide; [done|].
  destruct (find_first _ (profiles st)) as [[i p]|] eqn:Hfind; [|done].
  apply find_first_Some in Hfind as [Hp _]. simpl.
  destruct (_ && _); simpl; [|done].
  destruct (nonempty (specialty p)); simpl; [|done].
  by apply (unique_update st _ i p (Profile_set_isApproved true p)).
Qed.

Lemma delete_user_keeps_unique caller uid :
  preserves profile_user_unique (delete_user_handler caller uid).
Proof.
  unfold delete_user_handler. preserve.
  apply preserves_deleteOne_profile.
Qed.

Lemma profile_keeps_unique caller now b :
  preserves profile_user_unique (profile_handler caller now b).
Proof.
  intros st Hst. unfold profile_handler, bind, findOne, gets, save. simpl.
  destruct (find_first _ (profiles st)) as [[i p]|] eqn:Hfind.
  - apply find_first_Some in Hfind as [Hp _].
    destruct (pr_specialty b) as [s|]; simpl; [|done].
    destruct (String.eqb s ""); simpl; [done|].
    destruct (nonempty s); simpl; [|done].
    by apply (unique_update st _ i p
                (Profile_set_details s (pr_clinicName b) (pr_address b)
                   (pr_phone b) p)).
  - destruct (pr_specialty b) as [s|]; simpl; [|done].
    destruct (String.eqb s ""); simpl; [done|].
    match goal with
    | |- context [insert_new ?d st] =>
        pose proof (preserves_insert_new_profile d st Hst) as Hins;
        destruct (insert_new d st) as [st' [j|e]]
    end; done.
Qed.

Lemma book_keeps_unique caller now b :
  preserves profile_user_unique (book_handler caller now b).
Proof. unfold book_handler. preserve. Qed.

Lemma cancel_keeps_unique caller i :
  preserves profile_user_unique (cancel_handler caller i).
Proof. unfold cancel_handler. preserve. Qed.

Lemma status_keeps_unique caller i b :
  preserves profile_user_unique (status_handler caller i b).
Proof. unfold status_handler. preserve. Qed.

Lemma pay_keeps_unique caller i b :
  preserves profile_user_unique (pay_handler caller i b).
Proof. unfold pay_handler. preserve. Qed.

Lemma serve_profile_user_unique (r : Request) (st : Store) :
  profile_user_unique st → profile_user_unique (serve r st).1.
Proof.
  intros Hst. destruct r; simpl.
  - unfold POST_register. rewrite try_catch_store.
    by apply register_keeps_unique.
  - unfold POST_login. rewrite try_catch_store. by apply login_keeps_unique.
  - apply (route_preserves _ _ isAdmin (λ _, approve_handler user_id));
      auto using isAdmin_gate, approve_keeps_unique.
  - apply (route_preserves _ _ isAdmin
             (λ u, delete_user_handler u user_id));
      auto using isAdmin_gate, delete_user_keeps_unique.
  - apply (route_preserves _ _ isDoctor (λ u, profile_handler u now b));
      auto using isDoctor_gate, profile_keeps_unique.
  - apply (route_preserves _ _ isDoctor
             (λ u, status_handler u appointment_id b));
      auto using isDoctor_gate, status_keeps_unique.
  - apply (route_preserves _ _ isCustomer (λ u, book_handler u now b));
      auto using isCustomer_gate, book_keeps_unique.
  - apply (route_preserves _ _ isCustomer
             (λ u, cancel_handler u appointment_id));
      auto using isCustomer_gate, cancel_keeps_unique.
  - apply (route_preserves _ _ isCustomer
             (λ u, pay_handler u appointment_id b));
      auto using isCustomer_gate, pay_keeps_unique.
Qed.

(** Every database reached from the empty one has at most one profile
    per user. *)
Lemma run_profile_user_unique (rs : list Request) :
  profile_user_unique (run rs empty_store).
Proof.
  assert (∀ st, profile_user_unique st → profile_user_unique (run rs st))
    as Hrun.
  { induction rs as [|r rs IH]; intros st Hst; simpl; [done|].
    apply IH. by apply serve_profile_user_unique. }
  apply Hrun. intros i j p q Hp. simpl in Hp. by rewrite lookup_empty in Hp.
Qed.

End handlers_keep_unique.

(** ** The middleware on every protected route *)

Section protected_routes.
Context `{Collaborators}.

(** X1: a request to a protected route without a token, or with an empty
    one, is answered 401 [No token, authorization denied]; with a token
    that [jwt.verify] rejects it is answered 401 [Token is not valid]; in
    both cases the handler does not run and nothing is written. *)
Theorem protected_routes_need_token (r : Request) token (st : Store) :
  request_token r = Some token →
  (truthy token = false →
     serve r st
     = (st, status_json Unauthorized (Msg "No token, authorization denied")))
  ∧ (truthy token = true → jwt_verify (interpolate token) = None →
     serve r st = (st, status_json Unauthorized (Msg "Token is not valid"))).
Proof.
  intros Hr.
  destruct r; simpl in Hr; simplify_eq; simpl;
    unfold PUT_approve, DELETE_user, POST_profile, PUT_status, POST_book,
      PUT_cancel, POST_pay, auth;
    (split; [intros -> | intros -> ->]; done).
Qed.

(** X2: the role gates.  A caller who is not an admin is refused with 403
    by the admin routes; a caller who is not a doctor, an admin included,
    by the doctor routes; a doctor by the customer routes.  Nothing is
    written. *)
Theorem role_gates_refuse token u (st : Store) :
  bearer token u →
  (r_role u ≠ admin →
     ∀ uid,
       PUT_approve token uid st
       = (st, status_json Forbidden (Msg "Access denied, not an admin"))
       ∧ DELETE_user token uid st
         = (st, status_json Forbidden (Msg "Access denied, not an admin")))
  ∧ (r_role u ≠ doctor →
     ∀ now pb i sb,
       POST_profile token now pb st
       = (st, status_json Forbidden (Msg "Access denied, not a doctor"))
       ∧ PUT_status token i sb st
         = (st, status_json Forbidden (Msg "Access denied, not a doctor")))
  ∧ (r_role u = doctor →
     ∀ now bb i pb,
       POST_book token now bb st
       = (st, status_json Forbidden (Msg "Access denied, not a customer"))
       ∧ PUT_cancel token i st
         = (st, status_json Forbidden (Msg "Access denied, not a customer"))
       ∧ POST_pay token i pb st
         = (st, status_json Forbidden (Msg "Access denied, not a customer"))).
Proof.
  intros Hb.
  unfold PUT_approve, DELETE_user, POST_profile, PUT_status, POST_book,
    PUT_cancel, POST_pay.
  split_and!; intros Hrole; intros; rewrite !(auth_bearer _ _ _ _ Hb);
    unfold isAdmin, isDoctor, isCustomer.
  - by rewrite !decide_False.
  - by rewrite !decide_False.
  - rewrite !decide_False; [done|..]; rewrite Hrole; intros [?|?]; done.
Qed.

(** X3: the customer routes check the owner.  A cancel or a pay by a
    caller who is not the customer of the appointment, an admin included,
    is answered 401 and writes nothing. *)
Theorem customer_routes_check_owner token u i a (st : Store) :
  bearer token u → r_role u = customer ∨ r_role u = admin →
  appointments st !! i = Some a → a_customer a ≠ id u →
  PUT_cancel token i st
  = (st, status_json Unauthorized
           (Msg "Not authorized to cancel this appointment"))
  ∧ ∀ b, POST_pay token i b st
         = (st, status_json Unauthorized
                  (Msg "Not authorized to pay for this appointment")).
Proof.
  intros Hb Hr Ha Hne. unfold PUT_cancel, POST_pay. split; intros.
  all: rewrite (auth_bearer _ _ _ _ Hb), isCustomer_pass by done.
  all: unfold try_catch, cancel_handler, pay_handler, bind, findById, gets;
    simpl; rewrite Ha; by rewrite decide_True.
Qed.

(** X4: an id that is bound to no document.  Cancel, pay and the status
    update answer 404 [Appointment not found], the deletion of a user
    404 [User not found]; nothing is written. *)
Theorem missing_documents_not_found token u i (st : Store) :
  bearer token u →
  (r_role u = customer ∨ r_role u = admin →
   appointments st !! i = None →
     PUT_cancel token i st
     = (st, status_json NotFound (Msg "Appointment not found"))
     ∧ ∀ b, POST_pay token i b st
            = (st, status_json NotFound (Msg "Appointment not found")))
  ∧ (r_role u = doctor → appointments st !! i = None →
     ∀ b, PUT_status token i b st
          = (st, status_json NotFound (Msg "Appointment not found")))
  ∧ (r_role u = admin → users st !! i = None →
     DELETE_user token i st
     = (st, status_json NotFound (Msg "User not found"))).
Proof.
  intros Hb. unfold PUT_cancel, POST_pay, PUT_status, DELETE_user.
  split_and!; intros Hr Hi; [split|..]; intros;
    rewrite (auth_bearer _ _ _ _ Hb).
  1,2: rewrite isCustomer_pass by done.
  3: rewrite isDoctor_pass by done.
  4: rewrite isAdmin_pass by done.
  all: unfold try_catch, cancel_handler, pay_handler, status_handler,
    delete_user_handler, bind, findById, gets; simpl; by rewrite Hi.
Qed.

End protected_routes.

(** ** More on the doctor routes *)

Section more_doctor_routes.
Context `{Collaborators}.

(** X5: the status update follows no transition graph.  Whatever the
    current status of a stored appointment that passes the validators of
    its schema, the doctor of the appointment can store any of the four
    statuses; a completed or cancelled appointment can be set back to
    pending.  Nothing else changes. *)
Theorem status_update_any_target token u i a (target : Status) (st : Store) :
  bearer token u → r_role u = doctor →
  appointments st !! i = Some a → id u = a_doctor a → valid a = true →
  let a' :=
    mkAppointment (a_customer a) (a_doctor a) (date a) (time a) (documents a)
      (notes a) (isEmergency a) target (paymentStatus a) (createdAt a) in
  PUT_status token i
    (mkStatusBody (Some (Status_to_string target)) None None) st
  = (mkStore (users st) (profiles st) (<[i := a']> (appointments st))
       (next_oid st),
     json (AppointmentBody "Appointment updated successfully" (i, a'))).
Proof.
  intros Hb Hr Ha Hown Hv. unfold PUT_status.
  rewrite (auth_bearer _ _ _ _ Hb), isDoctor_pass by done.
  unfold try_catch, status_handler, bind, findById, gets, save. simpl.
  rewrite Ha.
  rewrite decide_False by (intros Hne; by apply Hne).
  assert (truthy (Some (Status_to_string target)) = true) as Ht
    by by destruct target.
  simpl in Ht, Hv. rewrite Ht, Status_of_to_string. simpl. by rewrite Hv.
Qed.

(** X6: the profile route.  Without a specialty the save fails and
    nothing is written.  With one, the doctor's profile gets the four
    submitted fields and keeps its user and its isApproved flag; a doctor
    without a profile gets a new, unapproved one. *)
Theorem profile_upsert token u now b (st : Store) :
  bearer token u → r_role u = doctor → profile_user_unique st →
  (truthy (pr_specialty b) = false →
     POST_profile token now b st = (st, server_error))
  ∧ (∀ s j p,
       pr_specialty b = Some s → s ≠ "" →
       profiles st !! j = Some p → user p = id u →
       let p' :=
         mkDoctorProfile (user p) s (pr_clinicName b) (pr_address b)
           (pr_phone b) (p_isApproved p) (p_date p) in
       POST_profile token now b st
       = (mkStore (users st) (<[j := p']> (profiles st)) (appointments st)
            (next_oid st),
          json (ProfileBody "Doctor profile updated" (j, p'))))
  ∧ (∀ s,
       pr_specialty b = Some s → s ≠ "" →
       (∀ j p, profiles st !! j = Some p → user p ≠ id u) →
       profiles st !! next_oid st = None →
       let p' :=
         mkDoctorProfile (id u) s (pr_clinicName b) (pr_address b)
           (pr_phone b) false now in
       POST_profile token now b st
       = (mkStore (users st) (<[next_oid st := p']> (profiles st))
            (appointments st) (S (next_oid st)),
          status_json Created
            (ProfileBody "Doctor profile created" (next_oid st, p')))).
Proof.
  intros Hb Hr Huniq. unfold POST_profile.
  rewrite (auth_bearer _ _ _ _ Hb), isDoctor_pass by done.
  unfold try_catch, profile_handler, bind, findOne, gets. simpl.
  split_and!.
  - intros Hs.
    assert (∀ st', required (pr_specialty b) st'
                   = (st', Thrown ValidationError)) as Hreq.
    { intros st'. destruct (pr_specialty b) as [s|]; simpl in *; [|done].
      by destruct (String.eqb s ""). }
    destruct (find_first _ (profiles st)) as [[j p]|]; by rewrite Hreq.
  - intros s j p -> Hs Hp Hu. simpl.
    rewrite <- Hu, (find_profile_of_user st j p Huniq Hp). simpl.
    rewrite (proj2 (String.eqb_neq s "") Hs). unfold save. simpl.
    by rewrite (proj2 (nonempty_true s) Hs).
  - intros s -> Hs Hnone Hfresh. simpl.
    rewrite (proj2 (find_no_profile_of_user st (id u)) Hnone). simpl.
    rewrite (proj2 (String.eqb_neq s "") Hs). simpl.
    rewrite insert_new_fresh; [done|done|].
    intros j p Hp. simpl. apply Nat.eqb_neq. intros Heq.
    by apply (Hnone j p Hp).
Qed.

End more_doctor_routes.

(** ** More on registration and login *)

Section more_auth_routes.
Context `{Collaborators}.

(** A successful registration, as an equation. *)
Lemma register_ok_inv (st : Store) salt now b :
  oids_below st → (∀ p s, bcrypt_hash p s ≠ "") →
  code (POST_register salt now b st).2 = OK →
  ∃ un em pw,
    b = mkRegisterBody (Some un) (Some em) (Some pw)
    ∧ un ≠ "" ∧ em ≠ ""
    ∧ (∀ i u, users st !! i = Some u → email u ≠ em ∧ username u ≠ un)
    ∧ users st !! next_oid st = None.
Proof.
  intros Hbelow Hhash Hok.
  destruct (register_conditions_dec st b) as [Hyes|Hnot].
  - destruct Hyes as (Hun & Hem & Hpw & Hfree).
    destruct b as [un em pw]. simpl in *.
    apply truthy_Some in Hun as (un' & -> & Hun).
    apply truthy_Some in Hem as (em' & -> & Hem).
    destruct Hpw as [pw' ->].
    exists un', em', pw'. split_and!; try done.
    + intros i u Hu. destruct (Hfree i u Hu). split; congruence.
    + destruct Hbelow as (Husers & _).
      destruct (users st !! next_oid st) eqn:Hl; [|done].
      apply Husers in Hl. lia.
  - destruct (register_refused st salt now b Hnot) as (r & Heq & Hr).
    rewrite Heq in Hok. simpl in Hok.
    destruct Hr as [Hr|Hr]; rewrite Hr in Hok; done.
Qed.

(** X8: registration and login agree.  When [bcrypt.compare] accepts the
    password a hash was made from, a login with the email and password
    of a successful registration succeeds, writes nothing, and carries a
    token over the same payload as the token of the registration: the id
    of the new user, the role, the username and the approval flag. *)
Theorem register_then_login (st : Store) salt now b :
  oids_below st → (∀ p s, bcrypt_hash p s ≠ "") →
  (∀ p s, bcrypt_compare p (bcrypt_hash p s) = true) →
  let (st1, r1) := POST_register salt now b st in
  code r1 = OK →
  ∃ payload,
    id payload = next_oid st
    ∧ r1 = json (AuthBody (jwt_sign payload) "Registration successful!"
                   (r_role payload) None)
    ∧ POST_login (mkLoginBody (rb_email b) (rb_password b)) st1
      = (st1, json (AuthBody (jwt_sign payload) "Login successful!"
                      (r_role payload) (Some payload))).
Proof.
  intros Hbelow Hhash Hcompare.
  destruct (POST_register salt now b st) as [st1 r1] eqn:Hreg.
  intros Hok.
  destruct (register_ok_inv st salt now b Hbelow Hhash) as
    (un & em & pw & -> & Hun & Hem & Hfree & Hfresh);
    [by rewrite Hreg|].
  rewrite register_accepted in Hreg by done. simplify_eq. simpl.
  exists (mkReqUser (next_oid st)
            (if endsWith em doctor_marker then doctor else customer) un
            (if endsWith em doctor_marker then false else true)).
  split; [done|]. split; [done|].
  unfold POST_login, try_catch, login_handler, bind, findOne, gets. simpl.
  match goal with
  | |- context [find_first ?P ?c] =>
      destruct (find_first P c) as [[j v]|] eqn:Hfind
  end.
  - apply find_first_Some in Hfind as [Hv He]. simpl in He.
    rewrite lookup_insert in Hv. case_decide as Hj.
    + subst j. injection Hv as <-. simpl. by rewrite Hcompare.
    + apply String.eqb_eq in He. destruct (Hfree j v Hv). congruence.
  - rewrite find_first_None in Hfind.
    match type of Hfind with
    | ∀ i x, ?c !! i = Some x → _ =>
        specialize (Hfind (next_oid st) _ (lookup_insert_eq _ _ _))
    end.
    simpl in Hfind. by rewrite String.eqb_refl in Hfind.
Qed.

(** X9: a login body without a password tells a known email from an
    unknown one.  For an email bound to no user the reply is 400
    [Invalid Credentials]; for the email of a stored user
    [bcrypt.compare] throws on the missing password and the reply is 500
    [Server Error]. *)
Theorem login_without_password (st : Store) (em : string) :
  ((∀ i u, users st !! i = Some u → email u ≠ em) →
     POST_login (mkLoginBody (Some em) None) st
     = (st, status_json BadRequest (Msg "Invalid Credentials")))
  ∧ ((∃ i u, users st !! i = Some u ∧ email u = em) →
     POST_login (mkLoginBody (Some em) None) st = (st, server_error)).
Proof.
  unfold POST_login, try_catch, login_handler, bind, findOne, gets. simpl.
  split.
  - intros Hnone.
    assert (find_first (λ kv : ObjectId * User, String.eqb em (email kv.2))
              (users st) = None) as ->; [|done].
    apply find_first_None. intros i u Hu. simpl.
    apply String.eqb_neq. intros ->. by apply (Hnone i u).
  - intros (i & u & Hu & He).
    destruct (find_first_is_Some
                (λ kv : ObjectId * User, String.eqb em (email kv.2))
                (users st) i u Hu) as [[j v] ->]; [|done].
    simpl. rewrite He. apply String.eqb_refl.
Qed.

End more_auth_routes.

(** ** What stays of a document while it is stored *)

Section evolution.
Context {A : Type} `{LawfulModel A}.
Context (R : A → A → Prop) (N : A → Prop) (st0 : Store).
Context `{!Reflexive R, !Transitive R}.
Hypothesis N_step : ∀ x x', N x → R x x' → N x'.
Hypothesis keys0 :
  ∀ i x, collection st0 !! i = Some x → (i < next_oid st0)%nat.

(** What [evolves] asks of the document stored under [i]. *)
Local Abbreviation ok i x' :=
  (match collection st0 !! i with
   | Some x => R x x'
   | None => N x'
   end).

Lemma evolves_refl : evolves R N st0 st0.
Proof.
  split; [done|]. intros i x Hx. by rewrite Hx.
Qed.

Lemma ok_step i x' x'' : ok i x' → R x' x'' → ok i x''.
Proof.
  destruct (collection st0 !! i) as [x|]; intros Hx Hstep.
  - by trans x'.
  - by apply (N_step x').
Qed.

Lemma evolves_bump st : evolves R N st0 st → evolves R N st0 (bump_oid st).
Proof.
  intros [Hn Hdocs]. split; [simpl; lia|].
  intros i x'. rewrite get_bump. apply Hdocs.
Qed.

Lemma evolves_read_findById {B} (i : ObjectId) (k : option A → M B) :
  (∀ x', ok i x' → preserves (evolves R N st0) (k (Some x'))) →
  preserves (evolves R N st0) (k None) →
  preserves (evolves R N st0) (bind (findById i) k).
Proof.
  intros Hsome Hnone st Hst. unfold bind, findById, gets. simpl.
  destruct (collection st !! i) as [x'|] eqn:Hx.
  - apply (Hsome x'); [|done]. by apply (proj2 Hst).
  - by apply Hnone.
Qed.

Lemma evolves_read_findOne {B} (P : ObjectId * A → bool)
    (k : option (ObjectId * A) → M B) :
  (∀ i x', ok i x' → preserves (evolves R N st0) (k (Some (i, x')))) →
  preserves (evolves R N st0) (k None) →
  preserves (evolves R N st0) (bind (findOne P) k).
Proof.
  intros Hsome Hnone st Hst. unfold bind, findOne, gets. simpl.
  destruct (find_first P (collection st)) as [[i x']|] eqn:Hx.
  - apply find_first_Some in Hx as [Hx _].
    apply (Hsome i x'); [|done]. by apply (proj2 Hst).
  - by apply Hnone.
Qed.

Lemma evolves_save (i : ObjectId) (x' : A) :
  ok i x' → preserves (evolves R N st0) (save i x').
Proof.
  intros Hok st [Hn Hdocs].
  destruct (save_cases i x' st) as [[_ ->]|[_ ->]]; [|done].
  simpl. split; [by rewrite next_set|].
  intros j y. rewrite get_set, lookup_insert. case_decide.
  - intros [= <-]. by subst j.
  - apply Hdocs.
Qed.

Lemma evolves_insert_new (d : A) :
  N d → preserves (evolves R N st0) (insert_new d).
Proof.
  intros Hd st [Hn Hdocs]. unfold insert_new.
  destruct (collection st !! next_oid st); [done|].
  destruct (find_first _ (collection st)); [done|].
  unfold fst. split.
  { change (next_oid (bump_oid ?s)) with (S (next_oid s)).
    rewrite next_set. lia. }
  intros j y. rewrite get_bump, get_set, lookup_insert. case_decide.
  - intros [= <-]. subst j.
    destruct (collection st0 !! next_oid st) as [x|] eqn:Hx; [|done].
    apply keys0 in Hx. lia.
  - apply Hdocs.
Qed.

Lemma evolves_subseteq (st st' : Store) :
  evolves R N st0 st → next_oid st' = next_oid st →
  collection st' ⊆ collection st → evolves R N st0 st'.
Proof.
  intros [Hn Hdocs] Hnext Hsub. split; [by rewrite Hnext|].
  intros i x' Hx'. apply Hdocs. by eapply lookup_weaken.
Qed.

Lemma evolves_deleteOne (P : ObjectId * A → bool) :
  preserves (evolves R N st0) (deleteOne P).
Proof.
  intros st Hst. simpl.
  destruct (find_first P (collection st)) as [[i x]|]; [|done].
  apply (evolves_subseteq st); [done|by rewrite next_set|].
  rewrite get_set. apply delete_subseteq.
Qed.

Lemma evolves_deleteMany (P : ObjectId * A → bool) :
  preserves (evolves R N st0) (deleteMany P).
Proof.
  intros st Hst. simpl.
  apply (evolves_subseteq st); [done|by rewrite next_set|].
  rewrite get_set. apply map_filter_subseteq.
Qed.

Lemma evolves_delete_doc (i : ObjectId) :
  preserves (evolves R N st0) (delete_doc (A := A) i).
Proof.
  intros st Hst. simpl.
  apply (evolves_subseteq st); [done|by rewrite next_set|].
  rewrite get_set. apply delete_subseteq.
Qed.

End evolution.

Global Instance same_user_refl : Reflexive same_user.
Proof. by intros u. Qed.
Global Instance same_user_trans : Transitive same_user.
Proof.
  intros u v w (? & ? & ? & ? & ? & ?) (? & ? & ? & ? & ? & ?).
  split_and!; try congruence. auto.
Qed.

Global Instance same_profile_refl : Reflexive same_profile.
Proof. by intros p. Qed.
Global Instance same_profile_trans : Transitive same_profile.
Proof.
  intros p q r (? & ? & ?) (? & ? & ?). split_and!; try congruence. auto.
Qed.

Global Instance same_appointment_refl : Reflexive same_appointment.
Proof. by intros a. Qed.
Global Instance same_appointment_trans : Transitive same_appointment.
Proof.
  intros a b c (? & ? & ? & ? & ? & ? & ?) (? & ? & ? & ? & ? & ? & ?).
  split_and!; try congruence. auto.
Qed.

(** An invariant that every handler keeps is kept by every route and by
    every sequence of requests. *)
Lemma serve_preserves `{Collaborators} (I : Store → Prop) :
  (∀ salt now b, preserves I (register_handler salt now b)) →
  (∀ b, preserves I (login_handler b)) →
  (∀ uid, preserves I (approve_handler uid)) →
  (∀ u uid, preserves I (delete_user_handler u uid)) →
  (∀ u now b, preserves I (profile_handler u now b)) →
  (∀ u i b, preserves I (status_handler u i b)) →
  (∀ u now b, preserves I (book_handler u now b)) →
  (∀ u i, preserves I (cancel_handler u i)) →
  (∀ u i b, preserves I (pay_handler u i b)) →
  ∀ r st, I st → I (serve r st).1.
Proof.
  intros Hreg Hlogin Happrove Hdelete Hprofile Hstatus Hbook Hcancel Hpay
    r st Hst.
  destruct r; simpl.
  - unfold POST_register. rewrite try_catch_store. by apply Hreg.
  - unfold POST_login. rewrite try_catch_store. by apply Hlogin.
  - apply (route_preserves _ _ isAdmin (λ _, approve_handler user_id));
      auto using isAdmin_gate.
  - apply (route_preserves _ _ isAdmin
             (λ u, delete_user_handler u user_id));
      auto using isAdmin_gate.
  - apply (route_preserves _ _ isDoctor (λ u, profile_handler u now b));
      auto using isDoctor_gate.
  - apply (route_preserves _ _ isDoctor
             (λ u, status_handler u appointment_id b));
      auto using isDoctor_gate.
  - apply (route_preserves _ _ isCustomer (λ u, book_handler u now b));
      auto using isCustomer_gate.
  - apply (route_preserves _ _ isCustomer
             (λ u, cancel_handler u appointment_id));
      auto using isCustomer_gate.
  - apply (route_preserves _ _ isCustomer
             (λ u, pay_handler u appointment_id b));
      auto using isCustomer_gate.
Qed.

Lemma run_preserves `{Collaborators} (I : Store → Prop) :
  (∀ r st, I st → I (serve r st).1) →
  ∀ rs st, I st → I (run rs st).
Proof.
  intros Hserve rs. induction rs as [|r rs IH]; intros st Hst; simpl; [done|].
  by apply IH, Hserve.
Qed.

Lemma preserves_bind_ret (I : Store → Prop) {A B} (a : A) (k : A → M B) :
  preserves I (k a) → preserves I (bind (ret a) k).
Proof. intros Hk st Hst. by apply Hk. Qed.

Lemma preserves_bind_throw (I : Store → Prop) {A B} (e : Exn) (k : A → M B) :
  preserves I (bind (throw e) k).
Proof. by intros st Hst. Qed.

(** ** Stored documents pass the validators of their schemas *)

Section validity.
Context {A : Type} `{LawfulModel A}.

Lemma all_valid_save (i : ObjectId) (d : A) :
  preserves (all_valid A) (save i d).
Proof.
  intros st Hst. destruct (save_cases i d st) as [[Hv ->]|[_ ->]]; [|done].
  unfold all_valid. simpl. rewrite get_set. by apply map_Forall_insert_2.
Qed.

Lemma all_valid_insert_new (d : A) :
  valid d = true → preserves (all_valid A) (insert_new d).
Proof.
  intros Hv st Hst. unfold insert_new.
  destruct (collection st !! next_oid st); [done|].
  destruct (find_first _ (collection st)); [done|].
  unfold all_valid, fst. rewrite get_bump, get_set.
  by apply map_Forall_insert_2.
Qed.

Lemma all_valid_subseteq (st st' : Store) :
  all_valid A st → collection st' ⊆ collection st → all_valid A st'.
Proof.
  intros Hst Hsub i x Hx. apply (Hst i x). by eapply lookup_weaken.
Qed.

Lemma all_valid_deleteOne (P : ObjectId * A → bool) :
  preserves (all_valid A) (deleteOne P).
Proof.
  intros st Hst. simpl.
  destruct (find_first P (collection st)) as [[i x]|]; [|done].
  apply (all_valid_subseteq st); [done|].
  rewrite get_set. apply delete_subseteq.
Qed.

Lemma all_valid_deleteMany (P : ObjectId * A → bool) :
  preserves (all_valid A) (deleteMany P).
Proof.
  intros st Hst. simpl. apply (all_valid_subseteq st); [done|].
  rewrite get_set. apply map_filter_subseteq.
Qed.

Lemma all_valid_delete_doc (i : ObjectId) :
  preserves (all_valid A) (delete_doc (A := A) i).
Proof.
  intros st Hst. simpl. apply (all_valid_subseteq st); [done|].
  rewrite get_set. apply delete_subseteq.
Qed.

End validity.

(** What [required] lets through is not empty. *)
Lemma preserves_bind_required (I : Store → Prop) {B} (o : option string)
    (k : string → M B) :
  (∀ s, nonempty s = true → preserves I (k s)) →
  preserves I (bind (required o) k).
Proof.
  intros Hk st Hst. unfold bind, required.
  destruct o as [s|]; [|done].
  destruct (String.eqb s "") eqn:Hs; [done|].
  apply (Hk s); [|done]. unfold nonempty. by rewrite Hs.
Qed.

Lemma preserves_schema_valid {B} (m : M B) :
  preserves (all_valid User) m → preserves (all_valid DoctorProfile) m →
  preserves (all_valid Appointment) m → preserves schema_valid m.
Proof.
  intros Hu Hp Ha st (Hsu & Hsp & Hsa). split_and!; auto.
Qed.

(** One step through a handler for the validity of one collection: the
    frame rules for the other collections, then the rules for its own
    writes; a new document is valid because its String paths went through
    [required]. *)
Ltac valid_step :=
  first
    [ apply preserves_ret
    | apply preserves_throw
    | apply preserves_bind_required; intros ? ?
    | apply preserves_findOne
    | apply preserves_findById
    | apply preserves_gets
    | apply preserves_insert_new_frame; by intros
    | apply preserves_save_frame; by intros
    | apply preserves_deleteOne_frame; by intros
    | apply preserves_deleteMany_frame; by intros
    | apply preserves_delete_doc_frame; by intros
    | apply all_valid_save
    | apply all_valid_deleteOne
    | apply all_valid_deleteMany
    | apply all_valid_delete_doc
    | apply all_valid_insert_new; simpl; rewrite ?andb_true_iff; by auto
    | apply preserves_bind; [|intros ?]
    | match goal with
      | |- preserves _ (match ?x with _ => _ end) => destruct x
      | |- preserves _ (if ?x then _ else _) => destruct x
      | |- preserves _ (let _ := _ in _) => cbv zeta
      end ].

Ltac valid_docs := apply preserves_schema_valid; repeat valid_step.

Section handlers_keep_valid.
Context `{Collaborators}.

Lemma register_keeps_valid salt now b :
  preserves schema_valid (register_handler salt now b).
Proof. unfold register_handler. valid_docs. Qed.

Lemma login_keeps_valid b : preserves schema_valid (login_handler b).
Proof. unfold login_handler. valid_docs. Qed.

Lemma approve_keeps_valid uid : preserves schema_valid (approve_handler uid).
Proof. unfold approve_handler. valid_docs. Qed.

Lemma delete_user_keeps_valid caller uid :
  preserves schema_valid (delete_user_handler caller uid).
Proof. unfold delete_user_handler. valid_docs. Qed.

Lemma profile_keeps_valid caller now b :
  preserves schema_valid (profile_handler caller now b).
Proof. unfold profile_handler. valid_docs. Qed.

Lemma status_keeps_valid caller i b :
  preserves schema_valid (status_handler caller i b).
Proof. unfold status_handler. valid_docs. Qed.

Lemma book_keeps_valid caller now b :
  preserves schema_valid (book_handler caller now b).
Proof. unfold book_handler. valid_docs. Qed.

Lemma cancel_keeps_valid caller i :
  preserves schema_valid (cancel_handler caller i).
Proof. unfold cancel_handler. valid_docs. Qed.

Lemma pay_keeps_valid caller i b :
  preserves schema_valid (pay_handler caller i b).
Proof. unfold pay_handler, paymentSuccessful. valid_docs. Qed.

(** Every route keeps the stored documents valid. *)
Lemma serve_schema_valid (r : Request) (st : Store) :
  schema_valid st → schema_valid (serve r st).1.
Proof.
  apply serve_preserves;
    auto using register_keeps_valid, login_keeps_valid, approve_keeps_valid,
      delete_user_keeps_valid, profile_keeps_valid, status_keeps_valid,
      book_keeps_valid, cancel_keeps_valid, pay_keeps_valid.
Qed.

(** The validity the claims about [save] assume is an invariant: it holds
    of the empty database, and after any sequence of requests of every
    database it held of. *)
Lemma run_schema_valid (rs : list Request) (st : Store) :
  schema_valid st → schema_valid (run rs st).
Proof. apply run_preserves. apply serve_schema_valid. Qed.

Lemma empty_schema_valid : schema_valid empty_store.
Proof. split_and!; apply map_Forall_empty. Qed.

End handlers_keep_valid.

(** One step through a handler for [evolves]: the monad's rules, the
    rules for reads and writes of the collection that is followed, the
    frame rules for the other collections. *)
Ltac evolve_step keys0 :=
  first
    [ apply preserves_ret
    | apply preserves_throw
    | apply preserves_required
    | apply evolves_read_findById; [intros ? ?|]
    | apply evolves_read_findOne; [intros ? ? ?|]
    | apply preserves_findOne
    | apply preserves_findById
    | apply preserves_gets
    | apply preserves_insert_new_frame;
        [by intros | intros; by apply evolves_bump]
    | apply preserves_save_frame; by intros
    | apply preserves_deleteOne_frame; by intros
    | apply preserves_deleteMany_frame; by intros
    | apply preserves_delete_doc_frame; by intros
    | apply evolves_deleteOne
    | apply evolves_deleteMany
    | apply evolves_delete_doc
    | eapply evolves_insert_new; [exact keys0 | try done]
    | apply evolves_save
    | apply preserves_bind_ret
    | apply preserves_bind_throw
    | match goal with
      | |- preserves _ (bind (match ?x with _ => _ end) _) => destruct x
      end
    | apply preserves_bind; [|intros ?]
    | match goal with
      | |- preserves _ (match ?x with _ => _ end) => destruct x
      | |- preserves _ (if ?x then _ else _) => destruct x
      | |- preserves _ (let _ := _ in _) => cbv zeta
      end ].

Ltac evolve keys0 := repeat evolve_step keys0.

Section appointments_evolve.
Context `{Collaborators}.
Context (st0 : Store).
Hypothesis keys0 :
  ∀ i a, appointments st0 !! i = Some a → (i < next_oid st0)%nat.

Local Abbreviation tracked := (evolves same_appointment (λ _, True) st0).

Lemma register_tracks_appointments salt now b :
  preserves tracked (register_handler salt now b).
Proof. unfold register_handler. evolve keys0. Qed.

Lemma login_tracks_appointments b : preserves tracked (login_handler b).
Proof. unfold login_handler. evolve keys0. Qed.

Lemma approve_tracks_appointments uid : preserves tracked (approve_handler uid).
Proof. unfold approve_handler. evolve keys0. Qed.

Lemma delete_tracks_appointments caller uid :
  preserves tracked (delete_user_handler caller uid).
Proof. unfold delete_user_handler. evolve keys0. Qed.

Lemma profile_tracks_appointments caller now b :
  preserves tracked (profile_handler caller now b).
Proof. unfold profile_handler. evolve keys0. Qed.

Lemma book_tracks_appointments caller now b :
  preserves tracked (book_handler caller now b).
Proof. unfold book_handler. evolve keys0. Qed.

Lemma ok_appointment i (x x' : Appointment) :
  match appointments st0 !! i with
  | Some a => same_appointment a x
  | None => True
  end →
  same_appointment x x' →
  match appointments st0 !! i with
  | Some a => same_appointment a x'
  | None => True
  end.
Proof.
  intros Hx Hstep.
  exact (ok_step same_appointment (λ _, True) st0 (λ _ _ _ _, I) i x x'
           Hx Hstep).
Qed.

Lemma cancel_tracks_appointments caller i :
  preserves tracked (cancel_handler caller i).
Proof.
  unfold cancel_handler. evolve keys0.
  eapply ok_appointment; [eassumption|]. by split_and!.
Qed.

Lemma pay_tracks_appointments caller i b :
  preserves tracked (pay_handler caller i b).
Proof.
  unfold pay_handler, paymentSuccessful. evolve keys0.
  eapply ok_appointment; [eassumption|]. case_decide; by split_and!.
Qed.

Lemma status_tracks_appointments caller i b :
  preserves tracked (status_handler caller i b).
Proof.
  unfold status_handler. evolve keys0.
  eapply ok_appointment; [eassumption|].
  destruct (truthy (sb_time b)), (truthy (sb_date b)); by split_and!.
Qed.

Lemma serve_tracks_appointments (r : Request) (st : Store) :
  tracked st → tracked (serve r st).1.
Proof.
  apply serve_preserves;
    auto using register_tracks_appointments, login_tracks_appointments,
      approve_tracks_appointments, delete_tracks_appointments,
      profile_tracks_appointments, status_tracks_appointments,
      book_tracks_appointments, cancel_tracks_appointments,
      pay_tracks_appointments.
Qed.

End appointments_evolve.

Section appointments_kept.
Context `{Collaborators}.

(** X10: what a stored appointment keeps.  Through any sequence of
    requests, an appointment that is still stored has the customer, the
    doctor, the documents, the notes, the emergency flag and the creation
    date it had, and once paid it stays paid: no route reassigns or
    refunds an appointment. *)
Theorem appointment_keeps_parties (rs : list Request) (st : Store) i a a' :
  oids_below st →
  appointments st !! i = Some a →
  appointments (run rs st) !! i = Some a' →
  a_customer a' = a_customer a ∧ a_doctor a' = a_doctor a
  ∧ documents a' = documents a ∧ notes a' = notes a
  ∧ isEmergency a' = isEmergency a ∧ createdAt a' = createdAt a
  ∧ (paymentStatus a = paid → paymentStatus a' = paid).
Proof.
  intros (_ & _ & Hkeys) Ha Ha'.
  assert (evolves same_appointment (λ _, True) st (run rs st)) as [_ Hdocs].
  { apply run_preserves; [|apply evolves_refl; apply _].
    intros r st'. by apply serve_tracks_appointments. }
  specialize (Hdocs i a' Ha'). simpl in Hdocs. by rewrite Ha in Hdocs.
Qed.

End appointments_kept.

Section users_evolve.
Context `{Collaborators}.
Context (st0 : Store).
Hypothesis keys0 : ∀ i u, users st0 !! i = Some u → (i < next_oid st0)%nat.

Local Abbreviation tracked :=
  (evolves same_user (λ u, role u ≠ admin) st0).

Lemma ok_user i (x x' : User) :
  match users st0 !! i with
  | Some u => same_user u x
  | None => role x ≠ admin
  end →
  same_user x x' →
  match users st0 !! i with
  | Some u => same_user u x'
  | None => role x' ≠ admin
  end.
Proof.
  intros Hx Hstep.
  refine (ok_step same_user (λ u, role u ≠ admin) st0 _ i x x' Hx Hstep).
  intros u u' Hu (_ & _ & _ & Hrole & _). by rewrite Hrole.
Qed.

Lemma register_tracks_users salt now b :
  preserves tracked (register_handler salt now b).
Proof.
  unfold register_handler. evolve keys0.
  all: simpl; by destruct (endsWith _ _).
Qed.

Lemma login_tracks_users b : preserves tracked (login_handler b).
Proof. unfold login_handler. evolve keys0. Qed.

Lemma approve_tracks_users uid : preserves tracked (approve_handler uid).
Proof.
  unfold approve_handler. evolve keys0.
  eapply ok_user; [eassumption|]. by split_and!.
Qed.

Lemma delete_tracks_users caller uid :
  preserves tracked (delete_user_handler caller uid).
Proof. unfold delete_user_handler. evolve keys0. Qed.

Lemma profile_tracks_users caller now b :
  preserves tracked (profile_handler caller now b).
Proof. unfold profile_handler. evolve keys0. Qed.

Lemma book_tracks_users caller now b :
  preserves tracked (book_handler caller now b).
Proof. unfold book_handler. evolve keys0. Qed.

Lemma cancel_tracks_users caller i :
  preserves tracked (cancel_handler caller i).
Proof. unfold cancel_handler. evolve keys0. Qed.

Lemma pay_tracks_users caller i b :
  preserves tracked (pay_handler caller i b).
Proof. unfold pay_handler. evolve keys0. Qed.

Lemma status_tracks_users caller i b :
  preserves tracked (status_handler caller i b).
Proof. unfold status_handler. evolve keys0. Qed.

Lemma serve_tracks_users (r : Request) (st : Store) :
  tracked st → tracked (serve r st).1.
Proof.
  apply serve_preserves;
    auto using register_tracks_users, login_tracks_users,
      approve_tracks_users, delete_tracks_users, profile_tracks_users,
      status_tracks_users, book_tracks_users, cancel_tracks_users,
      pay_tracks_users.
Qed.

End users_evolve.

Section profiles_evolve.
Context `{Collaborators}.
Context (R : DoctorProfile → DoctorProfile → Prop) (st0 : Store).
Context `{!Reflexive R, !Transitive R}.
Hypothesis R_details :
  ∀ s cn ad ph p, R p (Profile_set_details s cn ad ph p).
Hypothesis keys0 :
  ∀ i p, profiles st0 !! i = Some p → (i < next_oid st0)%nat.

Local Abbreviation tracked := (evolves R (λ _, True) st0).

Lemma ok_profile i (x x' : DoctorProfile) :
  match profiles st0 !! i with
  | Some p => R p x
  | None => True
  end →
  R x x' →
  match profiles st0 !! i with
  | Some p => R p x'
  | None => True
  end.
Proof.
  intros Hx Hstep.
  exact (ok_step R (λ _, True) st0 (λ _ _ _ _, I) i x x' Hx Hstep).
Qed.

Lemma register_tracks_profiles salt now b :
  preserves tracked (register_handler salt now b).
Proof. unfold register_handler. evolve keys0. Qed.

Lemma login_tracks_profiles b : preserves tracked (login_handler b).
Proof. unfold login_handler. evolve keys0. Qed.

Lemma approve_tracks_profiles uid :
  (∀ p, R p (Profile_set_isApproved true p)) →
  preserves tracked (approve_handler uid).
Proof.
  intros R_approve. unfold approve_handler. evolve keys0.
  eapply ok_profile; [eassumption|]. apply R_approve.
Qed.

Lemma delete_tracks_profiles caller uid :
  preserves tracked (delete_user_handler caller uid).
Proof. unfold delete_user_handler. evolve keys0. Qed.

Lemma profile_tracks_profiles caller now b :
  preserves tracked (profile_handler caller now b).
Proof.
  unfold profile_handler. evolve keys0.
  eapply ok_profile; [eassumption|]. apply R_details.
Qed.

Lemma book_tracks_profiles caller now b :
  preserves tracked (book_handler caller now b).
Proof. unfold book_handler. evolve keys0. Qed.

Lemma cancel_tracks_profiles caller i :
  preserves tracked (cancel_handler caller i).
Proof. unfold cancel_handler. evolve keys0. Qed.

Lemma pay_tracks_profiles caller i b :
  preserves tracked (pay_handler caller i b).
Proof. unfold pay_handler. evolve keys0. Qed.

Lemma status_tracks_profiles caller i b :
  preserves tracked (status_handler caller i b).
Proof. unfold status_handler. evolve keys0. Qed.

Lemma serve_tracks_profiles (r : Request) (st : Store) :
  (∀ uid, preserves tracked (approve_handler uid)) →
  tracked st → tracked (serve r st).1.
Proof.
  intros Happrove. apply serve_preserves;
    auto using register_tracks_profiles, login_tracks_profiles,
      delete_tracks_profiles, profile_tracks_profiles,
      status_tracks_profiles, book_tracks_profiles, cancel_tracks_profiles,
      pay_tracks_profiles.
Qed.

Lemma serve_tracks_profiles_other (r : Request) (st : Store) :
  (∀ token uid, r ≠ Approve token uid) →
  tracked st → tracked (serve r st).1.
Proof.
  intros Hr Hst. destruct r; simpl.
  - unfold POST_register. rewrite try_catch_store.
    by apply register_tracks_profiles.
  - unfold POST_login. rewrite try_catch_store.
    by apply login_tracks_profiles.
  - by destruct (Hr token user_id).
  - apply (route_preserves _ _ isAdmin
             (λ u, delete_user_handler u user_id));
      auto using isAdmin_gate, delete_tracks_profiles.
  - apply (route_preserves _ _ isDoctor (λ u, profile_handler u now b));
      auto using isDoctor_gate, profile_tracks_profiles.
  - apply (route_preserves _ _ isDoctor
             (λ u, status_handler u appointment_id b));
      auto using isDoctor_gate, status_tracks_profiles.
  - apply (route_preserves _ _ isCustomer (λ u, book_handler u now b));
      auto using isCustomer_gate, book_tracks_profiles.
  - apply (route_preserves _ _ isCustomer
             (λ u, cancel_handler u appointment_id));
      auto using isCustomer_gate, cancel_tracks_profiles.
  - apply (route_preserves _ _ isCustomer
             (λ u, pay_handler u appointment_id b));
      auto using isCustomer_gate, pay_tracks_profiles.
Qed.

End profiles_evolve.

Global Instance same_approval_refl : Reflexive same_approval.
Proof. by intros p. Qed.
Global Instance same_approval_trans : Transitive same_approval.
Proof. unfold same_approval. intros p q r ? ?. congruence. Qed.

Section users_and_profiles_kept.
Context `{Collaborators}.

(** X11: what a stored user keeps.  Through any sequence of requests, a
    user that is still stored has the username, the email, the password
    hash, the role and the creation date it had, and an approved user
    stays approved; a user created on the way is not an admin.  No route
    changes a role, and no route makes an admin. *)
Theorem user_keeps_identity (rs : list Request) (st : Store) i u' :
  oids_below st →
  users (run rs st) !! i = Some u' →
  (∀ u, users st !! i = Some u →
     username u' = username u ∧ email u' = email u
     ∧ password u' = password u ∧ role u' = role u ∧ u_date u' = u_date u
     ∧ (u_isApproved u = true → u_isApproved u' = true))
  ∧ (users st !! i = None → role u' ≠ admin).
Proof.
  intros (Hkeys & _ & _) Hu'.
  assert (evolves same_user (λ u, role u ≠ admin) st (run rs st))
    as [_ Hdocs].
  { apply run_preserves; [|apply evolves_refl; apply _].
    intros r st'. by apply serve_tracks_users. }
  specialize (Hdocs i u' Hu'). simpl in Hdocs.
  split; [intros u Hu | intros Hu]; by rewrite Hu in Hdocs.
Qed.

(** X12: what a stored profile keeps.  Through any sequence of requests,
    a profile that is still stored belongs to the user it belonged to,
    and an approved profile stays approved: no route reassigns a profile
    or revokes an approval. *)
Theorem profile_keeps_user_and_approval (rs : list Request) (st : Store)
    i p p' :
  oids_below st →
  profiles st !! i = Some p →
  profiles (run rs st) !! i = Some p' →
  user p' = user p ∧ p_date p' = p_date p
  ∧ (p_isApproved p = true → p_isApproved p' = true).
Proof.
  intros (_ & Hkeys & _) Hp Hp'.
  assert (∀ j q, profiles st !! j = Some q → (j < next_oid st)%nat) as Hk.
  { intros j q Hq. by apply (Hkeys j q Hq). }
  assert (∀ s cn ad ph q, same_profile q (Profile_set_details s cn ad ph q))
    as Hd by (intros; by split_and!).
  assert (evolves same_profile (λ _, True) st (run rs st)) as [_ Hdocs].
  { apply run_preserves; [|apply evolves_refl; apply _].
    intros r st'.
    apply serve_tracks_profiles; try first [exact Hd | exact Hk | apply _].
    intros uid.
    apply approve_tracks_profiles; try first [exact Hk | apply _].
    intros q. by split_and!. }
  specialize (Hdocs i p' Hp'). simpl in Hdocs. by rewrite Hp in Hdocs.
Qed.

(** X13: approval is granted by an admin and by nobody else.  When a
    request turns a stored, unapproved profile into an approved one, the
    request is the approval of that profile's user, it carries the token
    of an admin, and the user is stored with role doctor. *)
Theorem approval_only_by_admin (r : Request) (st : Store) i p p' :
  oids_below st →
  profiles st !! i = Some p → profiles (serve r st).1 !! i = Some p' →
  p_isApproved p = false → p_isApproved p' = true →
  ∃ token u d,
    r = Approve token (user p) ∧ bearer token u ∧ r_role u = admin
    ∧ users st !! user p = Some d ∧ role d = doctor.
Proof.
  intros (_ & Hkeys & _) Hp Hp' Hno Hyes.
  assert (∀ j q, profiles st !! j = Some q → (j < next_oid st)%nat) as Hk.
  { intros j q Hq. by apply (Hkeys j q Hq). }
  assert ((∀ token uid, r ≠ Approve token uid) → False) as Hr.
  { intros Hother.
    assert (evolves same_approval (λ _, True) st (serve r st).1)
      as [_ Hdocs].
    { apply serve_tracks_profiles_other;
        try first [exact Hk | exact Hother | apply _].
      - by intros.
      - apply evolves_refl; apply _. }
    specialize (Hdocs i p' Hp'). simpl in Hdocs. rewrite Hp in Hdocs.
    unfold same_approval in Hdocs. congruence. }
  destruct r; try (destruct Hr; intros; discriminate).
  clear Hr. simpl in Hp'. unfold PUT_approve, auth in Hp'.
  destruct (truthy token) eqn:Htok; simpl in Hp'; [|congruence].
  destruct (jwt_verify (interpolate token)) as [u|] eqn:Hverify;
    [|simpl in Hp'; congruence].
  unfold isAdmin in Hp'. case_decide as Hadmin; [|simpl in Hp'; congruence].
  unfold try_catch, approve_handler, bind, findById, findOne, gets, save
    in Hp'.
  simpl in Hp'.
  destruct (users st !! user_id) as [d|] eqn:Hd;
    [|simpl in Hp'; congruence].
  case_decide as Hrole; [simpl in Hp'; congruence|].
  destruct (find_first _ (profiles st)) as [[j q]|] eqn:Hfind;
    [|simpl in Hp'; congruence].
  apply find_first_Some in Hfind as [Hq Huser]. simpl in Huser.
  apply Nat.eqb_eq in Huser. simpl in Hp'.
  destruct (_ && _); simpl in Hp'; [|congruence].
  destruct (nonempty (specialty q)); simpl in Hp'; [|congruence].
  rewrite lookup_insert in Hp'. case_decide as Hj; [|congruence].
  subst j. assert (q = p) as -> by congruence. subst user_id.
  exists token, u, d. by split_and!.
Qed.

End users_and_profiles_kept.

(** ** A registered name stays taken *)

Section registered_names.
Context `{Collaborators}.

(** X7: after a successful registration, and whatever requests are
    served afterwards, as long as the registered user is still stored
    every registration with the same email or with the same username is
    answered 400 [User already exists] and writes nothing: no route
    changes the email or the username of a stored user. *)
Theorem register_twice_refused (st : Store) salt now b
    (rs : list Request) salt' now' b' :
  oids_below st → (∀ p s, bcrypt_hash p s ≠ "") →
  code (POST_register salt now b st).2 = OK →
  is_Some (users (run rs (POST_register salt now b st).1) !! next_oid st) →
  rb_email b' = rb_email b ∨ rb_username b' = rb_username b →
  POST_register salt' now' b' (run rs (POST_register salt now b st).1)
  = (run rs (POST_register salt now b st).1,
     status_json BadRequest (Msg "User already exists")).
Proof.
  intros Hbelow Hhash.
  destruct (POST_register salt now b st) as [st1 r1] eqn:Hreg. simpl.
  intros Hok [u' Hu'] Hsame.
  destruct (register_ok_inv st salt now b Hbelow Hhash) as
    (un & em & pw & -> & Hun & Hem & Hfree & Hfresh);
    [by rewrite Hreg|].
  rewrite register_accepted in Hreg by done.
  injection Hreg as Hst1 _.
  assert (users st1 !! next_oid st
          = Some (mkUser un em (bcrypt_hash pw salt)
                    (if endsWith em doctor_marker then doctor else customer)
                    (if endsWith em doctor_marker then false else true)
                    now)) as Hnew.
  { rewrite <- Hst1. simpl. apply lookup_insert_eq. }
  assert (∀ i u, users st1 !! i = Some u → (i < next_oid st1)%nat) as Hkeys.
  { rewrite <- Hst1. simpl. intros i u. rewrite lookup_insert.
    destruct Hbelow as (Husers & _).
    case_decide as Hi.
    - intros _. subst i. destruct (endsWith em doctor_marker); lia.
    - intros Hu. apply Husers in Hu.
      destruct (endsWith em doctor_marker); lia. }
  assert (evolves same_user (λ u, role u ≠ admin) st1 (run rs st1))
    as [_ Hdocs].
  { apply run_preserves; [|apply evolves_refl; apply _].
    intros r st'. by apply serve_tracks_users. }
  specialize (Hdocs _ _ Hu'). simpl in Hdocs. rewrite Hnew in Hdocs.
  destruct Hdocs as (Hn & He & _). simpl in Hn, He.
  unfold POST_register, try_catch, register_handler, bind, findOne, gets.
  simpl.
  match goal with
  | |- context [find_first ?P ?c] =>
      destruct (find_first_is_Some P c (next_oid st) u' Hu') as [kv ->]
  end; [|done].
  simpl. rewrite Hn, He.
  destruct Hsame as [-> | ->]; simpl; rewrite String.eqb_refl;
    [done | apply orb_true_r].
Qed.

End registered_names.

(** ** The unique indexes *)

Lemma users_unique_update (st st' : Store) (i : ObjectId) (u u' : User) :
  users_unique st → users st !! i = Some u →
  email u' = email u → username u' = username u →
  users st' = <[i := u']> (users st) → users_unique st'.
Proof.
  intros Huniq Hu He Hn Hst' j k v w. rewrite Hst'.
  rewrite !lookup_insert. repeat case_decide; subst; intros Hv Hw Heq;
    simplify_eq; try done.
  - symmetry. eapply Huniq; eauto. rewrite <- He, <- Hn.
    destruct Heq; [left|right]; congruence.
  - eapply Huniq; eauto. rewrite <- He, <- Hn. done.
  - eapply Huniq; eauto.
Qed.

Lemma users_unique_insert (st st' : Store) (i : ObjectId) (d : User) :
  users_unique st →
  (∀ j v, users st !! j = Some v →
          email v ≠ email d ∧ username v ≠ username d) →
  users st' = <[i := d]> (users st) → users_unique st'.
Proof.
  intros Huniq Hfree Hst' j k v w. rewrite Hst'.
  rewrite !lookup_insert. repeat case_decide; subst; intros Hv Hw Heq;
    simplify_eq; try done.
  - destruct (Hfree k w Hw). destruct Heq; congruence.
  - destruct (Hfree j v Hv). destruct Heq; congruence.
  - eapply Huniq; eauto.
Qed.

Lemma users_unique_subseteq (st st' : Store) :
  users_unique st → users st' ⊆ users st → users_unique st'.
Proof.
  intros Huniq Hsub j k v w Hv Hw.
  apply (Huniq j k v w); eapply lookup_weaken; eauto.
Qed.

Lemma preserves_insert_new_user (d : User) :
  preserves users_unique (insert_new d).
Proof.
  intros st Hst. unfold insert_new. simpl.
  destruct (users st !! next_oid st); [done|].
  destruct (find_first _ (users st)) eqn:Hfind; [done|]. simpl.
  apply (users_unique_insert st _ (next_oid st) d); [done| |done].
  intros j v Hv. rewrite find_first_None in Hfind.
  specialize (Hfind j v Hv). simpl in Hfind.
  apply orb_false_elim in Hfind as [Hn He].
  apply String.eqb_neq in Hn, He. split; congruence.
Qed.

Lemma preserves_delete_doc_user (i : ObjectId) :
  preserves users_unique (delete_doc (A := User) i).
Proof.
  intros st Hst. simpl.
  apply (users_unique_subseteq st); [done|]. simpl. apply delete_subseteq.
Qed.

Section unique_indexes.
Context `{Collaborators}.

Lemma register_keeps_users_unique salt now b :
  preserves users_unique (register_handler salt now b).
Proof.
  unfold register_handler. preserve.
  all: apply preserves_insert_new_user.
Qed.

Lemma login_keeps_users_unique b : preserves users_unique (login_handler b).
Proof. unfold login_handler. preserve. Qed.

Lemma approve_keeps_users_unique uid :
  preserves users_unique (approve_handler uid).
Proof.
  intros st Hst.
  unfold approve_handler, bind, findById, findOne, gets, save. simpl.
  destruct (users st !! uid) as [u|] eqn:Hu; [|done].
  case_decide; [done|].
  destruct (find_first _ (profiles st)) as [[i p]|]; [|done]. simpl.
  destruct (_ && _); simpl; [|done].
  destruct (nonempty (specialty p)); simpl.
  all: by apply (users_unique_update st _ uid u (User_set_isApproved true u)).
Qed.

Lemma delete_keeps_users_unique caller uid :
  preserves users_unique (delete_user_handler caller uid).
Proof.
  unfold delete_user_handler. preserve.
  all: apply preserves_delete_doc_user.
Qed.

Lemma profile_keeps_users_unique caller now b :
  preserves users_unique (profile_handler caller now b).
Proof. unfold profile_handler. preserve. Qed.

Lemma book_keeps_users_unique caller now b :
  preserves users_unique (book_handler caller now b).
Proof. unfold book_handler. preserve. Qed.

Lemma cancel_keeps_users_unique caller i :
  preserves users_unique (cancel_handler caller i).
Proof. unfold cancel_handler. preserve. Qed.

Lemma status_keeps_users_unique caller i b :
  preserves users_unique (status_handler caller i b).
Proof. unfold status_handler. preserve. Qed.

Lemma pay_keeps_users_unique caller i b :
  preserves users_unique (pay_handler caller i b).
Proof. unfold pay_handler. preserve. Qed.

(** X14: the unique indexes hold.  In a database where no two users
    share an email or a username and no two profiles share a user, this
    is still so after any sequence of requests: the duplicate check of
    the registration and the indexes of the schemas keep it. *)
Theorem unique_indexes_kept (rs : list Request) (st : Store) :
  users_unique st → profile_user_unique st →
  users_unique (run rs st) ∧ profile_user_unique (run rs st).
Proof.
  intros Husers Hprofiles. split.
  - apply run_preserves; [|done].
    apply serve_preserves;
      auto using register_keeps_users_unique, login_keeps_users_unique,
        approve_keeps_users_unique, delete_keeps_users_unique,
        profile_keeps_users_unique, status_keeps_users_unique,
        book_keeps_users_unique, cancel_keeps_users_unique,
        pay_keeps_users_unique.
  - apply run_preserves; [|done].
    intros r st'. apply serve_profile_user_unique.
Qed.

End unique_indexes.

(** ** The read routes *)

Section read_routes.
Context `{Collaborators}.

Lemma auth_read_bearer token u next st :
  bearer token u → auth_read token next st = next u st.
Proof. intros [Ht Hv]. unfold auth_read. by rewrite Ht, Hv. Qed.

(** X15: reading writes nothing.  The six read routes and the login leave
    the database as it is, whatever the request and whatever the reply. *)
Theorem reads_write_nothing token (st : Store) :
  (GET_user token st).1 = st
  ∧ (GET_users token st).1 = st
  ∧ (GET_doctors token st).1 = st
  ∧ (GET_my_appointments token st).1 = st
  ∧ (GET_my_profile token st).1 = st
  ∧ (GET_doctor_appointments token st).1 = st
  ∧ ∀ b, (POST_login b st).1 = st.
Proof.
  unfold GET_user, GET_users, GET_doctors, GET_my_appointments,
    GET_my_profile, GET_doctor_appointments, auth_read, isAdmin_read,
    isDoctor_read, isCustomer_read.
  split_and!;
    try (destruct (negb (truthy token)); [done|];
         destruct (jwt_verify (interpolate token)) as [u|]; [|done];
         try (case_decide; [|done]); simpl).
  - done.
  - done.
  - done.
  - done.
  - unfold try_catch_read, my_profile_handler, bind, findOne, gets. simpl.
    by destruct (find_first _ (profiles st)).
  - done.
  - intros b.
    unfold POST_login, try_catch, login_handler, bind, findOne, gets. simpl.
    destruct (find_first _ (users st)) as [[i u]|]; [|done].
    destruct (lb_password b) as [p|]; simpl; [|done].
    by destruct (bcrypt_compare p (password u)).
Qed.

(** The doctors a customer is shown. *)
Lemma doctors_listing token u (st : Store) :
  bearer token u → r_role u = customer ∨ r_role u = admin →
  ∃ l,
    (GET_doctors token st).2 = Found (DoctorsBody l)
    ∧ ∀ j p pu,
        (j, p, pu) ∈ l ↔
        profiles st !! j = Some p ∧ p_isApproved p = true
        ∧ pu = populate false st (user p).
Proof.
  intros Hb Hr. unfold GET_doctors.
  rewrite (auth_read_bearer _ _ _ _ Hb). unfold isCustomer_read.
  rewrite decide_True by done. simpl. eexists. split; [done|].
  intros j p pu. rewrite list_elem_of_fmap. split.
  - intros ([j' p'] & [= -> -> ->] & Hin).
    apply list_elem_of_In, filter_In in Hin as [Hin Happ].
    apply list_elem_of_In, elem_of_in_order in Hin. done.
  - intros (Hp & Happ & ->). exists (j, p). split; [done|].
    apply list_elem_of_In, filter_In. split; [|done].
    by apply list_elem_of_In, elem_of_in_order.
Qed.

(** X16: the list of doctors and the booking agree.  A customer is shown
    exactly the approved profiles, each with the username and email of
    its user; and a booking is refused with 400 exactly when the target
    doctor is not on that list. *)
Theorem listed_doctors_are_bookable token u now b (st : Store) :
  bearer token u → r_role u = customer ∨ r_role u = admin →
  profile_user_unique st →
  ∃ l,
    (GET_doctors token st).2 = Found (DoctorsBody l)
    ∧ (∀ j p pu,
         (j, p, pu) ∈ l ↔
         profiles st !! j = Some p ∧ p_isApproved p = true
         ∧ pu = populate false st (user p))
    ∧ (code (POST_book token now b st).2 = BadRequest ↔
       ¬ ∃ j p pu, (j, p, pu) ∈ l ∧ user p = bb_doctorId b).
Proof.
  intros Hb Hr Huniq.
  destruct (doctors_listing token u st Hb Hr) as (l & Hl & Hin).
  exists l. split; [done|]. split; [done|].
  unfold POST_book.
  rewrite (auth_bearer _ _ _ _ Hb), isCustomer_pass by done.
  unfold try_catch, book_handler, bind, findOne, gets. simpl.
  destruct (find_first _ (profiles st)) as [[j p]|] eqn:Hfind.
  - apply find_first_Some in Hfind as [Hp Hu]. simpl in Hu.
    apply Nat.eqb_eq in Hu.
    destruct (p_isApproved p) eqn:Happ; simpl.
    + split.
      * unfold required, insert_new.
        destruct (bb_date b) as [dt|]; [destruct (String.eqb dt "")|];
          simpl; try done;
          (destruct (bb_time b) as [tm|]; [destruct (String.eqb tm "")|];
           simpl; try done);
          repeat case_match; unfold ret in *; simplify_eq/=; done.
      * intros Hnot. destruct Hnot.
        exists j, p, (populate false st (user p)). split; [|done].
        by apply Hin.
    + split; [|done]. intros _ (j' & p' & pu & Hl' & Hu').
      apply Hin in Hl' as (Hp' & Happ' & _).
      assert (j' = j) as -> by (eapply Huniq; eauto; congruence).
      congruence.
  - split; [|done]. intros _ (j' & p' & pu & Hl' & Hu').
    apply Hin in Hl' as (Hp' & _).
    rewrite find_no_profile_of_user in Hfind. by apply (Hfind j' p').
Qed.

Global Instance by_recent_total : Total by_recent.
Proof. intros x y. unfold by_recent. lia. Qed.

Global Instance by_date_time_total : Total by_date_time.
Proof.
  intros x y. unfold by_date_time, String.ltb, String.leb.
  pose proof (String.compare_antisym (date x.2) (date y.2)) as Hd.
  pose proof (String.compare_antisym (time x.2) (time y.2)) as Ht.
  destruct (String.compare (date x.2) (date y.2)) eqn:Hc.
  - apply String.compare_eq_iff in Hc.
    destruct (String.compare (time x.2) (time y.2)).
    + left. right. done.
    + left. right. done.
    + right. right. split; [done|].
      by destruct (String.compare (time y.2) (time x.2)).
  - left. by left.
  - right. left. by destruct (String.compare (date y.2) (date x.2)).
Qed.

(** What a listing of appointments holds: the appointments that satisfy
    the filter, each once and with its populated reference, in the order
    of the sort. *)
Lemma listing_spec (R : relation (ObjectId * Appointment))
    `{∀ x y, Decision (R x y)} `{!Total R}
    (P : ObjectId * Appointment → bool)
    (ref : Appointment → ObjectId) (st : Store) :
  let l :=
    (λ kv, (kv, populate false st (ref kv.2)))
      <$> merge_sort R (find_all P (appointments st)) in
  (∀ i a pu,
     (i, a, pu) ∈ l ↔
     appointments st !! i = Some a ∧ P (i, a) = true
     ∧ pu = populate false st (ref a))
  ∧ Sorted R (l.*1)
  ∧ NoDup (l.*1.*1).
Proof.
  simpl.
  assert (((λ kv : ObjectId * Appointment,
              (kv, populate false st (ref kv.2)))
             <$> merge_sort R (find_all P (appointments st))).*1
          = merge_sort R (find_all P (appointments st))) as Hfst.
  { rewrite <- list_fmap_compose. apply list_fmap_id. }
  rewrite Hfst. split_and!.
  - intros i a pu. rewrite list_elem_of_fmap. split.
    + intros ([i' a'] & [= -> -> ->] & Hin).
      rewrite merge_sort_Permutation in Hin.
      apply list_elem_of_In, filter_In in Hin as [Hin HP].
      apply list_elem_of_In, elem_of_in_order in Hin. done.
    + intros (Ha & HP & ->). exists (i, a). split; [done|].
      rewrite merge_sort_Permutation.
      apply list_elem_of_In, filter_In. split; [|done].
      by apply list_elem_of_In, elem_of_in_order.
  - by apply Sorted_merge_sort.
  - rewrite merge_sort_Permutation. unfold find_all.
    assert (∀ l : list (ObjectId * Appointment),
              NoDup l.*1 → NoDup (List.filter P l).*1) as Hfilter.
    { induction l as [|x l IH]; simpl; [done|].
      rewrite NoDup_cons. intros [Hx Hl].
      destruct (P x); simpl; [|by apply IH].
      apply NoDup_cons. split; [|by apply IH].
      intros Hin. apply Hx.
      apply list_elem_of_fmap in Hin as (y & -> & Hy).
      apply list_elem_of_fmap. exists y. split; [done|].
      apply list_elem_of_In in Hy. apply filter_In in Hy as [Hy _].
      by apply list_elem_of_In. }
    apply Hfilter, NoDup_fst_in_order.
Qed.

(** X17: the appointments a doctor is shown are the appointments of that
    doctor, each once, with the username and email of its customer, in
    the order of date and then time. *)
Theorem doctor_appointments_listing token u (st : Store) :
  bearer token u → r_role u = doctor →
  ∃ l,
    (GET_doctor_appointments token st).2 = Found (AppointmentsBody l)
    ∧ (∀ i a pu,
         (i, a, pu) ∈ l ↔
         appointments st !! i = Some a ∧ a_doctor a = id u
         ∧ pu = populate false st (a_customer a))
    ∧ Sorted by_date_time (l.*1)
    ∧ NoDup (l.*1.*1).
Proof.
  intros Hb Hr. unfold GET_doctor_appointments.
  rewrite (auth_read_bearer _ _ _ _ Hb). unfold isDoctor_read.
  rewrite decide_True by done. simpl. eexists. split; [done|].
  destruct (listing_spec by_date_time
              (λ kv, Nat.eqb (a_doctor kv.2) (id u)) a_customer st)
    as (Hin & Hsorted & Hnodup).
  split_and!; [|done|done].
  intros i a pu. rewrite Hin. simpl. by rewrite Nat.eqb_eq.
Qed.

(** X18: the appointments a customer is shown are the appointments of
    that customer, each once, with the username and email of its doctor,
    the most recently created first. *)
Theorem my_appointments_listing token u (st : Store) :
  bearer token u → r_role u = customer ∨ r_role u = admin →
  ∃ l,
    (GET_my_appointments token st).2 = Found (AppointmentsBody l)
    ∧ (∀ i a pu,
         (i, a, pu) ∈ l ↔
         appointments st !! i = Some a ∧ a_customer a = id u
         ∧ pu = populate false st (a_doctor a))
    ∧ Sorted by_recent (l.*1)
    ∧ NoDup (l.*1.*1).
Proof.
  intros Hb Hr. unfold GET_my_appointments.
  rewrite (auth_read_bearer _ _ _ _ Hb). unfold isCustomer_read.
  rewrite decide_True by done. simpl. eexists. split; [done|].
  destruct (listing_spec by_recent
              (λ kv, Nat.eqb (a_customer kv.2) (id u)) a_doctor st)
    as (Hin & Hsorted & Hnodup).
  split_and!; [|done|done].
  intros i a pu. rewrite Hin. simpl. by rewrite Nat.eqb_eq.
Qed.

End read_routes.

(** ** Deleted users and the tokens they leave behind *)

Section after_deletion.
Context `{Collaborators}.

(** The database after the deletion of a user who is neither an admin
    nor the caller. *)
Lemma delete_user_result token u uid d (st : Store) :
  bearer token u → r_role u = admin → profile_user_unique st →
  users st !! uid = Some d → role d ≠ admin → uid ≠ id u →
  let st1 := (DELETE_user token uid st).1 in
  users st1 = delete uid (users st)
  ∧ (role d = doctor →
     profiles st1 = filter (λ kv, user kv.2 ≠ uid) (profiles st)).
Proof.
  intros Hb Hr Huniq Hd Hrole Hne. unfold DELETE_user.
  rewrite (auth_bearer _ _ _ _ Hb), isAdmin_pass by done.
  unfold try_catch, delete_user_handler, bind, findById, gets. simpl.
  rewrite Hd.
  destruct (role d) eqn:Hrd; simpl; repeat (case_decide; simpl);
    try done.
  destruct (find_first _ (profiles st)) as [[j p]|] eqn:Hfind; simpl;
    (split; [done|]); intros _.
  - apply find_first_Some in Hfind as [Hj Hp]. simpl in Hp.
    apply Nat.eqb_eq in Hp. subst uid.
    by apply delete_profile_of_user.
  - rewrite find_no_profile_of_user in Hfind. symmetry.
    apply map_filter_id. intros j p Hj. by apply (Hfind j p).
Qed.

(** X19: a deleted user is gone.  After an admin has deleted a user, a
    login with that user's email is answered 400 [Invalid Credentials]
    whatever the password, and, when the user was a doctor, every booking
    against that doctor is answered 400. *)
Theorem deleted_user_is_gone token u uid d (st : Store) :
  bearer token u → r_role u = admin →
  users_unique st → profile_user_unique st →
  users st !! uid = Some d → role d ≠ admin → uid ≠ id u →
  let st1 := (DELETE_user token uid st).1 in
  users st1 !! uid = None
  ∧ (∀ pw,
       POST_login (mkLoginBody (Some (email d)) (Some pw)) st1
       = (st1, status_json BadRequest (Msg "Invalid Credentials")))
  ∧ (role d = doctor →
     ∀ t v now b,
       bearer t v → r_role v = customer ∨ r_role v = admin →
       bb_doctorId b = uid →
       POST_book t now b st1
       = (st1, status_json BadRequest
                 (Msg "Doctor not found or not yet approved."))).
Proof.
  intros Hb Hr Husers Hprofiles Hd Hrole Hne.
  destruct (delete_user_result token u uid d st) as [Hus Hps]; try done.
  simpl. split_and!.
  - rewrite Hus. apply lookup_delete_eq.
  - intros pw.
    unfold POST_login, try_catch, login_handler, bind, findOne, gets. simpl.
    rewrite Hus.
    assert (find_first
              (λ kv : ObjectId * User, String.eqb (email d) (email kv.2))
              (delete uid (users st)) = None) as ->; [|done].
    apply find_first_None. intros j v Hv. simpl.
    apply lookup_delete_Some in Hv as [Hj Hv].
    apply String.eqb_neq. intros He. apply Hj.
    apply (Husers uid j d v); auto.
  - intros Hdoc t v now b Ht Hv Hb'. unfold POST_book.
    rewrite (auth_bearer _ _ _ _ Ht), isCustomer_pass by done.
    unfold try_catch, book_handler, bind, findOne, gets. simpl.
    rewrite (Hps Hdoc), Hb'.
    assert (find_first
              (λ kv : ObjectId * DoctorProfile, Nat.eqb (user kv.2) uid)
              (filter (λ kv, user kv.2 ≠ uid) (profiles st)) = None)
      as ->; [|done].
    apply find_first_None. intros j p Hp. simpl.
    apply map_lookup_filter_Some in Hp as [_ Hp]. by apply Nat.eqb_neq.
Qed.

(** X20: the routes trust the token.  [GET api/auth/user] answers 200
    with the caller's record without the password, and 200 with [null]
    when no user is stored under the token's id; and a customer's token
    whose user is not stored still books an appointment, with that id as
    customer. *)
Theorem token_outlives_user t v (st : Store) :
  bearer t v →
  (∀ d, users st !! id v = Some d →
     GET_user t st
     = (st, Found (UserBody
                     (Some (mkPublicUser (id v) (username d) (email d)
                              (role d) (u_isApproved d) (u_date d))))))
  ∧ (users st !! id v = None →
     GET_user t st = (st, Found (UserBody None))
     ∧ (r_role v = customer → oids_below st → profile_user_unique st →
        ∀ now b j p dt tm,
          profiles st !! j = Some p → user p = bb_doctorId b →
          p_isApproved p = true →
          bb_date b = Some dt → dt ≠ "" → bb_time b = Some tm → tm ≠ "" →
          ∃ a,
            code (POST_book t now b st).2 = Created
            ∧ appointments (POST_book t now b st).1 !! next_oid st = Some a
            ∧ a_customer a = id v)).
Proof.
  intros Hb. unfold GET_user. rewrite (auth_read_bearer _ _ _ _ Hb).
  unfold try_catch_read, user_handler, bind, findById, gets. simpl.
  split; [by intros d ->|].
  intros Hnone. rewrite Hnone. split; [done|].
  intros Hr (_ & _ & Hkeys) Huniq now b j p dt tm Hp Hu Happ Hd Hdt Ht Htm.
  unfold POST_book.
  rewrite (auth_bearer _ _ _ _ Hb), isCustomer_pass by auto.
  unfold try_catch, book_handler, bind, findOne, gets. simpl.
  rewrite <- Hu, (find_profile_of_user st j p Huniq Hp). simpl.
  rewrite Happ, Hd, Ht. simpl.
  rewrite (proj2 (String.eqb_neq dt "") Hdt).
  rewrite (proj2 (String.eqb_neq tm "") Htm). simpl.
  rewrite insert_new_fresh; simpl.
  - eexists. split; [done|]. split; [apply lookup_insert_eq|done].
  - destruct (appointments st !! next_oid st) eqn:Hl; [|done].
    apply Hkeys in Hl. lia.
  - done.
Qed.

End after_deletion.

(** ** The model at work on the sample database *)

#[local] Existing Instance Sample.collaborators.

(** Case analysis on a lookup in one of the sample collections. *)
Ltac sample_lookup H :=
  apply elem_of_map_to_list, list_elem_of_In in H; vm_compute in H;
  repeat (destruct H as [[= <- <-]|H]); [..|destruct H].

Lemma sample_oids_below : oids_below Sample.db.
Proof.
  unfold oids_below. split_and!; intros i x Hx; sample_lookup Hx;
    simpl; lia.
Qed.

Lemma sample_profile_user_unique : profile_user_unique Sample.db.
Proof.
  intros i j p q Hp Hq Heq. sample_lookup Hp; sample_lookup Hq; done.
Qed.

Lemma sample_hash_nonempty (p s : string) : bcrypt_hash p s ≠ "".
Proof.
  simpl. destruct s as [|c s]; simpl; discriminate.
Qed.

Lemma sample_bearer_root : bearer (Some "root.jwt") Sample.root_user.
Proof. by split. Qed.

Lemma sample_bearer_who : bearer (Some "who.jwt") Sample.who_user.
Proof. by split. Qed.

Lemma sample_bearer_amy : bearer (Some "amy.jwt") Sample.amy_user.
Proof. by split. Qed.

Lemma sample_bearer_strange : bearer (Some "strange.jwt") Sample.strange_user.
Proof. by split. Qed.

Example scenario_ends_scheduled_and_paid :
  map_to_list (appointments (run Sample.scenario empty_store))
  = [(3, mkAppointment 2 0 "2025-06-24" "10:00" [] None false
           scheduled paid 3)].
Proof. vm_compute. reflexivity. Qed.

(** *** Registration (C1) *)

Lemma register_assigns_role_witness :
  oids_below Sample.db
  ∧ (∀ p s, bcrypt_hash p s ≠ "")
  ∧ let (st', r) := POST_register "s9" 10 Sample.bob_body Sample.db in
    let uid := next_oid Sample.db in
    (code r = OK ↔
       truthy (rb_username Sample.bob_body) = true
       ∧ truthy (rb_email Sample.bob_body) = true
       ∧ is_Some (rb_password Sample.bob_body)
       ∧ ∀ i u, users Sample.db !! i = Some u →
                rb_email Sample.bob_body ≠ Some (email u)
                ∧ rb_username Sample.bob_body ≠ Some (username u))
    ∧ (code r ≠ OK → st' = Sample.db)
    ∧ (code r = OK →
       ∃ u,
         users Sample.db !! uid = None
         ∧ users st' = <[uid := u]> (users Sample.db)
         ∧ rb_username Sample.bob_body = Some (username u)
         ∧ rb_email Sample.bob_body = Some (email u)
         ∧ (role u = doctor ↔ ∃ prefix, email u = prefix ++ doctor_marker)
         ∧ (role u = customer ↔
              ¬ ∃ prefix, email u = prefix ++ doctor_marker)
         ∧ (role u = doctor →
            u_isApproved u = false
            ∧ profiles Sample.db !! S uid = None
            ∧ (∀ j p, profiles Sample.db !! j = Some p → user p ≠ uid)
            ∧ profiles st'
              = <[S uid := mkDoctorProfile uid "Not specified" None None None
                             false 10]> (profiles Sample.db))
         ∧ (role u = customer →
            u_isApproved u = true ∧ profiles st' = profiles Sample.db)).
Proof.
  split; [exact sample_oids_below|].
  split; [exact sample_hash_nonempty|].
  exact (register_assigns_role Sample.db "s9" 10 Sample.bob_body
           sample_oids_below sample_hash_nonempty).
Defined.

Example register_doctor_on_sample :
  let (st', r) := POST_register "s9" 10 Sample.bob_body Sample.db in
  code r = OK
  ∧ users st' !! 9
    = Some (mkUser "bob" "bob@chetan.doctor" "s9$pw" doctor false 10)
  ∧ profiles st' !! 10
    = Some (mkDoctorProfile 9 "Not specified" None None None false 10).
Proof. vm_compute. done. Qed.

Example register_customer_on_sample :
  let (st', r) :=
    POST_register "s9" 10
      (mkRegisterBody (Some "rory") (Some "rory@example.com") (Some "pw"))
      Sample.db in
  code r = OK
  ∧ users st' !! 9
    = Some (mkUser "rory" "rory@example.com" "s9$pw" customer true 10)
  ∧ profiles st' = profiles Sample.db.
Proof. vm_compute. done. Qed.

Example register_taken_on_sample :
  POST_register "s9" 10 Sample.amy_body Sample.db
  = (Sample.db, status_json BadRequest (Msg "User already exists")).
Proof. vm_compute. done. Qed.

(** *** Login (C7) *)

(** C7, the status of a refused login: it is 400, which is BadRequest and
    not Unauthorized, both for an unknown email and for a wrong
    password. *)
Lemma login_refusal_is_not_unauthorized :
  (∀ i u, users Sample.db !! i = Some u →
          lb_email Sample.nobody_login ≠ Some (email u))
  ∧ users Sample.db !! 2 = Some Sample.amy
  ∧ lb_email Sample.wrong_login = Some (email Sample.amy)
  ∧ bcrypt_compare "river" (password Sample.amy) = false
  ∧ code (POST_login Sample.nobody_login Sample.db).2 = BadRequest
  ∧ code (POST_login Sample.wrong_login Sample.db).2 = BadRequest
  ∧ code (POST_login Sample.nobody_login Sample.db).2 ≠ Unauthorized
  ∧ code (POST_login Sample.wrong_login Sample.db).2 ≠ Unauthorized.
Proof.
  split_and!; try (vm_compute; done).
  intros i u Hu. sample_lookup Hu; done.
Qed.

Lemma login_failures_indistinguishable_witness :
  (∀ i u, users Sample.db !! i = Some u →
          lb_email Sample.nobody_login ≠ Some (email u))
  ∧ (∃ i u, users Sample.db !! i = Some u ∧ email u = "amy@example.com")
  ∧ (∀ i u, users Sample.db !! i = Some u → email u = "amy@example.com" →
            bcrypt_compare "river" (password u) = false)
  ∧ POST_login Sample.nobody_login Sample.db
    = (Sample.db, status_json BadRequest (Msg "Invalid Credentials"))
  ∧ POST_login (mkLoginBody (Some "amy@example.com") (Some "river"))
      Sample.db
    = (Sample.db, status_json BadRequest (Msg "Invalid Credentials"))
  ∧ POST_login Sample.nobody_login Sample.db
    = POST_login (mkLoginBody (Some "amy@example.com") (Some "river"))
        Sample.db.
Proof.
  assert (∀ i u, users Sample.db !! i = Some u →
                 lb_email Sample.nobody_login ≠ Some (email u)) as H1.
  { intros i u Hu. sample_lookup Hu; done. }
  assert (∃ i u, users Sample.db !! i = Some u
                 ∧ email u = "amy@example.com") as H2.
  { exists 2, Sample.amy. by split. }
  assert (∀ i u, users Sample.db !! i = Some u →
                 email u = "amy@example.com" →
                 bcrypt_compare "river" (password u) = false) as H3.
  { intros i u Hu He. sample_lookup Hu; done. }
  split; [exact H1|]. split; [exact H2|]. split; [exact H3|].
  exact (login_failures_indistinguishable Sample.db Sample.nobody_login
           "amy@example.com" "river" H1 H2 H3).
Defined.

(** *** Approval and deletion (C3, C6) *)

Lemma approve_doctor_witness :
  bearer (Some "root.jwt") Sample.root_user
  ∧ r_role Sample.root_user = admin
  ∧ profile_user_unique Sample.db
  ∧ valid Sample.who = true
  ∧ valid Sample.who_profile = true
  ∧ let (st', r) := PUT_approve (Some "root.jwt") 1 Sample.db in
    (∀ u j p,
       users Sample.db !! 1 = Some u → role u = doctor →
       profiles Sample.db !! j = Some p → user p = 1 →
       (valid u = true → valid p = true →
          code r = OK
          ∧ st' = mkStore
                    (<[1 := mkUser (username u) (email u) (password u)
                              (role u) true (u_date u)]> (users Sample.db))
                    (<[j := mkDoctorProfile (user p) (specialty p)
                              (clinicName p) (address p) (phone p) true
                              (p_date p)]> (profiles Sample.db))
                    (appointments Sample.db) (next_oid Sample.db))
       ∧ (valid u = false → code r = InternalServerError ∧ st' = Sample.db)
       ∧ (valid u = true → valid p = false →
          code r = InternalServerError
          ∧ st' = mkStore
                    (<[1 := mkUser (username u) (email u) (password u)
                              (role u) true (u_date u)]> (users Sample.db))
                    (profiles Sample.db) (appointments Sample.db)
                    (next_oid Sample.db)))
    ∧ (users Sample.db !! 1 = None
       ∨ (∃ u, users Sample.db !! 1 = Some u ∧ role u ≠ doctor)
       ∨ (∀ j p, profiles Sample.db !! j = Some p → user p ≠ 1) →
       code r = NotFound ∧ st' = Sample.db).
Proof.
  split; [exact sample_bearer_root|]. split; [reflexivity|].
  split; [exact sample_profile_user_unique|].
  split; [reflexivity|]. split; [reflexivity|].
  exact (approve_doctor Sample.db (Some "root.jwt") Sample.root_user 1
           sample_bearer_root eq_refl sample_profile_user_unique).
Defined.

Example approve_on_sample :
  let (st', r) := PUT_approve (Some "root.jwt") 1 Sample.db in
  code r = OK
  ∧ u_isApproved <$> users st' !! 1 = Some true
  ∧ p_isApproved <$> profiles st' !! 4 = Some true.
Proof. vm_compute. done. Qed.

Example approve_customer_on_sample :
  PUT_approve (Some "root.jwt") 2 Sample.db
  = (Sample.db,
     status_json NotFound (Msg "Doctor not found or not a doctor role")).
Proof. vm_compute. done. Qed.

Lemma delete_user_cascade_witness :
  bearer (Some "root.jwt") Sample.root_user
  ∧ r_role Sample.root_user = admin
  ∧ profile_user_unique Sample.db
  ∧ users Sample.db !! 3 = Some Sample.strange
  ∧ let (st', r) := DELETE_user (Some "root.jwt") 3 Sample.db in
    (role Sample.strange = admin ∨ 3 = id Sample.root_user →
       code r = Forbidden ∧ st' = Sample.db)
    ∧ (role Sample.strange = doctor → 3 ≠ id Sample.root_user →
       code r = OK
       ∧ st' = mkStore (delete 3 (users Sample.db))
                 (filter (λ kv, user kv.2 ≠ 3) (profiles Sample.db))
                 (filter (λ kv, a_doctor kv.2 ≠ 3) (appointments Sample.db))
                 (next_oid Sample.db))
    ∧ (role Sample.strange = customer → 3 ≠ id Sample.root_user →
       code r = OK
       ∧ st' = mkStore (delete 3 (users Sample.db)) (profiles Sample.db)
                 (filter (λ kv, a_customer kv.2 ≠ 3)
                    (appointments Sample.db))
                 (next_oid Sample.db)).
Proof.
  split; [exact sample_bearer_root|]. split; [reflexivity|].
  split; [exact sample_profile_user_unique|]. split; [reflexivity|].
  exact (delete_user_cascade Sample.db (Some "root.jwt") Sample.root_user 3
           Sample.strange sample_bearer_root eq_refl
           sample_profile_user_unique eq_refl).
Defined.

Example delete_doctor_on_sample :
  let (st', r) := DELETE_user (Some "root.jwt") 3 Sample.db in
  code r = OK
  ∧ users st' !! 3 = None
  ∧ map_to_list (profiles st') = [(4, Sample.who_profile)]
  ∧ map_to_list (appointments st') = [].
Proof. vm_compute. done. Qed.

Example delete_admin_on_sample :
  DELETE_user (Some "root.jwt") 0 Sample.db
  = (Sample.db,
     status_json Forbidden (Msg "Cannot delete an admin user.")).
Proof. vm_compute. done. Qed.

(** *** Booking, paying and cancelling (C4, C2, C5) *)

(** C4, a booking the schema rejects: the doctor's profile exists and is
    approved, yet a booking without a date ends in a server error and
    creates no appointment. *)
Lemma booking_without_date_creates_nothing :
  profiles Sample.db !! 5 = Some Sample.strange_profile
  ∧ user Sample.strange_profile = bb_doctorId Sample.booking_without_date
  ∧ p_isApproved Sample.strange_profile = true
  ∧ let (st', r) :=
      POST_book (Some "amy.jwt") 20 Sample.booking_without_date Sample.db in
    code r = InternalServerError
    ∧ code r ≠ Created
    ∧ appointments st' = appointments Sample.db.
Proof. vm_compute. done. Qed.

Lemma book_creates_pending_witness :
  bearer (Some "amy.jwt") Sample.amy_user
  ∧ (r_role Sample.amy_user = customer ∨ r_role Sample.amy_user = admin)
  ∧ oids_below Sample.db
  ∧ profile_user_unique Sample.db
  ∧ let (st', r) := POST_book (Some "amy.jwt") 20 Sample.booking Sample.db in
    ((∀ j p, profiles Sample.db !! j = Some p →
             user p = bb_doctorId Sample.booking →
             p_isApproved p = false) →
       code r = BadRequest ∧ st' = Sample.db)
    ∧ (∀ j p, profiles Sample.db !! j = Some p →
              user p = bb_doctorId Sample.booking →
              p_isApproved p = true →
         (∀ dt tm, bb_date Sample.booking = Some dt → dt ≠ "" →
                   bb_time Sample.booking = Some tm → tm ≠ "" →
            code r = Created
            ∧ appointments Sample.db !! next_oid Sample.db = None
            ∧ st' = mkStore (users Sample.db) (profiles Sample.db)
                      (<[next_oid Sample.db :=
                           mkAppointment (id Sample.amy_user)
                             (bb_doctorId Sample.booking) dt tm
                             (default [] (bb_documents Sample.booking))
                             (bb_notes Sample.booking)
                             (default false (bb_isEmergency Sample.booking))
                             pending pay_pending 20]>
                         (appointments Sample.db))
                      (S (next_oid Sample.db)))
         ∧ (truthy (bb_date Sample.booking) = false
            ∨ truthy (bb_time Sample.booking) = false →
            code r = InternalServerError ∧ st' = Sample.db)).
Proof.
  split; [exact sample_bearer_amy|]. split; [by left|].
  split; [exact sample_oids_below|].
  split; [exact sample_profile_user_unique|].
  exact (book_creates_pending Sample.db (Some "amy.jwt") Sample.amy_user 20
           Sample.booking sample_bearer_amy (or_introl eq_refl)
           sample_oids_below sample_profile_user_unique).
Defined.

Example book_on_sample :
  let (st', r) := POST_book (Some "amy.jwt") 20 Sample.booking Sample.db in
  code r = Created
  ∧ appointments st' !! 9
    = Some (mkAppointment 2 3 "2025-07-01" "14:30" [] (Some "checkup") false
              pending pay_pending 20).
Proof. vm_compute. done. Qed.

Example book_unapproved_on_sample :
  POST_book (Some "amy.jwt") 20
    (mkBookBody 1 (Some "2025-07-01") (Some "14:30") None None None)
    Sample.db
  = (Sample.db,
     status_json BadRequest (Msg "Doctor not found or not yet approved.")).
Proof. vm_compute. done. Qed.

Lemma pay_transition_witness :
  bearer (Some "amy.jwt") Sample.amy_user
  ∧ (r_role Sample.amy_user = customer ∨ r_role Sample.amy_user = admin)
  ∧ appointments Sample.db !! 6 = Some Sample.visit
  ∧ a_customer Sample.visit = id Sample.amy_user
  ∧ valid Sample.visit = true
  ∧ let (st', r) := POST_pay (Some "amy.jwt") 6 Sample.upi Sample.db in
    ((status Sample.visit ≠ pending ∧ status Sample.visit ≠ scheduled)
     ∨ paymentStatus Sample.visit = paid →
       code r = BadRequest ∧ st' = Sample.db)
    ∧ (status Sample.visit = pending ∨ status Sample.visit = scheduled →
       paymentStatus Sample.visit ≠ paid →
       valid Sample.visit = true →
       code r = OK
       ∧ st' = mkStore (users Sample.db) (profiles Sample.db)
                 (<[6 := mkAppointment (a_customer Sample.visit)
                           (a_doctor Sample.visit) (date Sample.visit)
                           (time Sample.visit) (documents Sample.visit)
                           (notes Sample.visit) (isEmergency Sample.visit)
                           (match status Sample.visit with
                            | pending => scheduled
                            | s => s
                            end)
                           paid (createdAt Sample.visit)]>
                    (appointments Sample.db))
                 (next_oid Sample.db))
    ∧ (status Sample.visit = pending ∨ status Sample.visit = scheduled →
       paymentStatus Sample.visit ≠ paid →
       valid Sample.visit = false →
       code r = InternalServerError ∧ st' = Sample.db).
Proof.
  split; [exact sample_bearer_amy|]. split; [by left|].
  split; [reflexivity|]. split; [reflexivity|]. split; [reflexivity|].
  exact (pay_transition Sample.db (Some "amy.jwt") Sample.amy_user 6
           Sample.visit Sample.upi sample_bearer_amy (or_introl eq_refl)
           eq_refl eq_refl).
Defined.

Example pay_on_sample :
  let (st', r) := POST_pay (Some "amy.jwt") 6 Sample.upi Sample.db in
  r = json (AppointmentBody
              "Payment successful via upi! Appointment is now scheduled."
              (6, mkAppointment 2 3 "2025-06-24" "10:00" []
                    (Some "headache") false scheduled paid 5))
  ∧ (status <$> appointments st' !! 6) = Some scheduled
  ∧ (paymentStatus <$> appointments st' !! 6) = Some paid.
Proof. vm_compute. done. Qed.

Example pay_twice_on_sample :
  POST_pay (Some "amy.jwt") 7 Sample.upi Sample.db
  = (Sample.db,
     status_json BadRequest
       (Msg "Payment has already been made for this appointment.")).
Proof. vm_compute. done. Qed.

Lemma cancel_transition_witness :
  bearer (Some "amy.jwt") Sample.amy_user
  ∧ (r_role Sample.amy_user = customer ∨ r_role Sample.amy_user = admin)
  ∧ appointments Sample.db !! 7 = Some Sample.paid_visit
  ∧ a_customer Sample.paid_visit = id Sample.amy_user
  ∧ valid Sample.paid_visit = true
  ∧ let (st', r) := PUT_cancel (Some "amy.jwt") 7 Sample.db in
    (status Sample.paid_visit = completed
     ∨ status Sample.paid_visit = cancelled →
       code r = BadRequest ∧ st' = Sample.db)
    ∧ (status Sample.paid_visit = pending
       ∨ status Sample.paid_visit = scheduled →
       valid Sample.paid_visit = true →
       code r = OK
       ∧ st' = mkStore (users Sample.db) (profiles Sample.db)
                 (<[7 := mkAppointment (a_customer Sample.paid_visit)
                           (a_doctor Sample.paid_visit)
                           (date Sample.paid_visit) (time Sample.paid_visit)
                           (documents Sample.paid_visit)
                           (notes Sample.paid_visit)
                           (isEmergency Sample.paid_visit)
                           cancelled (paymentStatus Sample.paid_visit)
                           (createdAt Sample.paid_visit)]>
                    (appointments Sample.db))
                 (next_oid Sample.db))
    ∧ (status Sample.paid_visit = pending
       ∨ status Sample.paid_visit = scheduled →
       valid Sample.paid_visit = false →
       code r = InternalServerError ∧ st' = Sample.db)
    ∧ (valid Sample.paid_visit = true
       ∨ status Sample.paid_visit = completed
       ∨ status Sample.paid_visit = cancelled →
       let (st'', r') := PUT_cancel (Some "amy.jwt") 7 st' in
       code r' = BadRequest ∧ st'' = st').
Proof.
  split; [exact sample_bearer_amy|]. split; [by left|].
  split; [reflexivity|]. split; [reflexivity|]. split; [reflexivity|].
  exact (cancel_transition Sample.db (Some "amy.jwt") Sample.amy_user 7
           Sample.paid_visit sample_bearer_amy (or_introl eq_refl)
           eq_refl eq_refl).
Defined.

Example cancel_completed_on_sample :
  PUT_cancel (Some "amy.jwt") 8 Sample.db
  = (Sample.db,
     status_json BadRequest (Msg "Cannot cancel a completed appointment.")).
Proof. vm_compute. done. Qed.

(** *** Status updates by a doctor (C8, C10) *)

Lemma status_update_by_other_doctor_witness :
  bearer (Some "who.jwt") Sample.who_user
  ∧ r_role Sample.who_user = doctor
  ∧ appointments Sample.db !! 6 = Some Sample.visit
  ∧ id Sample.who_user ≠ a_doctor Sample.visit
  ∧ let (st', r) :=
      PUT_status (Some "who.jwt") 6 Sample.reschedule Sample.db in
    code r = Unauthorized ∧ st' = Sample.db
    ∧ appointments st' !! 6 = Some Sample.visit.
Proof.
  assert (id Sample.who_user ≠ a_doctor Sample.visit) as Hne
    by (simpl; lia).
  split; [exact sample_bearer_who|]. split; [reflexivity|].
  split; [reflexivity|]. split; [exact Hne|].
  exact (status_update_by_other_doctor Sample.db (Some "who.jwt")
           Sample.who_user 6 Sample.visit Sample.reschedule
           sample_bearer_who eq_refl eq_refl Hne).
Defined.

Lemma status_update_frame_witness :
  bearer (Some "strange.jwt") Sample.strange_user
  ∧ r_role Sample.strange_user = doctor
  ∧ appointments Sample.db !! 6 = Some Sample.visit
  ∧ id Sample.strange_user = a_doctor Sample.visit
  ∧ let (st', r) :=
      PUT_status (Some "strange.jwt") 6 Sample.reschedule Sample.db in
    ∃ a',
      appointments st' !! 6 = Some a'
      ∧ st' = mkStore (users Sample.db) (profiles Sample.db)
                (<[6 := a']> (appointments Sample.db)) (next_oid Sample.db)
      ∧ (truthy (sb_status Sample.reschedule) = false →
         status a' = status Sample.visit)
      ∧ (truthy (sb_date Sample.reschedule) = false →
         date a' = date Sample.visit)
      ∧ (truthy (sb_time Sample.reschedule) = false →
         time a' = time Sample.visit)
      ∧ (code r = OK →
           (∀ s, sb_status Sample.reschedule = Some s → s ≠ "" →
                 Status_of_string s = Some (status a'))
           ∧ (∀ d, sb_date Sample.reschedule = Some d → d ≠ "" → date a' = d)
           ∧ (∀ t, sb_time Sample.reschedule = Some t → t ≠ "" →
                   time a' = t))
      ∧ (code r ≠ OK → a' = Sample.visit)
      ∧ a_customer a' = a_customer Sample.visit
      ∧ a_doctor a' = a_doctor Sample.visit
      ∧ documents a' = documents Sample.visit
      ∧ notes a' = notes Sample.visit
      ∧ isEmergency a' = isEmergency Sample.visit
      ∧ paymentStatus a' = paymentStatus Sample.visit
      ∧ createdAt a' = createdAt Sample.visit.
Proof.
  split; [exact sample_bearer_strange|]. split; [reflexivity|].
  split; [reflexivity|]. split; [reflexivity|].
  exact (status_update_frame Sample.db (Some "strange.jwt")
           Sample.strange_user 6 Sample.visit Sample.reschedule
           sample_bearer_strange eq_refl eq_refl eq_refl).
Defined.

Example reschedule_on_sample :
  (PUT_status (Some "strange.jwt") 6 Sample.reschedule Sample.db).2
  = json (AppointmentBody "Appointment updated successfully"
            (6, mkAppointment 2 3 "2025-06-30" "16:00" [] (Some "headache")
                  false pending pay_pending 5)).
Proof. vm_compute. done. Qed.

Example status_outside_enum_on_sample :
  PUT_status (Some "strange.jwt") 6
    (mkStatusBody (Some "postponed") (Some "2025-06-30") None) Sample.db
  = (Sample.db, server_error).
Proof. vm_compute. done. Qed.

(** *** Sequences of requests (C9) *)

Lemma payment_never_failed_witness :
  appointments empty_store = ∅
  ∧ ∀ i a,
      appointments (run Sample.scenario empty_store) !! i = Some a →
      paymentStatus a ≠ failed.
Proof.
  split; [reflexivity|].
  exact (payment_never_failed Sample.scenario empty_store eq_refl).
Defined.

(** ** More of the model at work on the sample database *)

Lemma sample_users_unique : users_unique Sample.db.
Proof.
  intros i j u v Hu Hv Heq. sample_lookup Hu; sample_lookup Hv;
    destruct Heq; done.
Qed.

Lemma sample_compare (p s : string) :
  bcrypt_compare p (bcrypt_hash p s) = true.
Proof. simpl. apply endsWith_spec. by exists s. Qed.

(** *** The middleware (X1, X2) *)

Lemma protected_routes_need_token_witness :
  request_token (Cancel None 6) = Some None
  ∧ (truthy None = false →
       serve (Cancel None 6) Sample.db
       = (Sample.db,
          status_json Unauthorized (Msg "No token, authorization denied")))
  ∧ (truthy None = true → jwt_verify (interpolate None) = None →
     serve (Cancel None 6) Sample.db
     = (Sample.db, status_json Unauthorized (Msg "Token is not valid"))).
Proof.
  split; [reflexivity|].
  exact (protected_routes_need_token (Cancel None 6) None Sample.db eq_refl).
Defined.

Example forged_token_on_sample :
  serve (Pay (Some "mallory.jwt") 6 Sample.upi) Sample.db
  = (Sample.db, status_json Unauthorized (Msg "Token is not valid")).
Proof. vm_compute. done. Qed.

Lemma role_gates_refuse_witness :
  bearer (Some "who.jwt") Sample.who_user
  ∧ (r_role Sample.who_user ≠ admin →
     ∀ uid,
       PUT_approve (Some "who.jwt") uid Sample.db
       = (Sample.db,
          status_json Forbidden (Msg "Access denied, not an admin"))
       ∧ DELETE_user (Some "who.jwt") uid Sample.db
         = (Sample.db,
            status_json Forbidden (Msg "Access denied, not an admin")))
  ∧ (r_role Sample.who_user ≠ doctor →
     ∀ now pb i sb,
       POST_profile (Some "who.jwt") now pb Sample.db
       = (Sample.db,
          status_json Forbidden (Msg "Access denied, not a doctor"))
       ∧ PUT_status (Some "who.jwt") i sb Sample.db
         = (Sample.db,
            status_json Forbidden (Msg "Access denied, not a doctor")))
  ∧ (r_role Sample.who_user = doctor →
     ∀ now bb i pb,
       POST_book (Some "who.jwt") now bb Sample.db
       = (Sample.db,
          status_json Forbidden (Msg "Access denied, not a customer"))
       ∧ PUT_cancel (Some "who.jwt") i Sample.db
         = (Sample.db,
            status_json Forbidden (Msg "Access denied, not a customer"))
       ∧ POST_pay (Some "who.jwt") i pb Sample.db
         = (Sample.db,
            status_json Forbidden (Msg "Access denied, not a customer"))).
Proof.
  split; [exact sample_bearer_who|].
  exact (role_gates_refuse (Some "who.jwt") Sample.who_user Sample.db
           sample_bearer_who).
Defined.

Example admin_is_no_doctor_on_sample :
  PUT_status (Some "root.jwt") 6 Sample.reschedule Sample.db
  = (Sample.db, status_json Forbidden (Msg "Access denied, not a doctor")).
Proof. vm_compute. done. Qed.

(** *** Owners and missing documents (X3, X4) *)

Lemma customer_routes_check_owner_witness :
  bearer (Some "root.jwt") Sample.root_user
  ∧ (r_role Sample.root_user = customer ∨ r_role Sample.root_user = admin)
  ∧ appointments Sample.db !! 6 = Some Sample.visit
  ∧ a_customer Sample.visit ≠ id Sample.root_user
  ∧ PUT_cancel (Some "root.jwt") 6 Sample.db
    = (Sample.db,
       status_json Unauthorized
         (Msg "Not authorized to cancel this appointment"))
  ∧ ∀ b, POST_pay (Some "root.jwt") 6 b Sample.db
         = (Sample.db,
            status_json Unauthorized
              (Msg "Not authorized to pay for this appointment")).
Proof.
  assert (a_customer Sample.visit ≠ id Sample.root_user) as Hne
    by (simpl; lia).
  split; [exact sample_bearer_root|]. split; [by right|].
  split; [reflexivity|]. split; [exact Hne|].
  exact (customer_routes_check_owner (Some "root.jwt") Sample.root_user 6
           Sample.visit Sample.db sample_bearer_root (or_intror eq_refl)
           eq_refl Hne).
Defined.

Lemma missing_documents_not_found_witness :
  bearer (Some "amy.jwt") Sample.amy_user
  ∧ (r_role Sample.amy_user = customer ∨ r_role Sample.amy_user = admin →
     appointments Sample.db !! 99 = None →
       PUT_cancel (Some "amy.jwt") 99 Sample.db
       = (Sample.db, status_json NotFound (Msg "Appointment not found"))
       ∧ ∀ b, POST_pay (Some "amy.jwt") 99 b Sample.db
              = (Sample.db,
                 status_json NotFound (Msg "Appointment not found")))
  ∧ (r_role Sample.amy_user = doctor →
     appointments Sample.db !! 99 = None →
     ∀ b, PUT_status (Some "amy.jwt") 99 b Sample.db
          = (Sample.db, status_json NotFound (Msg "Appointment not found")))
  ∧ (r_role Sample.amy_user = admin → users Sample.db !! 99 = None →
     DELETE_user (Some "amy.jwt") 99 Sample.db
     = (Sample.db, status_json NotFound (Msg "User not found"))).
Proof.
  split; [exact sample_bearer_amy|].
  exact (missing_documents_not_found (Some "amy.jwt") Sample.amy_user 99
           Sample.db sample_bearer_amy).
Defined.

Example delete_missing_user_on_sample :
  DELETE_user (Some "root.jwt") 99 Sample.db
  = (Sample.db, status_json NotFound (Msg "User not found")).
Proof. vm_compute. done. Qed.

(** *** The doctor routes (X5, X6) *)

Lemma status_update_any_target_witness :
  bearer (Some "strange.jwt") Sample.strange_user
  ∧ r_role Sample.strange_user = doctor
  ∧ appointments Sample.db !! 8 = Some Sample.done_visit
  ∧ id Sample.strange_user = a_doctor Sample.done_visit
  ∧ valid Sample.done_visit = true
  ∧ let a' :=
      mkAppointment (a_customer Sample.done_visit)
        (a_doctor Sample.done_visit) (date Sample.done_visit)
        (time Sample.done_visit) (documents Sample.done_visit)
        (notes Sample.done_visit) (isEmergency Sample.done_visit) pending
        (paymentStatus Sample.done_visit) (createdAt Sample.done_visit) in
    PUT_status (Some "strange.jwt") 8
      (mkStatusBody (Some (Status_to_string pending)) None None) Sample.db
    = (mkStore (users Sample.db) (profiles Sample.db)
         (<[8 := a']> (appointments Sample.db)) (next_oid Sample.db),
       json (AppointmentBody "Appointment updated successfully" (8, a'))).
Proof.
  split; [exact sample_bearer_strange|]. split; [reflexivity|].
  split; [reflexivity|]. split; [reflexivity|]. split; [reflexivity|].
  exact (status_update_any_target (Some "strange.jwt") Sample.strange_user 8
           Sample.done_visit pending Sample.db sample_bearer_strange
           eq_refl eq_refl eq_refl eq_refl).
Defined.

Lemma profile_upsert_witness :
  bearer (Some "who.jwt") Sample.who_user
  ∧ r_role Sample.who_user = doctor
  ∧ profile_user_unique Sample.db
  ∧ (truthy (pr_specialty Scenes.cardiology) = false →
       POST_profile (Some "who.jwt") 30 Scenes.cardiology Sample.db
       = (Sample.db, server_error))
  ∧ (∀ s j p,
       pr_specialty Scenes.cardiology = Some s → s ≠ "" →
       profiles Sample.db !! j = Some p → user p = id Sample.who_user →
       let p' :=
         mkDoctorProfile (user p) s (pr_clinicName Scenes.cardiology) (pr_address Scenes.cardiology)
           (pr_phone Scenes.cardiology) (p_isApproved p) (p_date p) in
       POST_profile (Some "who.jwt") 30 Scenes.cardiology Sample.db
       = (mkStore (users Sample.db) (<[j := p']> (profiles Sample.db))
            (appointments Sample.db) (next_oid Sample.db),
          json (ProfileBody "Doctor profile updated" (j, p'))))
  ∧ (∀ s,
       pr_specialty Scenes.cardiology = Some s → s ≠ "" →
       (∀ j p, profiles Sample.db !! j = Some p →
               user p ≠ id Sample.who_user) →
       profiles Sample.db !! next_oid Sample.db = None →
       let p' :=
         mkDoctorProfile (id Sample.who_user) s (pr_clinicName Scenes.cardiology)
           (pr_address Scenes.cardiology) (pr_phone Scenes.cardiology) false 30 in
       POST_profile (Some "who.jwt") 30 Scenes.cardiology Sample.db
       = (mkStore (users Sample.db)
            (<[next_oid Sample.db := p']> (profiles Sample.db))
            (appointments Sample.db) (S (next_oid Sample.db)),
          status_json Created
            (ProfileBody "Doctor profile created"
               (next_oid Sample.db, p')))).
Proof.
  split; [exact sample_bearer_who|]. split; [reflexivity|].
  split; [exact sample_profile_user_unique|].
  exact (profile_upsert (Some "who.jwt") Sample.who_user 30 Scenes.cardiology Sample.db
           sample_bearer_who eq_refl sample_profile_user_unique).
Defined.

Example profile_update_on_sample :
  (POST_profile (Some "who.jwt") 30
     (mkProfileBodyReq (Some "Cardiology") None None None) Sample.db).2
  = json (ProfileBody "Doctor profile updated"
            (4, mkDoctorProfile 1 "Cardiology" None None None false 2)).
Proof. vm_compute. done. Qed.

(** *** Registration and login (X7, X8) *)

Lemma register_twice_refused_witness :
  oids_below Sample.db
  ∧ (∀ p s, bcrypt_hash p s ≠ "")
  ∧ code (POST_register "s9" 10 Sample.bob_body Sample.db).2 = OK
  ∧ is_Some (users (run Scenes.day
                      (POST_register "s9" 10 Sample.bob_body Sample.db).1)
               !! next_oid Sample.db)
  ∧ (rb_email Scenes.bobby_body = rb_email Sample.bob_body
     ∨ rb_username Scenes.bobby_body = rb_username Sample.bob_body)
  ∧ POST_register "s10" 11 Scenes.bobby_body
      (run Scenes.day (POST_register "s9" 10 Sample.bob_body Sample.db).1)
    = (run Scenes.day (POST_register "s9" 10 Sample.bob_body Sample.db).1,
       status_json BadRequest (Msg "User already exists")).
Proof.
  assert (code (POST_register "s9" 10 Sample.bob_body Sample.db).2 = OK)
    as Hok by (vm_compute; reflexivity).
  assert (is_Some (users (run Scenes.day
                            (POST_register "s9" 10 Sample.bob_body
                               Sample.db).1)
                     !! next_oid Sample.db)) as Hstored
    by (vm_compute; eexists; reflexivity).
  split; [exact sample_oids_below|]. split; [exact sample_hash_nonempty|].
  split; [exact Hok|]. split; [exact Hstored|].
  split; [left; reflexivity|].
  exact (register_twice_refused Sample.db "s9" 10 Sample.bob_body Scenes.day
           "s10" 11 Scenes.bobby_body sample_oids_below sample_hash_nonempty
           Hok Hstored (or_introl eq_refl)).
Defined.

Lemma register_then_login_witness :
  oids_below Sample.db
  ∧ (∀ p s, bcrypt_hash p s ≠ "")
  ∧ (∀ p s, bcrypt_compare p (bcrypt_hash p s) = true)
  ∧ let (st1, r1) := POST_register "s9" 10 Sample.bob_body Sample.db in
    code r1 = OK →
    ∃ payload,
      id payload = next_oid Sample.db
      ∧ r1 = json (AuthBody (jwt_sign payload) "Registration successful!"
                     (r_role payload) None)
      ∧ POST_login
          (mkLoginBody (rb_email Sample.bob_body)
             (rb_password Sample.bob_body)) st1
        = (st1, json (AuthBody (jwt_sign payload) "Login successful!"
                        (r_role payload) (Some payload))).
Proof.
  split; [exact sample_oids_below|]. split; [exact sample_hash_nonempty|].
  split; [exact sample_compare|].
  exact (register_then_login Sample.db "s9" 10 Sample.bob_body
           sample_oids_below sample_hash_nonempty sample_compare).
Defined.

Example login_without_password_on_sample :
  POST_login (mkLoginBody (Some "amy@example.com") None) Sample.db
  = (Sample.db, server_error)
  ∧ POST_login (mkLoginBody (Some "nobody@example.com") None) Sample.db
    = (Sample.db, status_json BadRequest (Msg "Invalid Credentials")).
Proof. vm_compute. done. Qed.

(** *** What stored documents keep (X10, X11, X12, X13, X14) *)

Example day_on_sample :
  appointments (run Scenes.day Sample.db) !! 6 = Some Scenes.visit_after
  ∧ users (run Scenes.day Sample.db) !! 1 = Some Scenes.who_after
  ∧ profiles (run Scenes.day Sample.db) !! 4 = Some Scenes.who_profile_after
  ∧ (status <$> appointments (run Scenes.day Sample.db) !! 7)
    = Some cancelled.
Proof. vm_compute. done. Qed.

Lemma appointment_keeps_parties_witness :
  oids_below Sample.db
  ∧ appointments Sample.db !! 6 = Some Sample.visit
  ∧ appointments (run Scenes.day Sample.db) !! 6 = Some Scenes.visit_after
  ∧ a_customer Scenes.visit_after = a_customer Sample.visit
  ∧ a_doctor Scenes.visit_after = a_doctor Sample.visit
  ∧ documents Scenes.visit_after = documents Sample.visit
  ∧ notes Scenes.visit_after = notes Sample.visit
  ∧ isEmergency Scenes.visit_after = isEmergency Sample.visit
  ∧ createdAt Scenes.visit_after = createdAt Sample.visit
  ∧ (paymentStatus Sample.visit = paid →
     paymentStatus Scenes.visit_after = paid).
Proof.
  assert (appointments (run Scenes.day Sample.db) !! 6
          = Some Scenes.visit_after) as Hafter by (vm_compute; reflexivity).
  split; [exact sample_oids_below|]. split; [reflexivity|].
  split; [exact Hafter|].
  exact (appointment_keeps_parties Scenes.day Sample.db 6 Sample.visit
           Scenes.visit_after sample_oids_below eq_refl Hafter).
Defined.

Lemma user_keeps_identity_witness :
  oids_below Sample.db
  ∧ users (run Scenes.day Sample.db) !! 1 = Some Scenes.who_after
  ∧ (∀ u, users Sample.db !! 1 = Some u →
       username Scenes.who_after = username u
       ∧ email Scenes.who_after = email u
       ∧ password Scenes.who_after = password u
       ∧ role Scenes.who_after = role u
       ∧ u_date Scenes.who_after = u_date u
       ∧ (u_isApproved u = true → u_isApproved Scenes.who_after = true))
  ∧ (users Sample.db !! 1 = None → role Scenes.who_after ≠ admin).
Proof.
  assert (users (run Scenes.day Sample.db) !! 1 = Some Scenes.who_after)
    as Hafter by (vm_compute; reflexivity).
  split; [exact sample_oids_below|]. split; [exact Hafter|].
  exact (user_keeps_identity Scenes.day Sample.db 1 Scenes.who_after
           sample_oids_below Hafter).
Defined.

Lemma profile_keeps_user_and_approval_witness :
  oids_below Sample.db
  ∧ profiles Sample.db !! 4 = Some Sample.who_profile
  ∧ profiles (run Scenes.day Sample.db) !! 4 = Some Scenes.who_profile_after
  ∧ user Scenes.who_profile_after = user Sample.who_profile
  ∧ p_date Scenes.who_profile_after = p_date Sample.who_profile
  ∧ (p_isApproved Sample.who_profile = true →
     p_isApproved Scenes.who_profile_after = true).
Proof.
  assert (profiles (run Scenes.day Sample.db) !! 4
          = Some Scenes.who_profile_after) as Hafter
    by (vm_compute; reflexivity).
  split; [exact sample_oids_below|]. split; [reflexivity|].
  split; [exact Hafter|].
  exact (profile_keeps_user_and_approval Scenes.day Sample.db 4
           Sample.who_profile Scenes.who_profile_after sample_oids_below
           eq_refl Hafter).
Defined.

Lemma approval_only_by_admin_witness :
  oids_below Sample.db
  ∧ profiles Sample.db !! 4 = Some Sample.who_profile
  ∧ profiles (serve (Approve (Some "root.jwt") 1) Sample.db).1 !! 4
    = Some Scenes.who_profile_after
  ∧ p_isApproved Sample.who_profile = false
  ∧ p_isApproved Scenes.who_profile_after = true
  ∧ ∃ token u d,
      Approve (Some "root.jwt") 1 = Approve token (user Sample.who_profile)
      ∧ bearer token u ∧ r_role u = admin
      ∧ users Sample.db !! user Sample.who_profile = Some d
      ∧ role d = doctor.
Proof.
  assert (profiles (serve (Approve (Some "root.jwt") 1) Sample.db).1 !! 4
          = Some Scenes.who_profile_after) as Hafter
    by (vm_compute; reflexivity).
  split; [exact sample_oids_below|]. split; [reflexivity|].
  split; [exact Hafter|]. split; [reflexivity|]. split; [reflexivity|].
  exact (approval_only_by_admin (Approve (Some "root.jwt") 1) Sample.db 4
           Sample.who_profile Scenes.who_profile_after sample_oids_below
           eq_refl Hafter eq_refl eq_refl).
Defined.

Lemma unique_indexes_kept_witness :
  users_unique Sample.db
  ∧ profile_user_unique Sample.db
  ∧ users_unique (run Scenes.day Sample.db)
  ∧ profile_user_unique (run Scenes.day Sample.db).
Proof.
  split; [exact sample_users_unique|].
  split; [exact sample_profile_user_unique|].
  exact (unique_indexes_kept Scenes.day Sample.db sample_users_unique
           sample_profile_user_unique).
Defined.

(** *** The read routes (X16, X17, X18) *)

Lemma listed_doctors_are_bookable_witness :
  bearer (Some "amy.jwt") Sample.amy_user
  ∧ (r_role Sample.amy_user = customer ∨ r_role Sample.amy_user = admin)
  ∧ profile_user_unique Sample.db
  ∧ ∃ l,
      (GET_doctors (Some "amy.jwt") Sample.db).2 = Found (DoctorsBody l)
      ∧ (∀ j p pu,
           (j, p, pu) ∈ l ↔
           profiles Sample.db !! j = Some p ∧ p_isApproved p = true
           ∧ pu = populate false Sample.db (user p))
      ∧ (code (POST_book (Some "amy.jwt") 20 Sample.booking Sample.db).2
         = BadRequest ↔
         ¬ ∃ j p pu, (j, p, pu) ∈ l ∧ user p = bb_doctorId Sample.booking).
Proof.
  split; [exact sample_bearer_amy|]. split; [by left|].
  split; [exact sample_profile_user_unique|].
  exact (listed_doctors_are_bookable (Some "amy.jwt") Sample.amy_user 20
           Sample.booking Sample.db sample_bearer_amy (or_introl eq_refl)
           sample_profile_user_unique).
Defined.

Example doctors_on_sample :
  (GET_doctors (Some "amy.jwt") Sample.db).2
  = Found (DoctorsBody
             [(5, Sample.strange_profile,
               Some (mkPopulatedUser 3 "strange" "strange@chetan.doctor"
                       None))]).
Proof. vm_compute. done. Qed.

Lemma doctor_appointments_listing_witness :
  bearer (Some "strange.jwt") Sample.strange_user
  ∧ r_role Sample.strange_user = doctor
  ∧ ∃ l,
      (GET_doctor_appointments (Some "strange.jwt") Sample.db).2
      = Found (AppointmentsBody l)
      ∧ (∀ i a pu,
           (i, a, pu) ∈ l ↔
           appointments Sample.db !! i = Some a
           ∧ a_doctor a = id Sample.strange_user
           ∧ pu = populate false Sample.db (a_customer a))
      ∧ Sorted by_date_time (l.*1)
      ∧ NoDup (l.*1.*1).
Proof.
  split; [exact sample_bearer_strange|]. split; [reflexivity|].
  exact (doctor_appointments_listing (Some "strange.jwt")
           Sample.strange_user Sample.db sample_bearer_strange eq_refl).
Defined.

Example doctor_appointments_on_sample :
  ∃ l,
    (GET_doctor_appointments (Some "strange.jwt") Sample.db).2
    = Found (AppointmentsBody l)
    ∧ l.*1.*1 = [8; 6; 7].
Proof. eexists. split; [vm_compute; reflexivity|]. done. Qed.

Lemma my_appointments_listing_witness :
  bearer (Some "amy.jwt") Sample.amy_user
  ∧ (r_role Sample.amy_user = customer ∨ r_role Sample.amy_user = admin)
  ∧ ∃ l,
      (GET_my_appointments (Some "amy.jwt") Sample.db).2
      = Found (AppointmentsBody l)
      ∧ (∀ i a pu,
           (i, a, pu) ∈ l ↔
           appointments Sample.db !! i = Some a
           ∧ a_customer a = id Sample.amy_user
           ∧ pu = populate false Sample.db (a_doctor a))
      ∧ Sorted by_recent (l.*1)
      ∧ NoDup (l.*1.*1).
Proof.
  split; [exact sample_bearer_amy|]. split; [by left|].
  exact (my_appointments_listing (Some "amy.jwt") Sample.amy_user Sample.db
           sample_bearer_amy (or_introl eq_refl)).
Defined.

Example my_appointments_on_sample :
  ∃ l,
    (GET_my_appointments (Some "amy.jwt") Sample.db).2
    = Found (AppointmentsBody l)
    ∧ l.*1.*1 = [8; 7; 6].
Proof. eexists. split; [vm_compute; reflexivity|]. done. Qed.

(** *** After a deletion (X19, X20) *)

Lemma deleted_user_is_gone_witness :
  bearer (Some "root.jwt") Sample.root_user
  ∧ r_role Sample.root_user = admin
  ∧ users_unique Sample.db
  ∧ profile_user_unique Sample.db
  ∧ users Sample.db !! 3 = Some Sample.strange
  ∧ role Sample.strange ≠ admin
  ∧ 3 ≠ id Sample.root_user
  ∧ let st1 := (DELETE_user (Some "root.jwt") 3 Sample.db).1 in
    users st1 !! 3 = None
    ∧ (∀ pw,
         POST_login (mkLoginBody (Some (email Sample.strange)) (Some pw)) st1
         = (st1, status_json BadRequest (Msg "Invalid Credentials")))
    ∧ (role Sample.strange = doctor →
       ∀ t v now b,
         bearer t v → r_role v = customer ∨ r_role v = admin →
         bb_doctorId b = 3 →
         POST_book t now b st1
         = (st1, status_json BadRequest
                   (Msg "Doctor not found or not yet approved."))).
Proof.
  assert (role Sample.strange ≠ admin) as Hrole by done.
  assert (3 ≠ id Sample.root_user) as Hne by (simpl; lia).
  split; [exact sample_bearer_root|]. split; [reflexivity|].
  split; [exact sample_users_unique|].
  split; [exact sample_profile_user_unique|]. split; [reflexivity|].
  split; [exact Hrole|]. split; [exact Hne|].
  exact (deleted_user_is_gone (Some "root.jwt") Sample.root_user 3
           Sample.strange Sample.db sample_bearer_root eq_refl
           sample_users_unique sample_profile_user_unique eq_refl Hrole Hne).
Defined.

Lemma token_outlives_user_witness :
  bearer (Some "amy.jwt") Sample.amy_user
  ∧ (∀ d, users Scenes.without_amy !! id Sample.amy_user = Some d →
       GET_user (Some "amy.jwt") Scenes.without_amy
       = (Scenes.without_amy,
          Found (UserBody
                   (Some (mkPublicUser (id Sample.amy_user) (username d)
                            (email d) (role d) (u_isApproved d)
                            (u_date d))))))
  ∧ (users Scenes.without_amy !! id Sample.amy_user = None →
     GET_user (Some "amy.jwt") Scenes.without_amy
     = (Scenes.without_amy, Found (UserBody None))
     ∧ (r_role Sample.amy_user = customer → oids_below Scenes.without_amy →
        profile_user_unique Scenes.without_amy →
        ∀ now b j p dt tm,
          profiles Scenes.without_amy !! j = Some p →
          user p = bb_doctorId b → p_isApproved p = true →
          bb_date b = Some dt → dt ≠ "" → bb_time b = Some tm → tm ≠ "" →
          ∃ a,
            code (POST_book (Some "amy.jwt") now b Scenes.without_amy).2
            = Created
            ∧ appointments
                (POST_book (Some "amy.jwt") now b Scenes.without_amy).1
                !! next_oid Scenes.without_amy = Some a
            ∧ a_customer a = id Sample.amy_user)).
Proof.
  split; [exact sample_bearer_amy|].
  exact (token_outlives_user (Some "amy.jwt") Sample.amy_user
           Scenes.without_amy sample_bearer_amy).
Defined.

Example deleted_customer_still_books :
  users Scenes.without_amy !! 2 = None
  ∧ (GET_user (Some "amy.jwt") Scenes.without_amy).2 = Found (UserBody None)
  ∧ code (POST_book (Some "amy.jwt") 20 Sample.booking Scenes.without_amy).2
    = Created
  ∧ (a_customer <$>
       appointments
         (POST_book (Some "amy.jwt") 20 Sample.booking Scenes.without_amy).1
         !! 9) = Some 2.
Proof. vm_compute. done. Qed.

(** *** Stored documents and the validators of the schemas *)

Lemma sample_schema_valid : schema_valid Sample.db.
Proof.
  split_and!; intros i x Hx; simpl in Hx; sample_lookup Hx; reflexivity.
Qed.

Example day_keeps_sample_valid : schema_valid (run Scenes.day Sample.db).
Proof. apply run_schema_valid, sample_schema_valid. Qed.

(** On a stored appointment without a date every save throws: pay,
    cancel and the status update answer 500 and write nothing. *)
Example writes_on_undated_appointment :
  appointments Scenes.imported !! 9 = Some Scenes.undated_visit
  ∧ valid Scenes.undated_visit = false
  ∧ POST_pay (Some "amy.jwt") 9 Sample.upi Scenes.imported
    = (Scenes.imported, server_error)
  ∧ PUT_cancel (Some "amy.jwt") 9 Scenes.imported
    = (Scenes.imported, server_error)
  ∧ PUT_status (Some "strange.jwt") 9
      (mkStatusBody (Some "completed") None None) Scenes.imported
    = (Scenes.imported, server_error).
Proof. vm_compute. done. Qed.

(** A date in the request repairs the document, and the update goes
    through. *)
Example reschedule_undated_appointment :
  let (st', r) :=
    PUT_status (Some "strange.jwt") 9 Sample.reschedule Scenes.imported in
  code r = OK
  ∧ (date <$> appointments st' !! 9) = Some "2025-06-30".
Proof. vm_compute. done. Qed.

(** On a stored profile without a specialty the approval writes the user
    and then fails: the user is approved, the profile is not. *)
Example approve_with_blank_profile :
  let (st', r) := PUT_approve (Some "root.jwt") 1 Scenes.imported in
  r = server_error
  ∧ (u_isApproved <$> users st' !! 1) = Some true
  ∧ (p_isApproved <$> profiles st' !! 4) = Some false.
Proof. vm_compute. done. Qed.

(** *** Names that become free again, and the order of a listing *)

(** After the deletion of the account the same registration is accepted
    again. *)
Example register_after_deletion :
  let st1 := (POST_register "s9" 10 Sample.bob_body Sample.db).1 in
  let st2 := (DELETE_user (Some "root.jwt") 9 st1).1 in
  users st1 !! 9 = Some (mkUser "bob" "bob@chetan.doctor" "s9$pw" doctor
                           false 10)
  ∧ users st2 !! 9 = None
  ∧ code (POST_register "s10" 12 Sample.bob_body st2).2 = OK
  ∧ (email <$> users (run Scenes.bob_comes_back Sample.db) !! 11)
    = Some "bob@chetan.doctor".
Proof. vm_compute. done. Qed.

(** The admin is shown the users in the order of their registration. *)
Example users_on_sample :
  ∃ l,
    (GET_users (Some "root.jwt") Sample.db).2 = Found (UsersBody l)
    ∧ pub_username <$> l = ["root"; "who"; "amy"; "strange"].
Proof. eexists. split; [vm_compute; reflexivity|]. done. Qed.
